(** * ADB bug-report generator: a shallow embedding of [generate_bug_report.py]

    The script shells out to [adb], parses its textual output, copies files
    and zips a report directory.  The development below follows the script
    function by function:

    - [Text]: Python [str] as a list of code points, with the [str] methods
      the script calls ([strip], [splitlines], [split], [in], [startswith],
      [rstrip("/")]), [os.path.join], and the one regular expression of the
      script, [\x1b\[[0-9;]*m];
    - [Proc]: the process as a state-and-exception monad over a trace of
      what it printed, ran and wrote, with the outside world (the answers of
      [adb]) a function of the trace so far;
    - [Script]: the functions of the script, with their names;
    - [Zip]: the report directory as a tree and [create_zip] on it. *)

From Stdlib Require Import List Bool Arith NArith ZArith Lia.
From Stdlib Require String Ascii DecimalString.
From Equations Require Import Equations.
Import ListNotations.
Import String.StringSyntax.
Delimit Scope string_scope with string.

Set Implicit Arguments.

(* ===================================================================== *)
(** * Python text *)
(* ===================================================================== *)

Module Text.

(** A Python [str] is a sequence of Unicode code points. *)
Definition char := N.
Definition str := list char.

(** An ASCII literal of the script, as a [str]. *)
Definition lit (s : String.string) : str :=
  map Ascii.N_of_ascii (String.list_ascii_of_string s).
Arguments lit s%_string : simpl never.

Definition LF : char := 10%N.
Definition ESC : char := 27%N.
Definition SLASH : char := 47%N.

(** [c.isspace()]: the code points CPython treats as whitespace. *)
Definition isspace (c : char) : bool :=
  ((9 <=? c) && (c <=? 13) || (28 <=? c) && (c <=? 32)
   || (c =? 0x85) || (c =? 0xA0) || (c =? 0x1680)
   || (0x2000 <=? c) && (c <=? 0x200A)
   || (c =? 0x2028) || (c =? 0x2029) || (c =? 0x202F)
   || (c =? 0x205F) || (c =? 0x3000))%N.

(** The line boundaries of [str.splitlines]. *)
Definition is_linebreak (c : char) : bool :=
  ((10 <=? c) && (c <=? 13) || (28 <=? c) && (c <=? 30)
   || (c =? 0x85) || (c =? 0x2028) || (c =? 0x2029))%N.

(** [s.lstrip()], [s.rstrip()], [s.strip()]. *)
Fixpoint lstrip (s : str) : str :=
  match s with
  | c :: s' => if isspace c then lstrip s' else s
  | [] => []
  end.

Definition rstrip (s : str) : str := rev (lstrip (rev s)).

Definition strip (s : str) : str := rstrip (lstrip s).

(** [s.rstrip(chars)] for a one-character [chars]. *)
Fixpoint lstrip_char (x : char) (s : str) : str :=
  match s with
  | c :: s' => if (c =? x)%N then lstrip_char x s' else s
  | [] => []
  end.

Definition rstrip_char (x : char) (s : str) : str :=
  rev (lstrip_char x (rev s)).

(** [s.splitlines()]: [cur] is the line being read, last character first.
    A carriage return followed by a line feed is one boundary; no empty
    line is reported after a final boundary. *)
Fixpoint splitlines_from (cur : str) (s : str) : list str :=
  match s with
  | [] => match cur with [] => [] | _ :: _ => [rev cur] end
  | c :: s' =>
      if is_linebreak c then
        rev cur ::
          match s' with
          | d :: s'' =>
              if ((c =? 13) && (d =? 10))%N then splitlines_from [] s''
              else splitlines_from [] s'
          | [] => splitlines_from [] s'
          end
      else splitlines_from (c :: cur) s'
  end.

Definition splitlines (s : str) : list str := splitlines_from [] s.

(** [s.split()]: the maximal runs of non-whitespace. *)
Fixpoint split_from (cur : str) (s : str) : list str :=
  match s with
  | [] => match cur with [] => [] | _ :: _ => [rev cur] end
  | c :: s' =>
      if isspace c then
        match cur with
        | [] => split_from [] s'
        | _ :: _ => rev cur :: split_from [] s'
        end
      else split_from (c :: cur) s'
  end.

Definition split (s : str) : list str := split_from [] s.

(** [s.startswith(p)] and [p in s]. *)
Fixpoint startswith (p s : str) : bool :=
  match p, s with
  | [], _ => true
  | _ :: _, [] => false
  | a :: p', b :: s' => (a =? b)%N && startswith p' s'
  end.

Fixpoint py_in (p s : str) : bool :=
  startswith p s ||
  match s with
  | [] => false
  | _ :: s' => py_in p s'
  end.

(** [s.endswith(p)], used by [os.path.join]. *)
Definition endswith (p s : str) : bool := startswith (rev p) (rev s).

(** Truthiness of a [str]: [if s:]. *)
Definition truthy (s : str) : bool :=
  match s with [] => false | _ :: _ => true end.

Definition str_eqb (a b : str) : bool :=
  if list_eq_dec N.eq_dec a b then true else false.

(** [str(n)] for an [int]. *)
Definition str_of_int (z : Z) : str :=
  lit (DecimalString.NilZero.string_of_int (Z.to_int z)).

(** [os.path.join(a, b)] on POSIX. *)
Definition os_path_join (a b : str) : str :=
  if startswith [SLASH] b then b
  else if negb (truthy a) || endswith [SLASH] a then a ++ b
  else a ++ SLASH :: b.

(** [os.path.basename(p)] on POSIX: what follows the last slash. *)
Fixpoint basename_from (cur : str) (p : str) : str :=
  match p with
  | [] => rev cur
  | c :: p' => if (c =? SLASH)%N then basename_from [] p'
               else basename_from (c :: cur) p'
  end.

Definition os_path_basename (p : str) : str := basename_from [] p.


(** ** The escape-code pattern [\x1b\[[0-9;]*m]

    [[0-9;]] holds the ASCII digits and the semicolon; it does not hold
    [m], so the greedy star stops exactly where the parameters stop and
    giving characters back never helps: a match at the head of [s] exists
    iff an [m] follows the longest run of parameters. *)
Definition is_param (c : char) : bool :=
  ((48 <=? c) && (c <=? 57) || (c =? 59))%N.

(** [[0-9;]*m] at the head of [s]: what follows the match. *)
Fixpoint match_params (s : str) : option str :=
  match s with
  | [] => None
  | c :: s' =>
      if is_param c then match_params s'
      else if (c =? 109)%N then Some s' else None
  end.

(** The whole pattern at the head of [s]: what follows the match. *)
Definition match_ansi (s : str) : option str :=
  match s with
  | e :: b :: s' =>
      if ((e =? ESC) && (b =? 91))%N then match_params s' else None
  | _ => None
  end.

Definition inspect {A : Type} (a : A) : {b : A | a = b} :=
  exist _ a eq_refl.

(** [re.sub(r'\x1b\[[0-9;]*m', '', s)]: scan from the left; where the
    pattern matches, drop the match and go on after it; elsewhere keep the
    character and go on with the next one. *)
Equations? re_sub_ansi (s : str) : str by wf (length s) lt :=
  re_sub_ansi [] := [];
  re_sub_ansi (c :: s') with inspect (match_ansi (c :: s')) := {
    | exist _ (Some rest) _ := re_sub_ansi rest;
    | exist _ None _ := c :: re_sub_ansi s' }.
Proof.
  destruct s' as [|b s'']; [discriminate|].
  simpl in e. destruct ((c =? ESC)%N && (b =? 91)%N); [|discriminate].
  assert (H : forall t r,
             match_params t = Some r -> length r < length t).
  { induction t as [|x t IH]; simpl; [discriminate|]. intros r.
    destruct (is_param x).
    - intros E. apply IH in E. lia.
    - destruct (x =? 109)%N; [|discriminate]. intros E. inversion E. lia. }
  apply H in e. simpl. lia.
Qed.

End Text.
Import Text.

(* ===================================================================== *)
(** * The local report directory *)
(* ===================================================================== *)

Module Tree.

(** A directory holds named entries, in the order [os.scandir] reports
    them; an entry is a regular file with its content or a directory. *)
#[warnings="-register-all"]
Inductive node : Type :=
| File (content : str)
| Dir (entries : list (str * node)).

Definition dir := list (str * node).

(** A member of a zip archive: its name in the archive and its content.
    [ZipFile.write] appends a member also when the name is already there. *)
Definition member := (str * str)%type.
Definition archive := list member.

(** The regular files of one directory, as [os.walk] yields them in
    [files], each under the path [os.path.relpath] gives it. *)
Fixpoint files_of (rel : str) (d : dir) : archive :=
  match d with
  | [] => []
  | (name, File content) :: d' =>
      (os_path_join rel name, content) :: files_of rel d'
  | (_, Dir _) :: d' => files_of rel d'
  end.

(** [os.walk(source_dir)], top down, with the two loops of [create_zip]
    over it: the files of a directory first, then its subdirectories in
    turn.  [rel] is the path of the directory relative to [source_dir],
    empty for [source_dir] itself. *)
Fixpoint walk_node (rel : str) (n : node) : archive :=
  match n with
  | File _ => []
  | Dir d =>
      files_of rel d ++
      flat_map (fun e => walk_node (os_path_join rel (fst e)) (snd e)) d
  end.

Definition walk (d : dir) : archive := walk_node [] (Dir d).

(** [open(os.path.join(source_dir, name), "w").write(content)]: replaces
    the content of the file of that name, creates the file when there is
    none, and fails ([None], Python's [IsADirectoryError]) when the name is
    a directory. *)
Fixpoint write_file (name content : str) (d : dir) : option dir :=
  match d with
  | [] => Some [(name, File content)]
  | (n, x) :: d' =>
      if str_eqb n name then
        match x with
        | File _ => Some ((n, File content) :: d')
        | Dir _ => None
        end
      else option_map (cons (n, x)) (write_file name content d')
  end.

(** What [ZipFile.read(name)] and extraction give for a name: the member
    written last under it. *)
Fixpoint read (a : archive) (name : str) : option str :=
  match a with
  | [] => None
  | (n, c) :: a' =>
      match read a' name with
      | Some c' => Some c'
      | None => if str_eqb n name then Some c else None
      end
  end.

Definition names (a : archive) : list str := map fst a.

End Tree.
Import Tree.

(* ===================================================================== *)
(** * The process and the world around it *)
(* ===================================================================== *)

Module Proc.

(** What [subprocess.run] is given: an argument vector, or a line for the
    shell ([shell=True]). *)
Inductive Cmd : Type :=
| Argv (argv : list str)
| Shell (line : str).

(** What the process does that the outside can see, in order.  Creating
    a directory and writing a file under the report directory are taken to
    succeed; they are recorded, and what the local disk holds afterwards is
    the world's to say (see [disk] below). *)
Inductive Event : Type :=
| Printed (text : str)                   (* print(text) *)
| Prompted (text : str)                  (* the prompt of input(text) *)
| Ran (c : Cmd) (returncode : Z)         (* subprocess.run(c) came back *)
| MadeDirs (path : str)                  (* os.makedirs(path, exist_ok=True) *)
| Wrote (path content : str)             (* open(path, "w").write(content) *)
| Archived (path : str) (a : archive).   (* the zip file closed at [path] *)

Inductive Exn : Type :=
| CalledProcessError (c : Cmd) (returncode : Z)
| ValueError
| IndexError
| EOFError
| IsADirectoryError
| SystemExit (code : Z).

(** The state of the process: the lines still to come on standard input
    and what it has done so far. *)
Record World : Type := { stdin : list str; trace : list Event }.

(** The outside world.  Its answers may depend on everything the process
    has done before.  A command is taken to come back with a return code
    and, where its output is captured, with a text: [check=True] turns a
    return code other than 0 into [CalledProcessError].  A command that
    cannot be started ([adb] not installed) and an output that does not
    decode as text are outside this development: the theorems below say
    nothing about such runs. *)
Record Env : Type := {
  (** [subprocess.run]: return code and captured standard output *)
  respond : list Event -> Cmd -> Z * str;
  (** the content of a local directory *)
  disk : list Event -> str -> dir;
  (** Python's [int(s)]; [None] is [ValueError] *)
  int_of_str : str -> option Z;
  (** Python's [str(e)] for a [CalledProcessError] *)
  error_text : Cmd -> Z -> str;
  (** [datetime.now().strftime("%m-%d-%Y_%H:%M:%S")], taken once *)
  timestamp : str
}.

Inductive Outcome (A : Type) : Type :=
| Returned (a : A)
| Raised (e : Exn).
Arguments Raised {A} e.

Definition M (A : Type) : Type := World -> Outcome A * World.

Definition ret {A} (a : A) : M A := fun w => (Returned a, w).

Definition raise {A} (e : Exn) : M A := fun w => (Raised e, w).

Definition bind {A B} (m : M A) (k : A -> M B) : M B :=
  fun w =>
    match m w with
    | (Returned a, w') => k a w'
    | (Raised e, w') => (Raised e, w')
    end.

(** [try: body except ...: handler]; [handler e = None] when no clause
    catches [e]. *)
Definition try_except {A} (body : M A) (handler : Exn -> option (M A)) : M A :=
  fun w =>
    match body w with
    | (Returned a, w') => (Returned a, w')
    | (Raised e, w') =>
        match handler e with
        | Some h => h w'
        | None => (Raised e, w')
        end
    end.

Declare Scope proc_scope.
Delimit Scope proc_scope with proc.
Bind Scope proc_scope with M.
Notation "x <- m ;; k" := (bind m (fun x => k))
  (at level 61, m at next level, right associativity) : proc_scope.
Notation "m ;; k" := (bind m (fun _ => k))
  (at level 61, right associativity) : proc_scope.
Local Open Scope proc_scope.

(** The world after some more events. *)
Definition extend (w : World) (events : list Event) : World :=
  {| stdin := stdin w; trace := trace w ++ events |}.

Definition emit (e : Event) : M unit :=
  fun w => (Returned tt, {| stdin := stdin w; trace := trace w ++ [e] |}).

Definition print (text : str) : M unit := emit (Printed text).

(** [input(prompt)]: at the end of standard input it raises [EOFError]. *)
Definition input (prompt : str) : M str :=
  fun w =>
    let tr := trace w ++ [Prompted prompt] in
    match stdin w with
    | [] => (Raised EOFError, {| stdin := []; trace := tr |})
    | line :: rest => (Returned line, {| stdin := rest; trace := tr |})
    end.

(** [for x in xs: body(x)] *)
Fixpoint for_each {X} (xs : list X) (body : X -> M unit) : M unit :=
  match xs with
  | [] => ret tt
  | x :: xs' => body x ;; for_each xs' body
  end.

(** The exit status of the process. *)
Definition exit_status {A} (o : Outcome A) : Z :=
  match o with
  | Returned _ => 0
  | Raised (SystemExit code) => code
  | Raised _ => 1
  end.

Section WithEnv.
Variable env : Env.

(** [subprocess.run(c, check=True, ...).stdout] *)
Definition subprocess_run (c : Cmd) : M str :=
  fun w =>
    let (returncode, out) := respond env (trace w) c in
    let w' := {| stdin := stdin w; trace := trace w ++ [Ran c returncode] |} in
    if (returncode =? 0)%Z then (Returned out, w')
    else (Raised (CalledProcessError c returncode), w').

(** [int(s)] *)
Definition int (s : str) : M Z :=
  match int_of_str env s with
  | Some z => ret z
  | None => raise ValueError
  end.

End WithEnv.

End Proc.
Import Proc.

(* ===================================================================== *)
(** * The script *)
(* ===================================================================== *)

Module Script.
Local Open Scope proc_scope.

Section WithEnv.
Variable env : Env.

(** ** Module level: paths *)

Definition directories_to_pull : list str :=
  [lit "/sdcard/Pictures"; lit "/sdcard/Movies"].

Definition incident_dir : str := lit "incident_reports".

Definition report_dir : str :=
  os_path_join incident_dir (lit "report_" ++ timestamp env).

Definition screen_recordings_dir : str :=
  os_path_join report_dir (lit "Screen Recordings").
Definition qgc_logs_dir : str := os_path_join report_dir (lit "QGC Logs").
Definition device_info_dir : str := os_path_join report_dir (lit "Device Info").
Definition navsuite_log_dir : str :=
  os_path_join report_dir (lit "Navsuite Logs").

(** The statements that run when the module is loaded. *)
Definition module_level : M unit :=
  emit (MadeDirs incident_dir) ;;
  emit (MadeDirs report_dir) ;;
  emit (MadeDirs screen_recordings_dir) ;;
  emit (MadeDirs qgc_logs_dir) ;;
  emit (MadeDirs device_info_dir) ;;
  emit (MadeDirs navsuite_log_dir).

(** ** [get_connected_devices] *)

(** [[line.split()[0] for line in lines if "device" in line]]; [None] is
    the [IndexError] of [[0]] on a line without a token. *)
Fixpoint device_ids (lines : list str) : option (list str) :=
  match lines with
  | [] => Some []
  | line :: lines' =>
      if py_in (lit "device") line then
        match split line with
        | [] => None
        | token :: _ => option_map (cons token) (device_ids lines')
        end
      else device_ids lines'
  end.

(** The listing as text, to the identifiers: [lines[1:]] drops the
    header. *)
Definition parse_devices (stdout : str) : option (list str) :=
  let lines := splitlines (strip stdout) in
  device_ids (tl lines).

Definition adb_devices : Cmd := Argv [lit "adb"; lit "devices"].

Definition get_connected_devices : M (list str) :=
  try_except
    (stdout <- subprocess_run env adb_devices ;;
     match parse_devices stdout with
     | Some devices => ret devices
     | None => raise IndexError
     end)
    (fun e =>
       match e with
       | CalledProcessError c rc =>
           Some (print (lit "Error listing ADB devices: " ++ error_text env c rc) ;;
                 ret [])
       | _ => None
       end).

(** ** [select_device] *)

(** [for i, device in enumerate(devices, start=i): print(f"{i}: {device}")] *)
Fixpoint print_numbered (i : Z) (devices : list str) : M unit :=
  match devices with
  | [] => ret tt
  | device :: devices' =>
      print (str_of_int i ++ lit ": " ++ device) ;;
      print_numbered (i + 1) devices'
  end.

(** One turn of the [while True] loop: [Some d] returns [d], [None] goes
    round again. *)
Definition ask (devices : list str) : M (option str) :=
  try_except
    (line <- input (lit "Select a device by number: ") ;;
     choice <- int env line ;;
     if ((1 <=? choice) && (choice <=? Z.of_nat (length devices)))%Z
     then ret (Some (nth (Z.to_nat (choice - 1)) devices []))
     else print (lit "Invalid choice. Please try again.") ;; ret None)
    (fun e =>
       match e with
       | ValueError =>
           Some (print (lit "Invalid input. Please enter a number.") ;;
                 ret None)
       | _ => None
       end).

(** The loop.  Every turn that goes round again has read a line, so with
    [n] the number of lines left on standard input the last branch is
    never reached: the turn after the last line raises [EOFError] in
    [input]. *)
Fixpoint ask_until (devices : list str) (n : nat) : M str :=
  r <- ask devices ;;
  match r with
  | Some device => ret device
  | None =>
      match n with
      | O => raise EOFError
      | S n' => ask_until devices n'
      end
  end.

Definition select_device (devices : list str) : M str :=
  match devices with
  | [] =>
      print (lit "No devices connected. Please connect a device and try again.") ;;
      raise (SystemExit 1)
  | [device] =>
      print (lit "Using the only connected device: " ++ device) ;;
      ret device
  | _ =>
      print (lit "Multiple devices detected:") ;;
      print_numbered 1 devices ;;
      fun w => ask_until devices (length (stdin w)) w
  end.

(** ** [run_adb_command] *)

(** The text handed back for a captured standard output. *)
Definition clean_output (stdout : str) : str := re_sub_ansi (strip stdout).

(** The command line run for [command] on [device]. *)
Definition adb_command_line (command device : str) : str :=
  if truthy device
  then lit "adb -s " ++ device ++ lit " " ++ command
  else command.

(** [None] is Python's [None]. *)
Definition run_adb_command (command device : str) : M (option str) :=
  let command := adb_command_line command device in
  try_except
    (print (lit "Executing command: " ++ command) ;;
     stdout <- subprocess_run env (Shell command) ;;
     ret (Some (clean_output stdout)))
    (fun e =>
       match e with
       | CalledProcessError c rc =>
           Some (print (lit "Error running command '" ++ command ++ lit "': "
                        ++ error_text env c rc) ;;
                 ret None)
       | _ => None
       end).

(** [if x:] for what [run_adb_command] returns. *)
Definition nonempty (x : option str) : bool :=
  match x with
  | Some s => truthy s
  | None => false
  end.

(** ** [pull_directory] *)

Definition adb_pull (device src dst : str) : Cmd :=
  Argv [lit "adb"; lit "-s"; device; lit "pull"; src; dst].

Definition pull_item (directory local_dir device item : str) : M unit :=
  if py_in (lit ".thumbnails") item then ret tt
  else
    let item_path := os_path_join directory (rstrip_char SLASH item) in
    try_except
      (subprocess_run env (adb_pull device item_path local_dir) ;;
       print (lit "Pulled " ++ item_path ++ lit " to " ++ local_dir))
      (fun e =>
         match e with
         | CalledProcessError _ _ =>
             Some (print (lit "Failed to pull " ++ item_path))
         | _ => None
         end).

Definition pull_directory (directory dest_dir device : str) : M unit :=
  let local_dir := os_path_join dest_dir (os_path_basename directory) in
  emit (MadeDirs local_dir) ;;
  let command := lit "shell " ++ [34%N] ++ lit "ls -p " ++ directory ++ [34%N] in
  items <- run_adb_command command device ;;
  match items with
  | Some ((_ :: _) as items) =>
      for_each (splitlines items) (pull_item directory local_dir device)
  | _ => print (lit "No items found in " ++ directory)
  end.

(** ** [pull_recent_files] *)

(** The local destination of one recent file: the [if]/[elif] chain. *)
Definition local_path (directory recent_file dest_dir : str) : str :=
  if py_in (lit "Movies") directory && startswith (lit "screen-") recent_file
  then os_path_join screen_recordings_dir recent_file
  else if py_in (lit "ConsoleLogs") directory
  then os_path_join qgc_logs_dir recent_file
  else if py_in (lit "Navsuite") directory
  then os_path_join navsuite_log_dir recent_file
  else os_path_join dest_dir recent_file.

Definition pull_recent_file (directory dest_dir device recent_file : str)
  : M unit :=
  let file_path := directory ++ lit "/" ++ recent_file in
  let local_path := local_path directory recent_file dest_dir in
  try_except
    (subprocess_run env (adb_pull device file_path local_path) ;;
     print (lit "Pulled " ++ file_path ++ lit " to " ++ local_path))
    (fun e =>
       match e with
       | CalledProcessError _ _ =>
           Some (print (lit "Failed to pull file " ++ file_path))
       | _ => None
       end).

Definition pull_recent_files
  (directory ls_command dest_dir : str) (num_files : Z) (device : str)
  : M unit :=
  print (lit "Getting " ++ str_of_int num_files
         ++ lit " most recent file(s) from " ++ directory
         ++ lit " on device " ++ device) ;;
  let command :=
    lit "shell " ++ [34%N] ++ ls_command ++ lit " | head -n "
    ++ str_of_int num_files ++ [34%N] in
  recent_files <- run_adb_command command device ;;
  match recent_files with
  | Some ((_ :: _) as recent_files) =>
      for_each (splitlines recent_files)
               (pull_recent_file directory dest_dir device)
  | _ => print (lit "No files found in " ++ directory)
  end.

(** ** [collect_logs] *)

(** The table, in the order the dictionary is written and iterated. *)
Definition log_types : list (str * str) :=
  [ (lit "logcat", lit "logcat -d");
    (lit "device_info", lit "shell getprop");
    (lit "meminfo", lit "shell dumpsys meminfo ai.pdw.gcs");
    (lit "cpu_usage", lit "shell top -n 1");
    (lit "network_stats", lit "shell dumpsys netstats");
    (lit "network_config", lit "shell ifconfig");
    (lit "battery_info", lit "shell dumpsys battery");
    (lit "storage_info", lit "shell df -h");
    (lit "event_logs", lit "shell dumpsys activity") ].

Definition log_path (log_name : str) : str :=
  os_path_join device_info_dir
               (log_name ++ lit "_" ++ timestamp env ++ lit ".txt").

Definition collect_log (device : str) (entry : str * str) : M unit :=
  let (log_name, command) := entry in
  print (lit "Collecting " ++ log_name ++ lit "...") ;;
  output <- run_adb_command command device ;;
  match output with
  | Some ((_ :: _) as output) =>
      emit (Wrote (log_path log_name) output) ;;
      print (log_name ++ lit " saved to " ++ log_path log_name)
  | _ => ret tt
  end.

Definition collect_logs (device : str) : M unit :=
  for_each log_types (collect_log device).

(** ** [get_application_directories] *)

Definition dirs_to_check : list str :=
  [ lit "/sdcard/Android/data/org.mavlink.qgroundcontrol/files/PDW_GCS";
    lit "/sdcard/Android/data/ai.pdw.gcs/files/PDW_GCS" ].

Definition exists_command (dir_path : str) : str :=
  lit "shell 'test -d " ++ dir_path ++ lit " && echo exists'".

(** The loop over [dirs_to_check], with [existing_dirs] as it grows. *)
Fixpoint check_dirs (device : str) (dirs existing_dirs : list str)
  : M (list str) :=
  match dirs with
  | [] => ret existing_dirs
  | dir_path :: dirs' =>
      result <- run_adb_command (exists_command dir_path) device ;;
      match result with
      | Some r =>
          if str_eqb r (lit "exists")
          then check_dirs device dirs' (existing_dirs ++ [dir_path])
          else check_dirs device dirs' existing_dirs
      | None => check_dirs device dirs' existing_dirs
      end
  end.

Definition get_application_directories (device : str) : M (list str) :=
  check_dirs device dirs_to_check [].

(** ** [create_zip] *)

Definition metadata_name : str := lit "metadata.txt".

(** The archive is complete when the [with] block is left, also when it
    is left by the exception of [open]. *)
Definition create_zip (source_dir output_filename metadata : str) : M unit :=
  fun w =>
    let d := disk env (trace w) source_dir in
    let walked := walk d in
    let metadata_path := os_path_join source_dir metadata_name in
    match write_file metadata_name metadata d with
    | None =>
        (emit (Archived output_filename walked) ;;
         raise IsADirectoryError) w
    | Some _ =>
        (emit (Wrote metadata_path metadata) ;;
         emit (Archived output_filename (walked ++ [(metadata_name, metadata)])) ;;
         print (lit "Incident report created: " ++ output_filename)) w
    end.

(** ** Main execution *)

Definition static_recent_file_commands : list (str * str) :=
  [ (lit "/sdcard/Movies",
     lit "ls -t /sdcard/Movies | grep " ++ [34%N] ++ lit "^screen-" ++ [34%N]);
    (lit "/sdcard/Documents/Navsuite",
     lit "ls -t /sdcard/Documents/Navsuite") ].

Definition console_logs_command (app_dir : str) : str * str :=
  (app_dir ++ lit "/Logs/ConsoleLogs",
   lit "ls -t " ++ app_dir ++ lit "/Logs/ConsoleLogs").

Definition recent_file_commands (app_directories : list str)
  : list (str * str) :=
  static_recent_file_commands ++ map console_logs_command app_directories.

Definition metadata_text (user_summary timestamp selected_device : str) : str :=
  lit "Incident Summary: " ++ user_summary ++ [LF]
  ++ lit "Timestamp: " ++ timestamp ++ [LF]
  ++ lit "Device: " ++ selected_device.

(** The main block, for a command line that [parse_args] accepts:
    [num_recent_files] and [simplified] are the two values it hands over.
    The script calls [parse_args] between the line that names the selected
    device and the probe, and it adds nothing to the trace then. *)
Definition main (num_recent_files : Z) (simplified : bool) : M unit :=
  devices <- get_connected_devices ;;
  selected_device <- select_device devices ;;
  print (lit "Selected device: " ++ selected_device) ;;
  app_directories <- get_application_directories selected_device ;;
  (match app_directories with
   | [] => print (lit "No valid application directories found.")
   | _ :: _ => ret tt
   end) ;;
  print (lit "Please provide a summary of the incident:") ;;
  user_summary <- input (lit "Incident Summary: ") ;;
  (if negb simplified
   then for_each directories_to_pull
          (fun directory => pull_directory directory report_dir selected_device)
   else ret tt) ;;
  for_each (recent_file_commands app_directories)
    (fun c => pull_recent_files (fst c) (snd c) report_dir
                                num_recent_files selected_device) ;;
  collect_logs selected_device ;;
  let metadata := metadata_text user_summary (timestamp env) selected_device in
  let zip_file_name :=
    os_path_join incident_dir
                 (lit "QA_bug_report_" ++ timestamp env ++ lit ".zip") in
  create_zip report_dir zip_file_name metadata.

(** The whole run: the module is loaded, then the main block. *)
Definition script (num_recent_files : Z) (simplified : bool) : M unit :=
  module_level ;; main num_recent_files simplified.

End WithEnv.

End Script.
Import Script.

(* ===================================================================== *)
(** * Facts about the text operations *)
(* ===================================================================== *)

Section TextFacts.

(** A string with no character but whitespace, one with a visible
    character, and one that lies on a single line. *)
Definition blank (s : str) : Prop := forallb isspace s = true.
Definition visible (s : str) : Prop :=
  existsb (fun c => negb (isspace c)) s = true.
Definition one_line (s : str) : Prop :=
  forallb (fun c => negb (is_linebreak c)) s = true.

Lemma lstrip_blank t : blank t -> lstrip t = [].
Proof.
  unfold blank. induction t as [|c t IH]; simpl; [reflexivity|].
  intros H. apply andb_true_iff in H as [Hc Ht]. rewrite Hc. auto.
Qed.

Lemma lstrip_blank_app t s : blank t -> lstrip (t ++ s) = lstrip s.
Proof.
  unfold blank. induction t as [|c t IH]; simpl; [reflexivity|].
  intros H. apply andb_true_iff in H as [Hc Ht]. rewrite Hc. auto.
Qed.

Lemma lstrip_visible_app h r : visible h -> lstrip (h ++ r) = lstrip h ++ r.
Proof.
  unfold visible. induction h as [|c h IH]; simpl; [discriminate|].
  destruct (isspace c); simpl; auto.
Qed.

Lemma lstrip_split s : exists t, blank t /\ s = t ++ lstrip s.
Proof.
  induction s as [|c s [t [Ht E]]]; simpl.
  - exists []. split; reflexivity.
  - destruct (isspace c) eqn:Hc.
    + exists (c :: t). split.
      * unfold blank in *. simpl. rewrite Hc, Ht. reflexivity.
      * simpl. congruence.
    + exists []. split; reflexivity.
Qed.

Lemma lstrip_visible h : visible h -> visible (lstrip h).
Proof.
  unfold visible. induction h as [|c h IH]; simpl; [discriminate|].
  destruct (isspace c) eqn:Hc; simpl; auto. rewrite Hc. reflexivity.
Qed.

Lemma lstrip_head s :
  match lstrip s with c :: _ => isspace c = false | [] => True end.
Proof.
  induction s as [|c s IH]; simpl; [exact I|].
  destruct (isspace c) eqn:Hc; [exact IH | exact Hc].
Qed.

Lemma blank_rev t : blank t -> blank (rev t).
Proof.
  unfold blank. rewrite !forallb_forall. intros H c Hc.
  apply H. apply in_rev. exact Hc.
Qed.

Lemma visible_rev s : visible s -> visible (rev s).
Proof.
  unfold visible. rewrite !existsb_exists. intros [c [Hc E]].
  exists c. split; [apply in_rev; rewrite rev_involutive|]; assumption.
Qed.

Lemma visible_app_r a b : visible b -> visible (a ++ b).
Proof.
  unfold visible. rewrite existsb_app. intros ->. apply orb_true_r.
Qed.

Lemma visible_app_l a b : visible a -> visible (a ++ b).
Proof.
  unfold visible. rewrite existsb_app. intros ->. reflexivity.
Qed.

Lemma rstrip_app_blank a t : blank t -> rstrip (a ++ t) = rstrip a.
Proof.
  intros H. unfold rstrip. rewrite rev_app_distr.
  rewrite lstrip_blank_app; [reflexivity | apply blank_rev, H].
Qed.

Lemma rstrip_app_visible a b : visible b -> rstrip (a ++ b) = a ++ rstrip b.
Proof.
  intros H. unfold rstrip. rewrite rev_app_distr.
  rewrite lstrip_visible_app by (apply visible_rev, H).
  rewrite rev_app_distr, rev_involutive. reflexivity.
Qed.

Lemma rstrip_split s : exists t, blank t /\ s = rstrip s ++ t.
Proof.
  destruct (lstrip_split (rev s)) as [t [Ht E]].
  exists (rev t). split; [apply blank_rev, Ht|].
  unfold rstrip. rewrite <- rev_app_distr, <- E, rev_involutive. reflexivity.
Qed.

Lemma rstrip_visible s : visible s -> visible (rstrip s).
Proof.
  intros H. unfold rstrip. apply visible_rev, lstrip_visible, visible_rev, H.
Qed.

Lemma rstrip_last s :
  match rev (rstrip s) with c :: _ => isspace c = false | [] => True end.
Proof. unfold rstrip. rewrite rev_involutive. apply lstrip_head. Qed.

Lemma one_line_app a b : one_line (a ++ b) <-> one_line a /\ one_line b.
Proof. unfold one_line. rewrite forallb_app. apply andb_true_iff. Qed.

Lemma one_line_lstrip s : one_line s -> one_line (lstrip s).
Proof.
  destruct (lstrip_split s) as [t [_ E]]. intros H. rewrite E in H.
  apply one_line_app in H. apply H.
Qed.

Lemma one_line_rstrip s : one_line s -> one_line (rstrip s).
Proof.
  destruct (rstrip_split s) as [t [_ E]]. intros H. rewrite E in H.
  apply one_line_app in H. apply H.
Qed.

(** [splitlines] on a line followed by a line feed, and on a last line. *)
Lemma splitlines_from_line cur l rest :
  one_line l ->
  splitlines_from cur (l ++ LF :: rest)
  = (rev cur ++ l) :: splitlines_from [] rest.
Proof.
  unfold one_line. revert cur.
  induction l as [|c l IH]; intros cur H; simpl in *.
  - rewrite app_nil_r. destruct rest; reflexivity.
  - apply andb_true_iff in H as [Hc Hl].
    destruct (is_linebreak c); [discriminate|].
    rewrite IH by exact Hl. simpl. rewrite <- app_assoc. reflexivity.
Qed.

Lemma splitlines_from_last cur l :
  one_line l ->
  splitlines_from cur l
  = match rev cur ++ l with [] => [] | _ :: _ => [rev cur ++ l] end.
Proof.
  unfold one_line. revert cur.
  induction l as [|c l IH]; intros cur H; simpl in *.
  - rewrite app_nil_r. destruct cur as [|x cur]; [reflexivity|].
    simpl. destruct (rev cur ++ [x]) eqn:E; [|reflexivity].
    destruct (rev cur); discriminate.
  - apply andb_true_iff in H as [Hc Hl].
    destruct (is_linebreak c); [discriminate|].
    rewrite IH by exact Hl. simpl. rewrite <- app_assoc. reflexivity.
Qed.

(** [split] does not see trailing whitespace. *)
Lemma split_from_blank cur t :
  blank t ->
  split_from cur t = match cur with [] => [] | _ :: _ => [rev cur] end.
Proof.
  unfold blank. revert cur. induction t as [|c t IH]; intros cur H; simpl.
  - reflexivity.
  - simpl in H. apply andb_true_iff in H as [Hc Ht]. rewrite Hc.
    destruct cur; rewrite IH by exact Ht; reflexivity.
Qed.

Lemma split_from_app_blank cur l t :
  blank t -> split_from cur (l ++ t) = split_from cur l.
Proof.
  intros Ht. revert cur. induction l as [|c l IH]; intros cur; simpl.
  - apply split_from_blank, Ht.
  - destruct (isspace c); [destruct cur|]; rewrite IH; reflexivity.
Qed.

Lemma split_rstrip l : split (rstrip l) = split l.
Proof.
  destruct (rstrip_split l) as [t [Ht E]]. unfold split.
  rewrite E at 2. symmetry. apply split_from_app_blank, Ht.
Qed.

End TextFacts.

Section ContainmentFacts.

Lemma startswith_iff p s : startswith p s = true <-> exists b, s = p ++ b.
Proof.
  revert s. induction p as [|a p IH]; intros s; simpl.
  - split; [intros _; exists s; reflexivity | reflexivity].
  - destruct s as [|b s].
    + split; [discriminate | intros [x Hx]; discriminate].
    + rewrite andb_true_iff, N.eqb_eq, IH. split.
      * intros [-> [x ->]]. exists x. reflexivity.
      * intros [x Hx]. inversion Hx. split; [reflexivity | exists x; reflexivity].
Qed.

Lemma py_in_iff p s : py_in p s = true <-> exists a b, s = a ++ p ++ b.
Proof.
  induction s as [|c s IH].
  - simpl. rewrite orb_false_r, startswith_iff. split.
    + intros [b Hb]. exists [], b. exact Hb.
    + intros [a [b Hab]]. destruct a; [exists b; exact Hab | discriminate].
  - cbn [py_in]. rewrite orb_true_iff, startswith_iff, IH. split.
    + intros [[b Hb] | [a [b Hab]]].
      * exists [], b. exact Hb.
      * exists (c :: a), b. simpl. congruence.
    + intros [a [b Hab]]. destruct a as [|x a].
      * left. exists b. exact Hab.
      * right. exists a, b. simpl in Hab. congruence.
Qed.

Lemma blank_or_visible s : blank s \/ visible s.
Proof.
  unfold blank, visible. induction s as [|c s [IH|IH]]; simpl.
  - left. reflexivity.
  - destruct (isspace c); simpl; [left | right]; auto.
  - right. rewrite IH. apply orb_true_r.
Qed.

(** Stripping on the right keeps an occurrence of a word that ends in a
    visible character. *)
Lemma py_in_rstrip p e l :
  isspace e = false ->
  py_in (p ++ [e]) l = true -> py_in (p ++ [e]) (rstrip l) = true.
Proof.
  intros He H. apply py_in_iff in H as [a [b ->]]. apply py_in_iff.
  assert (Hv : visible [e]) by (unfold visible; simpl; rewrite He; reflexivity).
  assert (Hr : rstrip [e] = [e]) by (unfold rstrip; simpl; rewrite He; reflexivity).
  destruct (blank_or_visible b) as [Hb | Hb].
  - exists a, []. rewrite !app_assoc, rstrip_app_blank by exact Hb.
    rewrite rstrip_app_visible by exact Hv. rewrite Hr, app_nil_r.
    reflexivity.
  - exists a, (rstrip b). rewrite !app_assoc, rstrip_app_visible by exact Hb.
    reflexivity.
Qed.

Lemma py_in_visible p e l :
  isspace e = false -> py_in (p ++ [e]) l = true -> visible l.
Proof.
  intros He H. apply py_in_iff in H as [a [b ->]].
  apply visible_app_r, visible_app_l, visible_app_r.
  unfold visible. simpl. rewrite He. reflexivity.
Qed.

End ContainmentFacts.

(* ===================================================================== *)
(** * Device discovery: parsing the listing *)
(* ===================================================================== *)

Section Discovery.

(** The characters of a string up to its first whitespace. *)
Fixpoint word (s : str) : str :=
  match s with
  | [] => []
  | c :: s' => if isspace c then [] else c :: word s'
  end.

(** The first whitespace-delimited token of a line. *)
Definition first_token (l : str) : str := word (lstrip l).

(** A listing: the header line, then the device lines, each after a line
    feed, then what [adb] prints at the end (blank lines). *)
Definition listing (header : str) (lines : list str) (trailer : str) : str :=
  header ++ concat (map (cons LF) lines) ++ trailer.

(** A device line: one line of text that contains the marker. *)
Definition device_line (l : str) : Prop :=
  one_line l /\ py_in (lit "device") l = true.

Lemma split_from_word cur s :
  cur <> [] -> exists rest, split_from cur s = (rev cur ++ word s) :: rest.
Proof.
  revert cur. induction s as [|c s IH]; intros cur Hcur; simpl.
  - destruct cur; [contradiction|]. rewrite app_nil_r. eexists. reflexivity.
  - destruct (isspace c).
    + destruct cur; [contradiction|]. rewrite app_nil_r. eexists. reflexivity.
    + destruct (IH (c :: cur)) as [rest E]; [discriminate|].
      exists rest. rewrite E. simpl. rewrite <- app_assoc. reflexivity.
Qed.

Lemma split_first_token l :
  visible l -> exists rest, split l = first_token l :: rest.
Proof.
  unfold split, first_token, visible.
  induction l as [|c l IH]; simpl; [discriminate|].
  destruct (isspace c) eqn:Hc; simpl.
  - exact IH.
  - intros _. rewrite Hc.
    destruct (@split_from_word [c] l) as [rest E]; [discriminate|].
    exists rest. exact E.
Qed.

Lemma marker_visible l : py_in (lit "device") l = true -> visible l.
Proof. apply (@py_in_visible (lit "devic") 101%N). reflexivity. Qed.

Lemma marker_rstrip l :
  py_in (lit "device") l = true -> py_in (lit "device") (rstrip l) = true.
Proof. exact (@py_in_rstrip (lit "devic") 101%N l eq_refl). Qed.

Lemma device_ids_app ls ms :
  device_ids (ls ++ ms)
  = match device_ids ls, device_ids ms with
    | Some a, Some b => Some (a ++ b)
    | _, _ => None
    end.
Proof.
  induction ls as [|l ls IH]; simpl.
  - destruct (device_ids ms); reflexivity.
  - destruct (py_in (lit "device") l).
    + destruct (split l); [reflexivity|]. rewrite IH.
      destruct (device_ids ls), (device_ids ms); reflexivity.
    + exact IH.
Qed.

Lemma device_ids_marked ls :
  Forall device_line ls -> device_ids ls = Some (map first_token ls).
Proof.
  induction 1 as [|l ls [_ Hl] _ IH]; simpl; [reflexivity|].
  rewrite Hl. destruct (split_first_token (marker_visible _ Hl)) as [r ->].
  rewrite IH. reflexivity.
Qed.

(** The comprehension never raises: a line with the marker has a token. *)
Lemma device_ids_total ls : exists ds, device_ids ls = Some ds.
Proof.
  induction ls as [|l ls [ds IH]]; simpl; [eexists; reflexivity|].
  destruct (py_in (lit "device") l) eqn:Hl; [|exists ds; exact IH].
  destruct (split_first_token (marker_visible _ Hl)) as [r ->].
  rewrite IH. eexists. reflexivity.
Qed.

Lemma device_ids_last_stripped l :
  device_line l -> device_ids [rstrip l] = Some [first_token l].
Proof.
  intros [_ Hl]. simpl.
  rewrite (marker_rstrip _ Hl).
  rewrite split_rstrip.
  destruct (split_first_token (marker_visible _ Hl)) as [r ->]. reflexivity.
Qed.

Lemma splitlines_from_lines cur l0 ls last :
  one_line l0 -> Forall one_line ls -> one_line last -> last <> [] ->
  splitlines_from cur (l0 ++ concat (map (cons LF) ls) ++ LF :: last)
  = (rev cur ++ l0) :: ls ++ [last].
Proof.
  intros H0 Hls Hlast Hne. revert cur l0 H0.
  induction Hls as [|l1 ls H1 _ IH]; intros cur l0 H0; simpl.
  - rewrite splitlines_from_line by exact H0.
    rewrite splitlines_from_last by exact Hlast. simpl.
    destruct last; [contradiction | reflexivity].
  - rewrite splitlines_from_line by exact H0.
    rewrite <- app_assoc. rewrite (IH [] l1 H1). reflexivity.
Qed.

Lemma rstrip_middle (a b : str) c l t :
  visible l -> blank t ->
  rstrip (a ++ (b ++ c :: l) ++ t) = a ++ b ++ c :: rstrip l.
Proof.
  intros Hl Ht. rewrite app_assoc, rstrip_app_blank by exact Ht.
  assert (E : a ++ b ++ c :: l = (a ++ b ++ [c]) ++ l)
    by (rewrite <- !app_assoc; reflexivity).
  rewrite E, rstrip_app_visible by exact Hl.
  rewrite <- !app_assoc. reflexivity.
Qed.

(** What [parse_devices] makes of a listing. *)
Lemma parse_devices_listing header lines trailer :
  one_line header -> visible header ->
  Forall device_line lines ->
  blank trailer ->
  parse_devices (listing header lines trailer)
  = Some (map first_token lines).
Proof.
  intros H1 Hv Hls Ht. unfold parse_devices, listing, strip.
  rewrite lstrip_visible_app by exact Hv.
  revert Hls. induction lines as [|last ls _] using rev_ind; intros Hls.
  - simpl. rewrite rstrip_app_blank by exact Ht.
    unfold splitlines. rewrite splitlines_from_last
      by (apply one_line_rstrip, one_line_lstrip, H1). simpl.
    destruct (rstrip (lstrip header)); reflexivity.
  - apply Forall_app in Hls as [Hls Hlast].
    inversion Hlast as [|? ? [Hl1 Hlm] _]; subst.
    rewrite map_app, concat_app. simpl. rewrite app_nil_r.
    assert (Hvl : visible last) by (apply marker_visible, Hlm).
    rewrite rstrip_middle by assumption. unfold splitlines.
    rewrite splitlines_from_lines.
    + simpl. rewrite device_ids_app.
      rewrite device_ids_marked by exact Hls.
      rewrite device_ids_last_stripped by (split; assumption).
      rewrite map_app. reflexivity.
    + apply one_line_lstrip, H1.
    + eapply Forall_impl; [|exact Hls]. intros l Hl. apply Hl.
    + apply one_line_rstrip, Hl1.
    + intros E. apply rstrip_visible in Hvl. rewrite E in Hvl. discriminate.
Qed.

End Discovery.

(* ===================================================================== *)
(** * A scripted world, to run the script on *)
(* ===================================================================== *)

Section Scripted.

(** [int] for plain decimal numerals, enough to run examples. *)
Fixpoint decimal_from (acc : Z) (s : str) : option Z :=
  match s with
  | [] => Some acc
  | c :: s' =>
      if ((48 <=? c) && (c <=? 57))%N
      then decimal_from (10 * acc + Z.of_N (c - 48)) s'
      else None
  end.

Definition decimal (s : str) : option Z :=
  match s with
  | [] => None
  | _ :: _ => decimal_from 0 s
  end.

(** A world in which every command gets the answer [answer] gives it and
    the report directory holds [d]. *)
Definition scripted (answer : Cmd -> Z * str) (d : dir) : Env :=
  {| respond := fun _ c => answer c;
     disk := fun _ _ => d;
     int_of_str := decimal;
     error_text := fun _ _ => lit "non-zero exit status";
     timestamp := lit "01-02-2024_03:04:05" |}.

Definition start (lines : list str) : World :=
  {| stdin := lines; trace := [] |}.

Definition TAB : char := 9%N.

End Scripted.

(* ===================================================================== *)
(** * Device discovery *)
(* ===================================================================== *)

Section DiscoveryClaims.
Variable env : Env.

(** C3.  When [adb devices] prints one header line followed by K device
    lines, each containing the marker [device], [get_connected_devices]
    returns exactly K identifiers: the first whitespace-delimited token of
    each device line, in the order of the lines.  The header line is a
    line of text (it has a visible character), and what follows the last
    device line is blank. *)
Theorem get_connected_devices_header_and_lines
  (w : World) (header : str) (lines : list str) (trailer : str) :
  one_line header -> visible header ->
  Forall device_line lines ->
  blank trailer ->
  respond env (trace w) adb_devices = (0%Z, listing header lines trailer) ->
  exists devices,
    fst (get_connected_devices env w) = Returned devices
    /\ length devices = length lines
    /\ devices = map first_token lines.
Proof.
  intros H1 Hv Hls Ht Hrun. exists (map first_token lines).
  split; [|split; [apply length_map | reflexivity]].
  unfold get_connected_devices, try_except, bind, subprocess_run.
  rewrite Hrun. simpl.
  rewrite parse_devices_listing by assumption. reflexivity.
Qed.

End DiscoveryClaims.

(** The header has to be a line one can see: [strip] removes a blank first
    line with the rest of the leading whitespace, and [lines[1:]] then
    drops the first device line in its place. *)
Example blank_header_hides_first_device :
  parse_devices (listing [] [lit "emulator-5554" ++ TAB :: lit "device"] [LF])
  = Some [].
Proof. vm_compute. reflexivity. Qed.

Definition two_devices : str :=
  listing (lit "List of devices attached")
          [lit "emulator-5554" ++ TAB :: lit "device";
           lit "R58M123ABC" ++ TAB :: lit "device"]
          [LF; LF].

Lemma get_connected_devices_header_and_lines_witness :
  exists devices,
    fst (get_connected_devices (scripted (fun _ => (0%Z, two_devices)) [])
                               (start []))
    = Returned devices
    /\ length devices = 2
    /\ devices = [lit "emulator-5554"; lit "R58M123ABC"].
Proof.
  apply (@get_connected_devices_header_and_lines
           (scripted (fun _ => (0%Z, two_devices)) []) (start [])
           (lit "List of devices attached")
           [lit "emulator-5554" ++ TAB :: lit "device";
            lit "R58M123ABC" ++ TAB :: lit "device"]
           [LF; LF]).
  - reflexivity.
  - reflexivity.
  - repeat constructor.
  - reflexivity.
  - reflexivity.
Defined.

(* ===================================================================== *)
(** * Removing escape codes *)
(* ===================================================================== *)

Section RegexFacts.

(** The strings the pattern matches in full: ESC, [[], parameters, [m]. *)
Definition ansi_sequence (e : str) : Prop :=
  exists params,
    forallb is_param params = true /\ e = ESC :: 91%N :: params ++ [109%N].

(** The form [ESC[<digits>;<digits>m]. *)
Definition is_digit (c : char) : bool := ((48 <=? c) && (c <=? 57))%N.

Definition two_number_sequence (e : str) : Prop :=
  exists d1 d2,
    d1 <> [] /\ d2 <> [] /\
    forallb is_digit d1 = true /\ forallb is_digit d2 = true /\
    e = ESC :: 91%N :: d1 ++ 59%N :: d2 ++ [109%N].

Definition no_esc (t : str) : Prop := ~ In ESC t.

(** Text and escape sequences in turn: [t1 e1 t2 e2 ... tn en last]. *)
Definition interleaved (pieces : list (str * str)) (last : str) : str :=
  concat (map (fun p => fst p ++ snd p) pieces) ++ last.

Definition begins_with_sequence (s : str) : Prop :=
  exists e b, ansi_sequence e /\ s = e ++ b.

Definition ends_with_sequence (s : str) : Prop :=
  exists a e, ansi_sequence e /\ s = a ++ e.

Definition no_leading_space (s : str) : Prop :=
  match s with c :: _ => isspace c = false | [] => True end.

Definition no_trailing_space (s : str) : Prop := no_leading_space (rev s).

Lemma re_sub_ansi_cons c s :
  re_sub_ansi (c :: s)
  = match match_ansi (c :: s) with
    | Some rest => re_sub_ansi rest
    | None => c :: re_sub_ansi s
    end.
Proof.
  assert (H : forall o (e : match_ansi (c :: s) = o),
             re_sub_ansi_unfold_clause_2 c s (exist _ o e)
             = match o with
               | Some rest => re_sub_ansi rest
               | None => c :: re_sub_ansi s
               end)
    by (intros [rest|] e; reflexivity).
  simp re_sub_ansi. apply H.
Qed.

Lemma two_number_is_ansi_sequence e : two_number_sequence e -> ansi_sequence e.
Proof.
  intros [d1 [d2 [_ [_ [H1 [H2 ->]]]]]]. exists (d1 ++ 59%N :: d2). split.
  - rewrite forallb_app. simpl. apply andb_true_iff. split.
    + rewrite forallb_forall in *. intros c Hc. unfold is_param.
      apply H1 in Hc. unfold is_digit in Hc. rewrite Hc. reflexivity.
    + rewrite forallb_forall in *. intros c Hc. unfold is_param.
      apply H2 in Hc. unfold is_digit in Hc. rewrite Hc. reflexivity.
  - rewrite <- app_assoc. reflexivity.
Qed.

Lemma match_params_complete params rest :
  forallb is_param params = true ->
  match_params (params ++ 109%N :: rest) = Some rest.
Proof.
  induction params as [|c params IH]; simpl; [reflexivity|].
  intros H. apply andb_true_iff in H as [Hc Hp]. rewrite Hc. auto.
Qed.

Lemma match_params_sound s rest :
  match_params s = Some rest ->
  exists params, forallb is_param params = true /\ s = params ++ 109%N :: rest.
Proof.
  revert rest. induction s as [|c s IH]; simpl; intros rest; [discriminate|].
  destruct (is_param c) eqn:Hc.
  - intros H. destruct (IH _ H) as [params [Hp ->]].
    exists (c :: params). simpl. rewrite Hc, Hp. split; reflexivity.
  - destruct (c =? 109)%N eqn:Hm; [|discriminate].
    intros H. inversion H; subst. apply N.eqb_eq in Hm. subst.
    exists []. split; reflexivity.
Qed.

Lemma match_ansi_complete e rest :
  ansi_sequence e -> match_ansi (e ++ rest) = Some rest.
Proof.
  intros [params [Hp ->]]. simpl. rewrite <- app_assoc. simpl.
  apply match_params_complete, Hp.
Qed.

Lemma match_ansi_sound s rest :
  match_ansi s = Some rest -> exists e, ansi_sequence e /\ s = e ++ rest.
Proof.
  destruct s as [|a [|b s]]; simpl; try discriminate.
  destruct (a =? ESC)%N eqn:Ha; simpl; [|discriminate].
  destruct (b =? 91)%N eqn:Hb; simpl; [|discriminate].
  apply N.eqb_eq in Ha, Hb. subst. intros H.
  destruct (match_params_sound _ H) as [params [Hp ->]].
  exists (ESC :: 91%N :: params ++ [109%N]). split.
  - exists params. split; [exact Hp | reflexivity].
  - simpl. rewrite <- app_assoc. reflexivity.
Qed.

Lemma match_ansi_other c s : c <> ESC -> match_ansi (c :: s) = None.
Proof.
  intros Hc. destruct s as [|b s]; simpl; [reflexivity|].
  apply N.eqb_neq in Hc. rewrite Hc. reflexivity.
Qed.

(** The pass keeps text without ESC and drops a sequence. *)
Lemma re_sub_ansi_text t s :
  no_esc t -> re_sub_ansi (t ++ s) = t ++ re_sub_ansi s.
Proof.
  unfold no_esc. induction t as [|c t IH]; simpl; intros H; [reflexivity|].
  rewrite re_sub_ansi_cons, match_ansi_other by (intros ->; apply H; left; reflexivity).
  rewrite IH by (intros Hin; apply H; right; exact Hin). reflexivity.
Qed.

Lemma re_sub_ansi_plain t : no_esc t -> re_sub_ansi t = t.
Proof.
  intros H. pose proof (re_sub_ansi_text [] H) as E.
  rewrite app_nil_r in E. rewrite E. simp re_sub_ansi. apply app_nil_r.
Qed.

Lemma re_sub_ansi_sequence e s :
  ansi_sequence e -> re_sub_ansi (e ++ s) = re_sub_ansi s.
Proof.
  intros He. pose proof (match_ansi_complete s He) as Hm.
  destruct He as [params [_ ->]]. simpl in *.
  rewrite re_sub_ansi_cons. simpl. rewrite Hm. reflexivity.
Qed.

Lemma re_sub_ansi_interleaved pieces last :
  Forall (fun p => no_esc (fst p) /\ ansi_sequence (snd p)) pieces ->
  no_esc last ->
  re_sub_ansi (interleaved pieces last) = concat (map fst pieces) ++ last.
Proof.
  intros Hp Hl. unfold interleaved.
  induction Hp as [|[t e] pieces [Ht He] _ IH]; simpl in *.
  - apply re_sub_ansi_plain, Hl.
  - rewrite <- !app_assoc. rewrite re_sub_ansi_text by exact Ht.
    rewrite re_sub_ansi_sequence by exact He. rewrite IH. reflexivity.
Qed.

Lemma no_esc_concat ts last :
  Forall no_esc ts -> no_esc last -> no_esc (concat ts ++ last).
Proof.
  unfold no_esc. intros Hts Hl Hin. apply in_app_or in Hin as [Hin | Hin].
  - apply in_concat in Hin as [t [Ht Hin]].
    rewrite Forall_forall in Hts. exact (Hts t Ht Hin).
  - exact (Hl Hin).
Qed.

Lemma no_esc_no_sequence s :
  no_esc s -> forall a e b, ansi_sequence e -> s <> a ++ e ++ b.
Proof.
  intros H a e b [params [_ ->]] ->. apply H.
  apply in_or_app. right. left. reflexivity.
Qed.

End RegexFacts.

Section StripFacts.

Lemma strip_no_leading_space s : no_leading_space (strip s).
Proof.
  unfold strip. destruct (rstrip_split (lstrip s)) as [t [_ E]].
  pose proof (lstrip_head s) as H. rewrite E in H.
  destruct (rstrip (lstrip s)); [exact I | exact H].
Qed.

Lemma strip_no_trailing_space s : no_trailing_space (strip s).
Proof. unfold strip, no_trailing_space. apply rstrip_last. Qed.

Lemma re_sub_ansi_leading s :
  no_leading_space s -> ~ begins_with_sequence s ->
  no_leading_space (re_sub_ansi s).
Proof.
  destruct s as [|c s]; intros Hs Hb.
  - rewrite re_sub_ansi_equation_1. exact I.
  - rewrite re_sub_ansi_cons. destruct (match_ansi (c :: s)) eqn:E.
    + exfalso. apply Hb. destruct (match_ansi_sound _ E) as [e [He Hs']].
      exists e, s0. split; assumption.
    + exact Hs.
Qed.

(** A last character that does not close an escape sequence is the last
    character of the result. *)
Lemma re_sub_ansi_last n : forall s x,
  length s <= n ->
  ~ ends_with_sequence (s ++ [x]) ->
  exists r, re_sub_ansi (s ++ [x]) = r ++ [x].
Proof.
  induction n as [|n IH]; intros s x Hn He.
  - destruct s; [|simpl in Hn; lia]. exists []. simpl.
    rewrite re_sub_ansi_cons. simpl.
    rewrite re_sub_ansi_equation_1. reflexivity.
  - destruct s as [|c s0].
    + exists []. simpl. rewrite re_sub_ansi_cons. simpl.
      rewrite re_sub_ansi_equation_1. reflexivity.
    + simpl. rewrite re_sub_ansi_cons.
      destruct (match_ansi (c :: s0 ++ [x])) as [rest|] eqn:E.
      * destruct (match_ansi_sound _ E) as [e [Hseq Hs]].
        destruct rest as [|y rest0] using rev_ind.
        -- exfalso. apply He. exists [], e. split; [exact Hseq|].
           rewrite app_nil_r in Hs. exact Hs.
        -- clear IHrest0. rewrite app_assoc in Hs.
           change (c :: s0 ++ [x]) with ((c :: s0) ++ [x]) in Hs.
           apply app_inj_tail in Hs as [Hs ->].
           apply IH.
           ++ assert (L : length (c :: s0) = length (e ++ rest0))
                by (rewrite Hs; reflexivity).
              rewrite length_app in L. simpl in L, Hn.
              destruct Hseq as [params [_ ->]]. simpl in L. lia.
           ++ intros [a [e' [He' Ha]]]. apply He. exists (e ++ a), e'.
              split; [exact He'|]. rewrite Hs, <- !app_assoc.
              rewrite Ha. reflexivity.
      * destruct (IH s0 x) as [r Hr].
        -- simpl in Hn. lia.
        -- intros [a [e' [He' Ha]]]. apply He. exists (c :: a), e'.
           split; [exact He'|]. simpl. rewrite Ha. reflexivity.
        -- exists (c :: r). rewrite Hr. reflexivity.
Qed.

Lemma re_sub_ansi_trailing s :
  no_trailing_space s -> ~ ends_with_sequence s ->
  no_trailing_space (re_sub_ansi s).
Proof.
  unfold no_trailing_space.
  destruct s as [|x s0] using rev_ind; intros Hs He.
  - rewrite re_sub_ansi_equation_1. exact I.
  - destruct (@re_sub_ansi_last (length s0) s0 x (le_n _) He) as [r ->].
    rewrite rev_app_distr in *. exact Hs.
Qed.

End StripFacts.

(* ===================================================================== *)
(** * The bridge-command primitive *)
(* ===================================================================== *)

(** Running the monad's own combinators, and nothing else. *)
Ltac proc :=
  cbv beta iota zeta
      delta [bind ret raise try_except print emit input int extend];
  cbn [stdin trace fst snd].

Section BridgeCommand.
Variable env : Env.

(** The moment [run_adb_command] hands the command line to the shell. *)
Definition at_shell (w : World) (command device : str) : list Event :=
  trace w ++ [Printed (lit "Executing command: "
                       ++ adb_command_line command device)].

Lemma run_adb_command_succeeds w command device stdout :
  respond env (at_shell w command device)
          (Shell (adb_command_line command device)) = (0%Z, stdout) ->
  run_adb_command env command device w
  = (Returned (Some (clean_output stdout)),
     extend w [Printed (lit "Executing command: "
                        ++ adb_command_line command device);
               Ran (Shell (adb_command_line command device)) 0]).
Proof.
  intros H. unfold run_adb_command, subprocess_run, at_shell in *. proc.
  rewrite H. proc. rewrite <- app_assoc. reflexivity.
Qed.

Lemma run_adb_command_fails w command device rc stdout :
  respond env (at_shell w command device)
          (Shell (adb_command_line command device)) = (rc, stdout) ->
  rc <> 0%Z ->
  run_adb_command env command device w
  = (Returned None,
     extend w [Printed (lit "Executing command: "
                        ++ adb_command_line command device);
               Ran (Shell (adb_command_line command device)) rc;
               Printed (lit "Error running command '"
                        ++ adb_command_line command device ++ lit "': "
                        ++ error_text env
                             (Shell (adb_command_line command device)) rc)]).
Proof.
  intros H Hrc. unfold run_adb_command, subprocess_run, at_shell in *. proc.
  rewrite H. apply Z.eqb_neq in Hrc. rewrite Hrc. proc.
  rewrite <- !app_assoc. reflexivity.
Qed.

End BridgeCommand.

Section BridgeCommandClaims.
Variable env : Env.

(** C2, as the script has it.  When the captured standard output, with the
    whitespace at its two ends stripped, is text free of ESC interleaved
    with escape sequences [ESC[ (digits and semicolons) m] (the form
    [ESC[<digits>;<digits>m] is among them, see
    [two_number_is_ansi_sequence]), [run_adb_command] returns that text
    with the sequences deleted and the rest unchanged: the result holds
    no escape sequence and is otherwise identical to the stripped output,
    not to the raw one. *)
Theorem run_adb_command_removes_sequences
  (w : World) (command device stdout : str)
  (pieces : list (str * str)) (last : str) :
  respond env (at_shell w command device)
          (Shell (adb_command_line command device)) = (0%Z, stdout) ->
  strip stdout = interleaved pieces last ->
  Forall (fun p => no_esc (fst p) /\ ansi_sequence (snd p)) pieces ->
  no_esc last ->
  exists text,
    fst (run_adb_command env command device w) = Returned (Some text)
    /\ text = concat (map fst pieces) ++ last
    /\ forall a e b, ansi_sequence e -> text <> a ++ e ++ b.
Proof.
  intros Hrun Hs Hp Hl. exists (concat (map fst pieces) ++ last).
  rewrite (run_adb_command_succeeds _ _ _ _ Hrun). unfold clean_output.
  rewrite Hs, re_sub_ansi_interleaved by assumption.
  split; [reflexivity | split; [reflexivity|]].
  apply no_esc_no_sequence, no_esc_concat; [|exact Hl].
  apply Forall_map. eapply Forall_impl; [|exact Hp]. intros p H. apply H.
Qed.

(** C10, as the script has it.  For a successful command the captured
    output is stripped of whitespace at both ends first and the escape
    codes are removed afterwards.  The stripped output has no whitespace at
    either end, so none of the surrounding whitespace of the raw output is
    kept; the returned text has no leading whitespace unless the stripped
    output begins with an escape sequence, and no trailing whitespace
    unless it ends with one. *)
Theorem run_adb_command_strips_before_cleaning
  (w : World) (command device stdout : str) :
  respond env (at_shell w command device)
          (Shell (adb_command_line command device)) = (0%Z, stdout) ->
  exists text,
    fst (run_adb_command env command device w) = Returned (Some text)
    /\ text = re_sub_ansi (strip stdout)
    /\ no_leading_space (strip stdout)
    /\ no_trailing_space (strip stdout)
    /\ (~ begins_with_sequence (strip stdout) -> no_leading_space text)
    /\ (~ ends_with_sequence (strip stdout) -> no_trailing_space text).
Proof.
  intros Hrun. exists (re_sub_ansi (strip stdout)).
  rewrite (run_adb_command_succeeds _ _ _ _ Hrun).
  repeat split.
  - apply strip_no_leading_space.
  - apply strip_no_trailing_space.
  - apply re_sub_ansi_leading, strip_no_leading_space.
  - apply re_sub_ansi_trailing, strip_no_trailing_space.
Qed.

End BridgeCommandClaims.

(** Bold text between two words, and the line feed every command ends
    its output with. *)
Definition bold_output : str :=
  lit "ab" ++ ESC :: lit "[0;1m" ++ lit "cd" ++ [LF].

Definition a_device : str := lit "emulator-5554".

Lemma run_adb_command_removes_sequences_witness :
  exists text,
    fst (run_adb_command (scripted (fun _ => (0%Z, bold_output)) [])
                         (lit "shell getprop") a_device (start []))
    = Returned (Some text)
    /\ text = concat (map fst [(lit "ab", ESC :: lit "[0;1m")]) ++ lit "cd"
    /\ forall a e b, ansi_sequence e -> text <> a ++ e ++ b.
Proof.
  apply (@run_adb_command_removes_sequences
           (scripted (fun _ => (0%Z, bold_output)) []) (start [])
           (lit "shell getprop") a_device bold_output
           [(lit "ab", ESC :: lit "[0;1m")] (lit "cd")).
  - reflexivity.
  - vm_compute. reflexivity.
  - constructor; [|constructor]. split.
    + intros H. vm_compute in H. intuition discriminate.
    + exists (lit "0;1"). split; reflexivity.
  - intros H. vm_compute in H. intuition discriminate.
Defined.

(** A sequence cut in two by another one. *)
Definition nested_output : str :=
  ESC :: lit "[1" ++ ESC :: lit "[0;0m" ++ lit ";2m".

(** C2 as stated fails twice.  With the sequence taken out, the output of
    the first command is [abcd] and a line feed; the text returned is
    [abcd], without the line feed.  And in the second output, deleting the
    sequence [ESC[0;0m] joins what stood on its two sides: the text
    returned is the sequence [ESC[1;2m]. *)
Lemma run_adb_command_not_identical_to_input :
  (two_number_sequence (ESC :: lit "[0;1m")
   /\ bold_output = lit "ab" ++ (ESC :: lit "[0;1m") ++ lit "cd" ++ [LF]
   /\ fst (run_adb_command (scripted (fun _ => (0%Z, bold_output)) [])
                           (lit "shell getprop") a_device (start []))
      = Returned (Some (lit "abcd"))
   /\ lit "abcd" <> lit "ab" ++ lit "cd" ++ [LF])
  /\ (two_number_sequence (ESC :: lit "[0;0m")
      /\ fst (run_adb_command (scripted (fun _ => (0%Z, nested_output)) [])
                              (lit "shell getprop") a_device (start []))
         = Returned (Some (ESC :: lit "[1;2m"))
      /\ two_number_sequence (ESC :: lit "[1;2m")).
Proof.
  split; [split; [|split; [|split]] | split; [|split]].
  - exists (lit "0"), (lit "1"). repeat split; discriminate.
  - reflexivity.
  - vm_compute. reflexivity.
  - vm_compute. discriminate.
  - exists (lit "0"), (lit "0"). repeat split; discriminate.
  - vm_compute. reflexivity.
  - exists (lit "1"), (lit "2"). repeat split; discriminate.
Qed.

(** A reset code followed by a space. *)
Definition reset_then_space : str := ESC :: lit "[0m" ++ lit " ok".

Lemma run_adb_command_strips_before_cleaning_witness :
  exists text,
    fst (run_adb_command (scripted (fun _ => (0%Z, reset_then_space)) [])
                         (lit "shell getprop") a_device (start []))
    = Returned (Some text)
    /\ text = re_sub_ansi (strip reset_then_space)
    /\ no_leading_space (strip reset_then_space)
    /\ no_trailing_space (strip reset_then_space)
    /\ (~ begins_with_sequence (strip reset_then_space) -> no_leading_space text)
    /\ (~ ends_with_sequence (strip reset_then_space) -> no_trailing_space text).
Proof.
  apply (@run_adb_command_strips_before_cleaning
           (scripted (fun _ => (0%Z, reset_then_space)) []) (start [])
           (lit "shell getprop") a_device reset_then_space).
  reflexivity.
Defined.

(** C10 as stated fails: the text returned begins with a space. *)
Lemma run_adb_command_returns_leading_space :
  fst (run_adb_command (scripted (fun _ => (0%Z, reset_then_space)) [])
                       (lit "shell getprop") a_device (start []))
  = Returned (Some (lit " ok"))
  /\ ~ no_leading_space (lit " ok").
Proof.
  split.
  - vm_compute. reflexivity.
  - vm_compute. discriminate.
Qed.

(* ===================================================================== *)
(** * Discovery fails or finds nothing *)
(* ===================================================================== *)

Section NoDevice.
Variable env : Env.

Definition no_devices_message : str :=
  lit "No devices connected. Please connect a device and try again.".

Lemma get_connected_devices_fails w rc stdout :
  respond env (trace w) adb_devices = (rc, stdout) -> rc <> 0%Z ->
  get_connected_devices env w
  = (Returned [],
     extend w [Ran adb_devices rc;
               Printed (lit "Error listing ADB devices: "
                        ++ error_text env adb_devices rc)]).
Proof.
  intros H Hrc. unfold get_connected_devices, subprocess_run. proc.
  rewrite H. apply Z.eqb_neq in Hrc. rewrite Hrc. proc.
  rewrite <- app_assoc. reflexivity.
Qed.

Lemma get_connected_devices_succeeds w stdout :
  respond env (trace w) adb_devices = (0%Z, stdout) ->
  exists devices,
    parse_devices stdout = Some devices
    /\ get_connected_devices env w
       = (Returned devices, extend w [Ran adb_devices 0]).
Proof.
  intros H.
  assert (Hds : exists ds, parse_devices stdout = Some ds)
    by apply device_ids_total.
  destruct Hds as [ds Hds]. exists ds. split; [exact Hds|].
  unfold get_connected_devices, subprocess_run. proc. rewrite H.
  rewrite Z.eqb_refl. proc. rewrite Hds. reflexivity.
Qed.

Lemma main_without_devices n s w0 w1 :
  get_connected_devices env w0 = (Returned [], w1) ->
  main env n s w0
  = (Raised (SystemExit 1), extend w1 [Printed no_devices_message]).
Proof.
  intros H. unfold main. unfold bind at 1. rewrite H.
  unfold bind at 1. reflexivity.
Qed.

(** C4.  When the listing command fails, [get_connected_devices] logs the
    error and returns the empty list; and whenever discovery returns the
    empty list, after a failed listing as after a listing with no device
    line, the process prints the message for the user and exits with
    status 1, having run nothing else: no probe, no copy, no log command,
    no archive. *)
Theorem failed_listing_is_no_device
  (w : World) (rc : Z) (stdout : str) (n : Z) (s : bool) :
  respond env (trace w) adb_devices = (rc, stdout) -> rc <> 0%Z ->
  let logged :=
    extend w [Ran adb_devices rc;
              Printed (lit "Error listing ADB devices: "
                       ++ error_text env adb_devices rc)] in
  get_connected_devices env w = (Returned [], logged)
  /\ main env n s w
     = (Raised (SystemExit 1), extend logged [Printed no_devices_message])
  /\ exit_status (fst (main env n s w)) = 1%Z
  /\ (forall w0 w1,
        get_connected_devices env w0 = (Returned [], w1) ->
        main env n s w0
        = (Raised (SystemExit 1), extend w1 [Printed no_devices_message]))
  /\ (forall w0 header trailer,
        one_line header -> visible header -> blank trailer ->
        respond env (trace w0) adb_devices
        = (0%Z, listing header [] trailer) ->
        main env n s w0
        = (Raised (SystemExit 1),
           extend w0 [Ran adb_devices 0; Printed no_devices_message])).
Proof.
  intros H Hrc logged.
  pose proof (get_connected_devices_fails _ H Hrc) as Hd. fold logged in Hd.
  pose proof (main_without_devices n s _ Hd) as Hm.
  split; [exact Hd|]. split; [exact Hm|]. split; [rewrite Hm; reflexivity|].
  split; [intros w0 w1; apply main_without_devices|].
  intros w0 header trailer H1 Hv Ht Hrun.
  destruct (get_connected_devices_succeeds _ Hrun) as [ds [Hp Hg]].
  rewrite (@parse_devices_listing header [] trailer H1 Hv (Forall_nil _) Ht)
    in Hp.
  inversion Hp; subst. rewrite (main_without_devices n s _ Hg).
  unfold extend. simpl. rewrite <- app_assoc. reflexivity.
Qed.

End NoDevice.

Lemma failed_listing_is_no_device_witness :
  let env := scripted (fun _ => (1%Z, [])) [] in
  let logged :=
    extend (start [])
           [Ran adb_devices 1;
            Printed (lit "Error listing ADB devices: "
                     ++ error_text env adb_devices 1)] in
  get_connected_devices env (start []) = (Returned [], logged)
  /\ main env 5 false (start [])
     = (Raised (SystemExit 1), extend logged [Printed no_devices_message])
  /\ exit_status (fst (main env 5 false (start []))) = 1%Z.
Proof.
  intros env logged.
  destruct (@failed_listing_is_no_device env (start []) 1%Z [] 5%Z false)
    as [H1 [H2 [H3 _]]].
  - reflexivity.
  - discriminate.
  - split; [exact H1 | split; [exact H2 | exact H3]].
Defined.

(* ===================================================================== *)
(** * Device selection *)
(* ===================================================================== *)

Section Selection.
Variable env : Env.

Definition select_prompt : str := lit "Select a device by number: ".

(** A choice the loop accepts, and a line it turns down. *)
Definition in_range (devices : list str) (c : Z) : Prop :=
  (1 <= c <= Z.of_nat (length devices))%Z.

Definition rejected (devices : list str) (line : str) : Prop :=
  match int_of_str env line with
  | None => True
  | Some c => ~ in_range devices c
  end.

(** What the loop prints when it turns a line down. *)
Definition rejection (line : str) : str :=
  match int_of_str env line with
  | None => lit "Invalid input. Please enter a number."
  | Some _ => lit "Invalid choice. Please try again."
  end.

(** The numbered list: line [i] is the [i]-th device, counting from 1. *)
Definition numbered_from (k : nat) (devices : list str) : list Event :=
  map (fun p => Printed (str_of_int (Z.of_nat (fst p)) ++ lit ": " ++ snd p))
      (combine (seq k (length devices)) devices).

Lemma print_numbered_trace devices : forall k w,
  print_numbered (Z.of_nat k) devices w
  = (Returned tt, extend w (numbered_from k devices)).
Proof.
  unfold numbered_from.
  induction devices as [|d ds IH]; intros k w; simpl.
  - unfold ret, extend. rewrite app_nil_r. destruct w; reflexivity.
  - proc. replace (Z.of_nat k + 1)%Z with (Z.of_nat (S k)) by lia.
    rewrite IH. unfold extend. simpl. rewrite <- app_assoc. reflexivity.
Qed.

Lemma in_range_test devices c :
  ((1 <=? c) && (c <=? Z.of_nat (length devices)))%Z = true
  <-> in_range devices c.
Proof. unfold in_range. rewrite andb_true_iff, !Z.leb_le. reflexivity. Qed.

Lemma ask_rejected devices w line rest :
  stdin w = line :: rest -> rejected devices line ->
  ask env devices w
  = (Returned None,
     {| stdin := rest;
        trace := trace w ++ [Prompted select_prompt; Printed (rejection line)] |}).
Proof.
  unfold rejected, rejection, ask. intros Hin Hrej. proc. rewrite Hin.
  destruct (int_of_str env line) as [c|]; proc.
  - destruct ((1 <=? c) && (c <=? Z.of_nat (length devices)))%Z eqn:E.
    + apply in_range_test in E. contradiction.
    + proc. rewrite <- app_assoc. reflexivity.
  - rewrite <- app_assoc. reflexivity.
Qed.

Lemma ask_accepted devices w line rest c :
  stdin w = line :: rest ->
  int_of_str env line = Some c -> in_range devices c ->
  ask env devices w
  = (Returned (Some (nth (Z.to_nat (c - 1)) devices [])),
     {| stdin := rest; trace := trace w ++ [Prompted select_prompt] |}).
Proof.
  unfold ask. intros Hin Hc Hr. proc. rewrite Hin, Hc. proc.
  apply in_range_test in Hr. rewrite Hr. reflexivity.
Qed.

Lemma ask_until_choice devices good rest c : forall bad n w,
  stdin w = bad ++ good :: rest ->
  Forall (rejected devices) bad ->
  int_of_str env good = Some c -> in_range devices c ->
  length bad <= n ->
  ask_until env devices n w
  = (Returned (nth (Z.to_nat (c - 1)) devices []),
     {| stdin := rest;
        trace := trace w
                 ++ flat_map (fun line => [Prompted select_prompt;
                                           Printed (rejection line)]) bad
                 ++ [Prompted select_prompt] |}).
Proof.
  induction bad as [|b bad IH]; intros n w Hin Hbad Hc Hr Hn.
  - destruct n; simpl; unfold bind;
      rewrite (@ask_accepted devices w good rest c Hin Hc Hr); reflexivity.
  - inversion Hbad as [|? ? Hb Hbad']; subst.
    destruct n as [|n]; [simpl in Hn; lia|].
    simpl. unfold bind. rewrite (@ask_rejected devices w b (bad ++ good :: rest) Hin Hb).
    rewrite (IH n); try assumption.
    + simpl. rewrite <- app_assoc. reflexivity.
    + reflexivity.
    + simpl in Hn. lia.
Qed.

(** The bound of [ask_until] is never what ends the loop: any two bounds
    that cover the lines left give the same run. *)
Lemma ask_until_bound devices : forall n m w,
  length (stdin w) <= n -> length (stdin w) <= m ->
  ask_until env devices n w = ask_until env devices m w.
Proof.
  induction n as [|n IH]; intros m w Hn Hm.
  - destruct (stdin w) eqn:E; [|simpl in Hn; lia].
    destruct m; simpl; unfold bind, ask; proc; rewrite E; reflexivity.
  - destruct (stdin w) as [|line rest] eqn:E.
    + destruct m; simpl; unfold bind, ask; proc; rewrite E; reflexivity.
    + destruct m as [|m]; [simpl in Hm; lia|].
      simpl. unfold bind.
      destruct (ask env devices w) as [[[d|]|e] w'] eqn:Ea; try reflexivity.
      apply IH.
      * assert (stdin w' = rest); [|simpl in Hn; subst; lia].
        revert Ea. unfold ask. proc. rewrite E.
        destruct (int_of_str env line) as [c|]; proc.
        -- destruct ((1 <=? c) && (c <=? Z.of_nat (length devices)))%Z;
             proc; intros Ea; inversion Ea; reflexivity.
        -- intros Ea; inversion Ea; reflexivity.
      * assert (stdin w' = rest); [|simpl in Hm; subst; lia].
        revert Ea. unfold ask. proc. rewrite E.
        destruct (int_of_str env line) as [c|]; proc.
        -- destruct ((1 <=? c) && (c <=? Z.of_nat (length devices)))%Z;
             proc; intros Ea; inversion Ea; reflexivity.
        -- intros Ea; inversion Ea; reflexivity.
Qed.

(** C5.  One device is returned at once, without a prompt.  With two or
    more, the numbered list is printed, counting from 1; every line that
    is no number or is out of range is answered with a message and the
    prompt again; the first line [c] with [1 <= c <= len(devices)] ends
    the loop, and the device at position [c - 1] is returned. *)
Theorem select_device_returns_first_valid_choice
  (w : World) (devices bad : list str) (good : str) (rest : list str) (c : Z) :
  2 <= length devices ->
  stdin w = bad ++ good :: rest ->
  Forall (rejected devices) bad ->
  int_of_str env good = Some c -> in_range devices c ->
  (forall device w0,
     select_device env [device] w0
     = (Returned device,
        extend w0 [Printed (lit "Using the only connected device: "
                            ++ device)]))
  /\ select_device env devices w
     = (Returned (nth (Z.to_nat (c - 1)) devices []),
        {| stdin := rest;
           trace := trace w
                    ++ Printed (lit "Multiple devices detected:")
                       :: numbered_from 1 devices
                    ++ flat_map (fun line => [Prompted select_prompt;
                                              Printed (rejection line)]) bad
                    ++ [Prompted select_prompt] |}).
Proof.
  intros Hlen Hin Hbad Hc Hr. split; [reflexivity|].
  destruct devices as [|d1 [|d2 ds]]; [simpl in Hlen; lia.. |].
  unfold select_device. unfold bind at 1, print, emit.
  unfold bind at 1. rewrite (print_numbered_trace (d1 :: d2 :: ds) 1).
  rewrite (@ask_until_choice (d1 :: d2 :: ds) good rest c bad);
    try assumption.
  - unfold extend. cbn [stdin trace]. rewrite <- !app_assoc. reflexivity.
  - cbn [stdin extend]. rewrite Hin, length_app. lia.
Qed.

End Selection.

(** A selection among three devices, with the trace it leaves. *)
Example select_device_trace :
  select_device (scripted (fun _ => (0%Z, [])) [])
                [lit "emulator-5554"; lit "R58M123ABC"; lit "0A1B2C3D"]
                (start [lit "two"; lit "4"; lit "3"; lit "next"])
  = (Returned (lit "0A1B2C3D"),
     {| stdin := [lit "next"];
        trace := [Printed (lit "Multiple devices detected:");
                  Printed (lit "1: emulator-5554");
                  Printed (lit "2: R58M123ABC");
                  Printed (lit "3: 0A1B2C3D");
                  Prompted (lit "Select a device by number: ");
                  Printed (lit "Invalid input. Please enter a number.");
                  Prompted (lit "Select a device by number: ");
                  Printed (lit "Invalid choice. Please try again.");
                  Prompted (lit "Select a device by number: ")] |}).
Proof. vm_compute. reflexivity. Qed.

Lemma select_device_returns_first_valid_choice_witness :
  let env := scripted (fun _ => (0%Z, [])) [] in
  let devices := [lit "emulator-5554"; lit "R58M123ABC"; lit "0A1B2C3D"] in
  fst (select_device env devices
         (start [lit "x"; lit "7"; lit "0"; lit "2"; lit "summary"]))
  = Returned (lit "R58M123ABC")
  /\ stdin (snd (select_device env devices
                   (start [lit "x"; lit "7"; lit "0"; lit "2"; lit "summary"])))
     = [lit "summary"].
Proof.
  intros env devices.
  destruct (@select_device_returns_first_valid_choice env
              (start [lit "x"; lit "7"; lit "0"; lit "2"; lit "summary"])
              devices [lit "x"; lit "7"; lit "0"] (lit "2") [lit "summary"] 2%Z)
    as [_ H].
  - simpl. lia.
  - reflexivity.
  - constructor; [exact I|]. constructor; [|constructor; [|constructor]].
    + change (~ in_range devices 7). unfold in_range. simpl. lia.
    + change (~ in_range devices 0). unfold in_range. simpl. lia.
  - reflexivity.
  - unfold in_range. simpl. lia.
  - rewrite H. split; reflexivity.
Defined.

(* ===================================================================== *)
(** * Stages that log and go on *)
(* ===================================================================== *)

Section Stages.
Variable env : Env.

(** The commands run, and the files written, among some events. *)
Definition ran (events : list Event) : list Cmd :=
  flat_map (fun e => match e with Ran c _ => [c] | _ => [] end) events.

Definition wrote (events : list Event) : list (str * str) :=
  flat_map (fun e => match e with Wrote p c => [(p, c)] | _ => [] end) events.

Lemma extend_nil w : extend w [] = w.
Proof. destruct w. unfold extend. simpl. rewrite app_nil_r. reflexivity. Qed.

Lemma extend_extend w a b : extend (extend w a) b = extend w (a ++ b).
Proof. unfold extend. simpl. rewrite app_assoc. reflexivity. Qed.

Lemma ran_app a b : ran (a ++ b) = ran a ++ ran b.
Proof. apply flat_map_app. Qed.

(** A loop whose body always returns, having only added events, always
    returns, having added the events of every turn in order. *)
Lemma for_each_steps (X : Type) (body : X -> M unit)
      (Q : X -> list Event -> Prop) :
  (forall x w, exists events,
      body x w = (Returned tt, extend w events) /\ Q x events) ->
  forall xs w, exists turns,
      for_each xs body w = (Returned tt, extend w (concat turns))
      /\ Forall2 Q xs turns.
Proof.
  intros Hbody. induction xs as [|x xs IH]; intros w.
  - exists []. simpl. unfold ret. rewrite extend_nil. split; constructor.
  - destruct (Hbody x w) as [events [Hx Qx]].
    destruct (IH (extend w events)) as [turns [Hxs Qxs]].
    exists (events :: turns). simpl. unfold bind. rewrite Hx, Hxs.
    rewrite extend_extend. split; [reflexivity | constructor; assumption].
Qed.

Lemma ran_turns (X : Type) (f : X -> list Cmd) xs turns :
  Forall2 (fun x events => ran events = f x) xs turns ->
  ran (concat turns) = flat_map f xs.
Proof.
  induction 1 as [|x events xs turns Hx _ IH]; simpl; [reflexivity|].
  rewrite ran_app, Hx, IH. reflexivity.
Qed.

Lemma flat_map_singleton (X Y : Type) (f : X -> Y) xs :
  flat_map (fun x => [f x]) xs = map f xs.
Proof. induction xs as [|x xs IH]; simpl; congruence. Qed.

(** [run_adb_command] in full: it always returns. *)
Definition command_outcome (command device : str) (rc : Z) (stdout : str)
  : option str * list Event :=
  let line := adb_command_line command device in
  if (rc =? 0)%Z
  then (Some (clean_output stdout),
        [Printed (lit "Executing command: " ++ line); Ran (Shell line) 0])
  else (None,
        [Printed (lit "Executing command: " ++ line); Ran (Shell line) rc;
         Printed (lit "Error running command '" ++ line ++ lit "': "
                  ++ error_text env (Shell line) rc)]).

Lemma run_adb_command_run w command device :
  exists rc stdout,
    respond env (at_shell w command device)
            (Shell (adb_command_line command device)) = (rc, stdout)
    /\ run_adb_command env command device w
       = (Returned (fst (command_outcome command device rc stdout)),
          extend w (snd (command_outcome command device rc stdout))).
Proof.
  destruct (respond env (at_shell w command device)
                    (Shell (adb_command_line command device)))
    as [rc stdout] eqn:E.
  exists rc, stdout. split; [reflexivity|]. unfold command_outcome.
  destruct (rc =? 0)%Z eqn:Hrc.
  - apply Z.eqb_eq in Hrc. subst. apply run_adb_command_succeeds, E.
  - apply Z.eqb_neq in Hrc. eapply run_adb_command_fails; eassumption.
Qed.

Lemma ran_command_outcome command device rc stdout :
  ran (snd (command_outcome command device rc stdout))
  = [Shell (adb_command_line command device)].
Proof. unfold command_outcome. destruct (rc =? 0)%Z; reflexivity. Qed.

End Stages.

(* ===================================================================== *)
(** * Routing recent files *)
(* ===================================================================== *)

Section Routing.
Variable env : Env.

(** The routing as a table of rules, each a test on the source directory
    and the file name with the folder it sends to, tried from the top. *)
Definition routing_rules : list ((str -> str -> bool) * str) :=
  [ (fun directory file =>
       py_in (lit "Movies") directory && startswith (lit "screen-") file,
     screen_recordings_dir env);
    (fun directory _ => py_in (lit "ConsoleLogs") directory,
     qgc_logs_dir env);
    (fun directory _ => py_in (lit "Navsuite") directory,
     navsuite_log_dir env) ].

Fixpoint first_match (rules : list ((str -> str -> bool) * str))
         (otherwise directory file : str) : str :=
  match rules with
  | [] => otherwise
  | (test, folder) :: rules' =>
      if test directory file then folder
      else first_match rules' otherwise directory file
  end.

(** Where the rules send a file pulled from [directory]. *)
Definition destination (directory dest_dir file : str) : str :=
  os_path_join (first_match routing_rules dest_dir directory file) file.

Lemma local_path_destination directory recent_file dest_dir :
  local_path env directory recent_file dest_dir
  = destination directory dest_dir recent_file.
Proof.
  unfold local_path, destination, routing_rules, first_match.
  destruct (py_in (lit "Movies") directory
            && startswith (lit "screen-") recent_file); [reflexivity|].
  destruct (py_in (lit "ConsoleLogs") directory); [reflexivity|].
  destruct (py_in (lit "Navsuite") directory); reflexivity.
Qed.

Lemma pull_recent_file_steps directory dest_dir device recent_file w :
  exists events,
    pull_recent_file env directory dest_dir device recent_file w
    = (Returned tt, extend w events)
    /\ ran events
       = [adb_pull device (directory ++ lit "/" ++ recent_file)
                   (destination directory dest_dir recent_file)].
Proof.
  unfold pull_recent_file, subprocess_run. proc.
  rewrite local_path_destination.
  destruct (respond env (trace w) _) as [rc out].
  destruct (rc =? 0)%Z; proc; eexists; rewrite <- app_assoc;
    (split; [reflexivity|]); reflexivity.
Qed.

(** The listing command of [pull_recent_files], and the world when it is
    run. *)
Definition recent_listing (ls_command : str) (num_files : Z) : str :=
  lit "shell " ++ [34%N] ++ ls_command ++ lit " | head -n "
  ++ str_of_int num_files ++ [34%N].

Definition announced (w : World) (directory : str) (num_files : Z)
           (device : str) : World :=
  extend w [Printed (lit "Getting " ++ str_of_int num_files
                     ++ lit " most recent file(s) from " ++ directory
                     ++ lit " on device " ++ device)].

(** [pull_recent_files] always returns; after the listing command it has
    run one pull for each line of the listing, to the path the rules
    give. *)
Lemma pull_recent_files_run
  (directory ls_command dest_dir : str) (num_files : Z) (device : str)
  (w : World) :
  exists rc stdout events,
    respond env
      (at_shell (announced w directory num_files device)
                (recent_listing ls_command num_files) device)
      (Shell (adb_command_line (recent_listing ls_command num_files) device))
    = (rc, stdout)
    /\ pull_recent_files env directory ls_command dest_dir num_files
                         device w
       = (Returned tt, extend w events)
    /\ tl (ran events)
       = map (fun file =>
                adb_pull device (directory ++ lit "/" ++ file)
                         (destination directory dest_dir file))
             (if (rc =? 0)%Z then splitlines (clean_output stdout) else []).
Proof.
  destruct (run_adb_command_run env (announced w directory num_files device)
              (recent_listing ls_command num_files) device)
    as [rc [stdout [Hresp Hrun]]].
  exists rc, stdout.
  assert (Hcmd : forall o,
             o = command_outcome env (recent_listing ls_command num_files)
                                 device rc stdout ->
             ran (snd o)
             = [Shell (adb_command_line (recent_listing ls_command num_files)
                                        device)])
    by (intros o ->; apply ran_command_outcome).
  assert (Hfst : fst (command_outcome env (recent_listing ls_command num_files)
                                      device rc stdout)
                 = if (rc =? 0)%Z then Some (clean_output stdout) else None)
    by (unfold command_outcome; destruct (rc =? 0)%Z; reflexivity).
  remember (command_outcome env (recent_listing ls_command num_files)
                            device rc stdout) as o eqn:Ho.
  specialize (Hcmd o eq_refl).
  unfold pull_recent_files. unfold bind at 1, print, emit.
  fold (extend w [Printed (lit "Getting " ++ str_of_int num_files
                           ++ lit " most recent file(s) from " ++ directory
                           ++ lit " on device " ++ device)]).
  fold (announced w directory num_files device).
  fold (recent_listing ls_command num_files).
  unfold bind at 1. rewrite Hrun. rewrite Hfst.
  destruct (rc =? 0)%Z; [destruct (clean_output stdout) as [|c files]|].
  - eexists. cbn [stdin trace extend announced]. split; [|split].
    + exact Hresp.
    + unfold extend. cbn [stdin trace]. rewrite <- !app_assoc. reflexivity.
    + rewrite !ran_app, Hcmd. reflexivity.
  - destruct (@for_each_steps _
                (pull_recent_file env directory dest_dir device)
                (fun file events =>
                   ran events
                   = [adb_pull device (directory ++ lit "/" ++ file)
                               (destination directory dest_dir file)])
                (pull_recent_file_steps directory dest_dir device)
                (splitlines (c :: files))
                (extend (announced w directory num_files device) (snd o)))
      as [turns [Hloop Hturns]].
    eexists. rewrite Hloop. split; [exact Hresp|]. split.
    + unfold announced. rewrite !extend_extend. reflexivity.
    + rewrite !ran_app, Hcmd. simpl.
      rewrite (ran_turns _ Hturns). apply flat_map_singleton.
  - eexists. cbn [stdin trace extend announced]. split; [|split].
    + exact Hresp.
    + unfold extend. cbn [stdin trace]. rewrite <- !app_assoc. reflexivity.
    + rewrite !ran_app, Hcmd. reflexivity.
Qed.

(** C6.  The local path [pull_recent_files] pulls a listed file to is the
    file name joined to the folder of the first rule that applies, in
    this order: Movies in the source directory and a name that starts
    with [screen-], the recordings folder; ConsoleLogs in the source
    directory, the console-log folder; Navsuite in the source directory,
    the navigation-log folder; otherwise the destination directory handed
    in.  Every file name of the listing is pulled to that path. *)
Theorem pull_recent_files_routes_by_first_match
  (directory ls_command dest_dir : str) (num_files : Z) (device : str)
  (recent_file : str) (w : World) :
  local_path env directory recent_file dest_dir
  = os_path_join (first_match routing_rules dest_dir directory recent_file)
                 recent_file
  /\ first_match routing_rules dest_dir directory recent_file
     = (if py_in (lit "Movies") directory
           && startswith (lit "screen-") recent_file
        then screen_recordings_dir env
        else if py_in (lit "ConsoleLogs") directory then qgc_logs_dir env
        else if py_in (lit "Navsuite") directory then navsuite_log_dir env
        else dest_dir)
  /\ exists rc stdout events,
       respond env
         (at_shell (announced w directory num_files device)
                   (recent_listing ls_command num_files) device)
         (Shell (adb_command_line (recent_listing ls_command num_files) device))
       = (rc, stdout)
       /\ pull_recent_files env directory ls_command dest_dir num_files
                            device w
          = (Returned tt, extend w events)
       /\ tl (ran events)
          = map (fun file =>
                   adb_pull device (directory ++ lit "/" ++ file)
                            (destination directory dest_dir file))
                (if (rc =? 0)%Z then splitlines (clean_output stdout) else []).
Proof.
  split; [apply local_path_destination|]. split; [reflexivity|].
  apply pull_recent_files_run.
Qed.

End Routing.

(** The three routes of the specification, run. *)
Example screen_recording_goes_to_recordings :
  local_path (scripted (fun _ => (0%Z, [])) []) (lit "/sdcard/Movies")
             (lit "screen-20240101.mp4") (lit "elsewhere")
  = lit "incident_reports/report_01-02-2024_03:04:05/Screen Recordings/screen-20240101.mp4".
Proof. vm_compute. reflexivity. Qed.

Example console_log_goes_to_qgc_logs :
  local_path (scripted (fun _ => (0%Z, [])) [])
             (lit "/sdcard/Android/data/ai.pdw.gcs/files/PDW_GCS/Logs/ConsoleLogs")
             (lit "console.log") (lit "elsewhere")
  = lit "incident_reports/report_01-02-2024_03:04:05/QGC Logs/console.log".
Proof. vm_compute. reflexivity. Qed.

Example other_source_goes_to_dest_dir :
  local_path (scripted (fun _ => (0%Z, [])) []) (lit "/sdcard/Download")
             (lit "screen-1.mp4") (lit "elsewhere")
  = lit "elsewhere/screen-1.mp4".
Proof. vm_compute. reflexivity. Qed.

(* ===================================================================== *)
(** * Copying a whole directory *)
(* ===================================================================== *)

Section FullCopy.
Variable env : Env.

Definition thumbnails : str := lit ".thumbnails".

Definition listing_command (directory : str) : str :=
  lit "shell " ++ [34%N] ++ lit "ls -p " ++ directory ++ [34%N].

Definition item_path (directory item : str) : str :=
  os_path_join directory (rstrip_char SLASH item).

(** What one turn of the loop adds for an entry of the listing: nothing
    for a thumbnail entry; otherwise the pull, with whatever return code
    it came back with, and the line that reports it. *)
Definition pull_turn (directory local_dir device item : str)
           (events : list Event) : Prop :=
  if py_in thumbnails item then events = []
  else exists rc,
      events
      = [Ran (adb_pull device (item_path directory item) local_dir) rc;
         Printed (if (rc =? 0)%Z
                  then lit "Pulled " ++ item_path directory item
                       ++ lit " to " ++ local_dir
                  else lit "Failed to pull " ++ item_path directory item)].

Lemma pull_item_steps directory local_dir device item w :
  exists events,
    pull_item env directory local_dir device item w
    = (Returned tt, extend w events)
    /\ pull_turn directory local_dir device item events.
Proof.
  unfold pull_item, pull_turn, thumbnails.
  destruct (py_in (lit ".thumbnails") item).
  - exists []. unfold ret. rewrite extend_nil. split; reflexivity.
  - unfold subprocess_run. proc. fold (item_path directory item).
    destruct (respond env (trace w) _) as [rc out].
    destruct (rc =? 0)%Z eqn:E; proc; eexists; rewrite <- app_assoc;
      (split; [reflexivity|]); exists rc; rewrite E; reflexivity.
Qed.

Lemma ran_pull_turns directory local_dir device items turns :
  Forall2 (pull_turn directory local_dir device) items turns ->
  ran (concat turns)
  = map (fun item => adb_pull device (item_path directory item) local_dir)
        (filter (fun item => negb (py_in thumbnails item)) items).
Proof.
  induction 1 as [|item events items turns Hturn _ IH]; simpl;
    [reflexivity|].
  rewrite ran_app, IH. unfold pull_turn in Hturn.
  destruct (py_in thumbnails item); simpl.
  - subst. reflexivity.
  - destruct Hturn as [rc ->]. reflexivity.
Qed.

(** C7.  Whatever the listing of the directory holds and whatever becomes
    of each pull, [pull_directory] returns, and the pulls it has tried are
    those of the entries without the thumbnail marker, all of them, in
    the order of the listing: no entry with the marker is pulled, and a
    pull that fails is reported and followed by the next one. *)
Theorem pull_directory_skips_thumbnails_and_goes_on
  (w : World) (directory dest_dir device : str) (items : str) (w1 : World) :
  let local_dir := os_path_join dest_dir (os_path_basename directory) in
  run_adb_command env (listing_command directory) device
                  (extend w [MadeDirs local_dir])
  = (Returned (Some items), w1) ->
  items <> [] ->
  exists turns,
    pull_directory env directory dest_dir device w
    = (Returned tt, extend w1 (concat turns))
    /\ Forall2 (pull_turn directory local_dir device) (splitlines items) turns
    /\ ran (concat turns)
       = map (fun item => adb_pull device (item_path directory item) local_dir)
             (filter (fun item => negb (py_in thumbnails item))
                     (splitlines items))
    /\ (forall item,
          py_in thumbnails item = true ->
          ~ In item (filter (fun item => negb (py_in thumbnails item))
                            (splitlines items))).
Proof.
  intros local_dir Hls Hne.
  destruct (@for_each_steps _ (pull_item env directory local_dir device)
              (pull_turn directory local_dir device)
              (pull_item_steps directory local_dir device)
              (splitlines items) w1) as [turns [Hloop Hturns]].
  exists turns. split; [|split; [exact Hturns | split]].
  - unfold pull_directory. fold local_dir. unfold bind at 1, emit.
    fold (extend w [MadeDirs local_dir]). fold (listing_command directory).
    unfold bind at 1. rewrite Hls.
    destruct items as [|c items]; [contradiction | exact Hloop].
  - apply ran_pull_turns, Hturns.
  - intros item Hm Hin. apply filter_In in Hin as [_ Hin].
    rewrite Hm in Hin. discriminate.
Qed.

(** Without a hypothesis on the listing: [pull_directory] always returns. *)
Lemma pull_directory_steps directory dest_dir device w :
  exists events,
    pull_directory env directory dest_dir device w
    = (Returned tt, extend w events).
Proof.
  unfold pull_directory. unfold bind at 1, emit.
  set (local_dir := os_path_join dest_dir (os_path_basename directory)).
  fold (extend w [MadeDirs local_dir]). unfold bind at 1.
  destruct (run_adb_command_run env (extend w [MadeDirs local_dir])
              (lit "shell " ++ [34%N] ++ lit "ls -p " ++ directory ++ [34%N])
              device) as [rc [stdout [_ ->]]].
  destruct (fst (command_outcome _ _ _ _ _)) as [[|c items]|].
  - eexists. unfold print, emit. rewrite !extend_extend.
    fold (extend w). cbn [stdin trace extend]. unfold extend.
    rewrite <- !app_assoc. reflexivity.
  - destruct (@for_each_steps _ (pull_item env directory local_dir device)
                (pull_turn directory local_dir device)
                (pull_item_steps directory local_dir device)
                (splitlines (c :: items))
                (extend (extend w [MadeDirs local_dir])
                        (snd (command_outcome env
                                (lit "shell " ++ [34%N] ++ lit "ls -p "
                                 ++ directory ++ [34%N]) device rc stdout))))
      as [turns [-> _]].
    eexists. rewrite !extend_extend. reflexivity.
  - eexists. unfold print, emit. rewrite !extend_extend.
    cbn [stdin trace extend]. unfold extend.
    rewrite <- !app_assoc. reflexivity.
Qed.

End FullCopy.

Definition pictures_listing : str :=
  lit "Screenshots/" ++ LF :: lit ".thumbnails/" ++ LF :: lit "shot.png" ++ [LF].

(** A device that lists its pictures and lets no pull through. *)
Definition pulls_fail : Env :=
  scripted (fun c => match c with
                     | Shell _ => (0%Z, pictures_listing)
                     | Argv _ => (1%Z, [])
                     end) [].

Lemma pull_directory_skips_thumbnails_and_goes_on_witness :
  exists turns w1,
    pull_directory pulls_fail (lit "/sdcard/Pictures")
                   (report_dir pulls_fail) a_device (start [])
    = (Returned tt, extend w1 (concat turns))
    /\ ran (concat turns)
       = [adb_pull a_device (lit "/sdcard/Pictures/Screenshots")
                   (os_path_join (report_dir pulls_fail) (lit "Pictures"));
          adb_pull a_device (lit "/sdcard/Pictures/shot.png")
                   (os_path_join (report_dir pulls_fail) (lit "Pictures"))].
Proof.
  destruct (@pull_directory_skips_thumbnails_and_goes_on pulls_fail
              (start []) (lit "/sdcard/Pictures") (report_dir pulls_fail)
              a_device
              (lit "Screenshots/" ++ LF :: lit ".thumbnails/" ++ LF
               :: lit "shot.png")
              (snd (run_adb_command pulls_fail
                      (listing_command (lit "/sdcard/Pictures")) a_device
                      (extend (start [])
                         [MadeDirs (os_path_join (report_dir pulls_fail)
                                                 (lit "Pictures"))]))))
    as [turns [H1 [_ [H2 _]]]].
  - vm_compute. reflexivity.
  - discriminate.
  - exists turns. eexists. split; [exact H1|]. rewrite H2.
    vm_compute. reflexivity.
Defined.

(* ===================================================================== *)
(** * Device information *)
(* ===================================================================== *)

Section Logs.
Variable env : Env.

(** What one turn of the loop of [collect_logs] adds for an entry of the
    table: the two announcements and the command with its return code;
    then, when the command failed, the error message; when it gave no
    text, nothing; and otherwise the file with that text and the line that
    reports it. *)
Definition log_turn (device : str) (entry : str * str) (events : list Event)
  : Prop :=
  let line := adb_command_line (snd entry) device in
  exists rc stdout,
    events
    = [Printed (lit "Collecting " ++ fst entry ++ lit "...");
       Printed (lit "Executing command: " ++ line);
       Ran (Shell line) rc]
      ++ (if (rc =? 0)%Z
          then match clean_output stdout with
               | [] => []
               | _ :: _ =>
                   [Wrote (log_path env (fst entry)) (clean_output stdout);
                    Printed (fst entry ++ lit " saved to "
                             ++ log_path env (fst entry))]
               end
          else [Printed (lit "Error running command '" ++ line ++ lit "': "
                         ++ error_text env (Shell line) rc)]).

Lemma collect_log_steps device entry w :
  exists events,
    collect_log env device entry w = (Returned tt, extend w events)
    /\ log_turn device entry events.
Proof.
  destruct entry as [log_name command]. unfold collect_log, log_turn.
  unfold bind at 1, print at 1, emit.
  fold (extend w [Printed (lit "Collecting " ++ log_name ++ lit "...")]).
  unfold bind at 1.
  destruct (run_adb_command_run env
              (extend w [Printed (lit "Collecting " ++ log_name ++ lit "...")])
              command device) as [rc [stdout [_ ->]]].
  unfold command_outcome. cbn [fst snd].
  destruct (rc =? 0)%Z eqn:Hrc; cbn [fst snd].
  - apply Z.eqb_eq in Hrc. subst rc.
    destruct (clean_output stdout) as [|c text] eqn:Hout.
    + eexists. unfold ret. rewrite extend_extend.
      split; [reflexivity|]. exists 0%Z, stdout. rewrite Hout. reflexivity.
    + eexists. proc. split.
      * unfold extend. cbn [stdin trace]. rewrite <- !app_assoc. reflexivity.
      * exists 0%Z, stdout. rewrite Hout. reflexivity.
  - eexists. unfold ret. rewrite extend_extend.
    split; [reflexivity|]. exists rc, stdout. rewrite Hrc. reflexivity.
Qed.

Lemma log_turn_ran device entry events :
  log_turn device entry events ->
  ran events = [Shell (adb_command_line (snd entry) device)].
Proof.
  intros [rc [stdout ->]]. rewrite ran_app. simpl.
  destruct (rc =? 0)%Z; [destruct (clean_output stdout)|]; reflexivity.
Qed.

Lemma log_turn_wrote device entry events path content :
  log_turn device entry events ->
  In (Wrote path content) events -> content <> [].
Proof.
  intros [rc [stdout ->]] Hin. apply in_app_or in Hin as [Hin | Hin].
  - simpl in Hin. intuition discriminate.
  - destruct (rc =? 0)%Z.
    + destruct (clean_output stdout) eqn:E; simpl in Hin.
      * contradiction.
      * destruct Hin as [Hin | [Hin | []]]; [|discriminate].
        inversion Hin; subst. discriminate.
    + simpl in Hin. intuition discriminate.
Qed.

(** A loop whose turns depend on the world they start from: the turn of
    [x] starts where the turns before it left the world. *)
Inductive turns_from (X : Type) (Q : World -> X -> list Event -> Prop)
  : World -> list X -> list (list Event) -> Prop :=
| turns_done w : turns_from Q w [] []
| turns_next w x xs events turns :
    Q w x events ->
    turns_from Q (extend w events) xs turns ->
    turns_from Q w (x :: xs) (events :: turns).

Lemma for_each_turns (X : Type) (body : X -> M unit)
      (Q : World -> X -> list Event -> Prop) :
  (forall x w, exists events,
      body x w = (Returned tt, extend w events) /\ Q w x events) ->
  forall xs w, exists turns,
      for_each xs body w = (Returned tt, extend w (concat turns))
      /\ turns_from Q w xs turns.
Proof.
  intros Hbody. induction xs as [|x xs IH]; intros w.
  - exists []. simpl. unfold ret. rewrite extend_nil. split; constructor.
  - destruct (Hbody x w) as [events [Hx Qx]].
    destruct (IH (extend w events)) as [turns [Hxs Qxs]].
    exists (events :: turns). simpl. unfold bind. rewrite Hx, Hxs.
    rewrite extend_extend. split; [reflexivity | constructor; assumption].
Qed.

Lemma turns_from_each (X : Type) (Q : World -> X -> list Event -> Prop)
      (R : X -> list Event -> Prop) :
  (forall w x events, Q w x events -> R x events) ->
  forall w xs turns, turns_from Q w xs turns -> Forall2 R xs turns.
Proof.
  intros H w xs turns Ht. induction Ht; constructor; eauto.
Qed.

(** The turn of an entry, from the world [w] it starts in.  The return
    code and the text are those the command came back with when it was
    run, after the two announcements.  The turn writes the file of the
    entry when, and only when, the return code is 0 and the cleaned text
    is not empty, and the content is that text; a command that failed adds
    its error message and writes nothing. *)
Definition log_turn_at (device : str) (w : World) (entry : str * str)
           (events : list Event) : Prop :=
  let line := adb_command_line (snd entry) device in
  exists rc stdout,
    respond env
      (at_shell (extend w [Printed (lit "Collecting " ++ fst entry ++ lit "...")])
                (snd entry) device)
      (Shell line)
    = (rc, stdout)
    /\ events
       = [Printed (lit "Collecting " ++ fst entry ++ lit "...");
          Printed (lit "Executing command: " ++ line);
          Ran (Shell line) rc]
         ++ (if (rc =? 0)%Z
             then match clean_output stdout with
                  | [] => []
                  | _ :: _ =>
                      [Wrote (log_path env (fst entry)) (clean_output stdout);
                       Printed (fst entry ++ lit " saved to "
                                ++ log_path env (fst entry))]
                  end
             else [Printed (lit "Error running command '" ++ line ++ lit "': "
                            ++ error_text env (Shell line) rc)])
    /\ wrote events
       = (if ((rc =? 0)%Z && truthy (clean_output stdout))%bool
          then [(log_path env (fst entry), clean_output stdout)]
          else []).

Lemma log_turn_at_log_turn device w entry events :
  log_turn_at device w entry events -> log_turn device entry events.
Proof. intros [rc [stdout [_ [H _]]]]. exists rc, stdout. exact H. Qed.

Lemma collect_log_run device entry w :
  exists events,
    collect_log env device entry w = (Returned tt, extend w events)
    /\ log_turn_at device w entry events.
Proof.
  destruct entry as [log_name command]. unfold collect_log, log_turn_at.
  unfold bind at 1, print at 1, emit.
  fold (extend w [Printed (lit "Collecting " ++ log_name ++ lit "...")]).
  unfold bind at 1. cbn [fst snd].
  destruct (run_adb_command_run env
              (extend w [Printed (lit "Collecting " ++ log_name ++ lit "...")])
              command device) as [rc [stdout [Hresp ->]]].
  unfold command_outcome. cbn [fst snd].
  destruct (rc =? 0)%Z eqn:Hrc; cbn [fst snd].
  - apply Z.eqb_eq in Hrc. subst rc.
    destruct (clean_output stdout) as [|c text] eqn:Hout.
    + eexists. unfold ret. rewrite extend_extend.
      split; [reflexivity|]. exists 0%Z, stdout. rewrite Hout.
      split; [exact Hresp|]. split; reflexivity.
    + eexists. proc. split.
      * unfold extend. cbn [stdin trace]. rewrite <- !app_assoc. reflexivity.
      * exists 0%Z, stdout. rewrite Hout.
        split; [exact Hresp|]. split; reflexivity.
  - eexists. unfold ret. rewrite extend_extend.
    split; [reflexivity|]. exists rc, stdout. rewrite Hrc.
    split; [exact Hresp|]. split; reflexivity.
Qed.

(** C8.  Whatever return code and text each command comes back with,
    [collect_logs] returns.  It runs the command of every entry of the
    table, in the order of the table, each from the world the turns before
    it left.  For each entry it writes the file when and only when the
    command, as the world answered it, came back with return code 0 and a
    cleaned text that is not empty, and the file holds that text; a
    command that fails is reported by the error message and the loop goes
    on.  No file is written empty. *)
Theorem collect_logs_skips_empty_and_failed (device : str) (w : World) :
  exists turns,
    collect_logs env device w = (Returned tt, extend w (concat turns))
    /\ turns_from (log_turn_at device) w log_types turns
    /\ ran (concat turns)
       = map (fun entry => Shell (adb_command_line (snd entry) device))
             log_types
    /\ (forall path content,
          In (Wrote path content) (concat turns) -> content <> []).
Proof.
  destruct (@for_each_turns _ (collect_log env device) (log_turn_at device)
              (collect_log_run device) log_types w)
    as [turns [Hloop Hchain]].
  pose proof (@turns_from_each _ (log_turn_at device) (log_turn device)
                (@log_turn_at_log_turn device) w log_types turns Hchain)
    as Hturns.
  exists turns. split; [exact Hloop|]. split; [exact Hchain|]. split.
  - rewrite <- flat_map_singleton. apply ran_turns.
    eapply Forall2_impl; [|exact Hturns].
    intros entry events. apply log_turn_ran.
  - intros path content Hin. apply in_concat in Hin as [events [He Hin]].
    clear Hloop Hchain. induction Hturns as [|entry ev es ts Ht _ IH].
    + contradiction.
    + destruct He as [-> | He].
      * eapply log_turn_wrote; eassumption.
      * apply IH, He.
Qed.

End Logs.

(** A device on which [getprop] prints one property between blanks,
    [logcat] fails, [ifconfig] prints a colour reset and nothing else, and
    every other command prints blanks. *)
Definition some_logs : Env :=
  scripted (fun c => match c with
                     | Shell line =>
                         if py_in (lit "getprop") line
                         then (0%Z, lit "  [ro.build]: 1 " ++ [LF])
                         else if py_in (lit "logcat") line
                         then (1%Z, lit "oops")
                         else if py_in (lit "ifconfig") line
                         then (0%Z, ESC :: lit "[0m")
                         else (0%Z, lit "   ")
                     | Argv _ => (0%Z, [])
                     end) [].

(** On that device the nine commands are run and one file is written, the
    one of [getprop], with the cleaned text. *)
Example collect_logs_writes_the_one_log :
  wrote (trace (snd (collect_logs some_logs a_device (start []))))
  = [(log_path some_logs (lit "device_info"), lit "[ro.build]: 1")]
  /\ length (ran (trace (snd (collect_logs some_logs a_device (start [])))))
     = 9.
Proof. split; vm_compute; reflexivity. Qed.

(* ===================================================================== *)
(** * The application directories *)
(* ===================================================================== *)

Section Probe.
Variable env : Env.

(** What the test of one candidate path adds, and what it finds: the path
    when the command came back with the one word [exists], nothing when it
    failed or printed anything else. *)
Definition probe_turn (device dir_path : str) (found : list str)
           (events : list Event) : Prop :=
  exists rc stdout,
    events = snd (command_outcome env (exists_command dir_path) device rc stdout)
    /\ found = if ((rc =? 0)%Z && str_eqb (clean_output stdout) (lit "exists"))%bool
               then [dir_path] else [].

Lemma check_dirs_steps device : forall dirs existing w,
  exists turns,
    check_dirs env device dirs existing w
    = (Returned (existing ++ concat (map fst turns)),
       extend w (concat (map snd turns)))
    /\ Forall2 (fun dir_path turn =>
                  probe_turn device dir_path (fst turn) (snd turn))
               dirs turns.
Proof.
  induction dirs as [|dir_path dirs IH]; intros existing w.
  - exists []. simpl. unfold ret. rewrite extend_nil, app_nil_r.
    split; constructor.
  - simpl. unfold bind.
    destruct (run_adb_command_run env w (exists_command dir_path) device)
      as [rc [stdout [_ ->]]].
    set (o := command_outcome env (exists_command dir_path) device rc stdout).
    assert (Ho : fst o = if (rc =? 0)%Z then Some (clean_output stdout)
                         else None)
      by (unfold o, command_outcome; destruct (rc =? 0)%Z; reflexivity).
    rewrite Ho.
    destruct (rc =? 0)%Z eqn:Hrc;
      [destruct (str_eqb (clean_output stdout) (lit "exists")) eqn:Hex|].
    + destruct (IH (existing ++ [dir_path]) (extend w (snd o)))
        as [turns [-> Hturns]].
      exists (([dir_path], snd o) :: turns). simpl.
      rewrite extend_extend, <- app_assoc. split; [reflexivity|].
      constructor; [|exact Hturns]. exists rc, stdout.
      rewrite Hrc, Hex. split; reflexivity.
    + destruct (IH existing (extend w (snd o))) as [turns [-> Hturns]].
      exists (([], snd o) :: turns). simpl.
      rewrite extend_extend. split; [reflexivity|].
      constructor; [|exact Hturns]. exists rc, stdout.
      rewrite Hrc, Hex. split; reflexivity.
    + destruct (IH existing (extend w (snd o))) as [turns [-> Hturns]].
      exists (([], snd o) :: turns). simpl.
      rewrite extend_extend. split; [reflexivity|].
      constructor; [|exact Hturns]. exists rc, stdout.
      rewrite Hrc. split; reflexivity.
Qed.

(** The probe tests the two candidate paths, in order, and returns those
    that answered [exists]. *)
Lemma get_application_directories_steps device w :
  exists found1 events1 found2 events2,
    get_application_directories env device w
    = (Returned (found1 ++ found2), extend w (events1 ++ events2))
    /\ probe_turn device
         (lit "/sdcard/Android/data/org.mavlink.qgroundcontrol/files/PDW_GCS")
         found1 events1
    /\ probe_turn device
         (lit "/sdcard/Android/data/ai.pdw.gcs/files/PDW_GCS")
         found2 events2.
Proof.
  destruct (check_dirs_steps device dirs_to_check [] w) as [turns [H Hturns]].
  unfold dirs_to_check in Hturns.
  inversion Hturns as [|p1 [f1 e1] ? ts1 H1 Hrest]; subst.
  inversion Hrest as [|p2 [f2 e2] ? ts2 H2 Hnil]; subst.
  inversion Hnil; subst.
  exists f1, e1, f2, e2. unfold get_application_directories. rewrite H.
  simpl. rewrite !app_nil_r. split; [reflexivity | split; assumption].
Qed.

(** The test of one candidate path, from the world [w] it starts in.  The
    return code and the text are those the test command came back with
    when it was run; the path is found when, and only when, the return
    code is 0 and the cleaned text is the one word [exists]. *)
Definition probe_turn_at (device : str) (w : World) (dir_path : str)
           (found : list str) (events : list Event) : Prop :=
  exists rc stdout,
    respond env (at_shell w (exists_command dir_path) device)
            (Shell (adb_command_line (exists_command dir_path) device))
    = (rc, stdout)
    /\ events = snd (command_outcome env (exists_command dir_path) device rc stdout)
    /\ found = if ((rc =? 0)%Z && str_eqb (clean_output stdout) (lit "exists"))%bool
               then [dir_path] else [].

Lemma check_dirs_one device dir_path dirs existing w :
  exists found events,
    probe_turn_at device w dir_path found events
    /\ check_dirs env device (dir_path :: dirs) existing w
       = check_dirs env device dirs (existing ++ found) (extend w events).
Proof.
  simpl. unfold bind.
  destruct (run_adb_command_run env w (exists_command dir_path) device)
    as [rc [stdout [Hresp ->]]].
  set (o := command_outcome env (exists_command dir_path) device rc stdout).
  assert (Ho : fst o = if (rc =? 0)%Z then Some (clean_output stdout)
                       else None)
    by (unfold o, command_outcome; destruct (rc =? 0)%Z; reflexivity).
  rewrite Ho.
  exists (if ((rc =? 0)%Z && str_eqb (clean_output stdout) (lit "exists"))%bool
          then [dir_path] else []), (snd o).
  split.
  - exists rc, stdout. split; [exact Hresp|]. split; reflexivity.
  - destruct (rc =? 0)%Z;
      [destruct (str_eqb (clean_output stdout) (lit "exists"))|];
      simpl; rewrite ?app_nil_r; reflexivity.
Qed.

(** The probe tests the two candidate paths and no other, in order, the
    second from the world the first test left, and returns those whose
    test answered [exists]. *)
Lemma get_application_directories_run device w :
  exists found1 events1 found2 events2,
    get_application_directories env device w
    = (Returned (found1 ++ found2), extend w (events1 ++ events2))
    /\ probe_turn_at device w
         (lit "/sdcard/Android/data/org.mavlink.qgroundcontrol/files/PDW_GCS")
         found1 events1
    /\ probe_turn_at device (extend w events1)
         (lit "/sdcard/Android/data/ai.pdw.gcs/files/PDW_GCS")
         found2 events2.
Proof.
  unfold get_application_directories, dirs_to_check.
  destruct (check_dirs_one device
              (lit "/sdcard/Android/data/org.mavlink.qgroundcontrol/files/PDW_GCS")
              [lit "/sdcard/Android/data/ai.pdw.gcs/files/PDW_GCS"] [] w)
    as [f1 [e1 [H1 ->]]].
  destruct (check_dirs_one device
              (lit "/sdcard/Android/data/ai.pdw.gcs/files/PDW_GCS")
              [] ([] ++ f1) (extend w e1))
    as [f2 [e2 [H2 ->]]].
  exists f1, e1, f2, e2. simpl. unfold ret. rewrite extend_extend.
  split; [reflexivity | split; assumption].
Qed.

Lemma pull_recent_files_steps directory ls_command dest_dir n device w :
  exists events,
    pull_recent_files env directory ls_command dest_dir n device w
    = (Returned tt, extend w events).
Proof.
  destruct (pull_recent_files_run env directory ls_command dest_dir n
                                  device w) as [rc [out [events [_ [H _]]]]].
  exists events. exact H.
Qed.

End Probe.

(* ===================================================================== *)
(** * The run without application directories *)
(* ===================================================================== *)

Section StaticSources.
Variable env : Env.

Definition no_application_message : str :=
  lit "No valid application directories found.".

Definition zip_file_name : str :=
  os_path_join incident_dir
               (lit "QA_bug_report_" ++ timestamp env ++ lit ".zip").

(** The run that logs the warning and goes on with the two configured
    sources, the Movies folder and the Navsuite folder, and no other. *)
Definition proceed_with_static_sources
           (num_recent_files : Z) (simplified : bool) (selected_device : str)
  : M unit :=
  (print no_application_message ;;
   print (lit "Please provide a summary of the incident:") ;;
   user_summary <- input (lit "Incident Summary: ") ;;
   (if negb simplified
    then for_each directories_to_pull
           (fun directory =>
              pull_directory env directory (report_dir env) selected_device)
    else ret tt) ;;
   pull_recent_files env (lit "/sdcard/Movies")
     (lit "ls -t /sdcard/Movies | grep " ++ [34%N] ++ lit "^screen-" ++ [34%N])
     (report_dir env) num_recent_files selected_device ;;
   pull_recent_files env (lit "/sdcard/Documents/Navsuite")
     (lit "ls -t /sdcard/Documents/Navsuite")
     (report_dir env) num_recent_files selected_device ;;
   collect_logs env selected_device ;;
   create_zip env (report_dir env) zip_file_name
              (metadata_text user_summary (timestamp env) selected_device))%proc.

Lemma bind_returned (A B : Type) (m : M A) (k : A -> M B) w a w' :
  m w = (Returned a, w') -> bind m k w = k a w'.
Proof. intros H. unfold bind. rewrite H. reflexivity. Qed.

Lemma bind_ext (A B : Type) (m : M A) (k k' : A -> M B) w :
  (forall a w', k a w' = k' a w') -> bind m k w = bind m k' w.
Proof.
  intros H. unfold bind. destruct (m w) as [[a|e] w']; [apply H | reflexivity].
Qed.

Lemma for_each_two (X B : Type) (body : X -> M unit) x y (k : M B) w :
  bind (for_each [x; y] body) (fun _ => k) w
  = bind (body x) (fun _ => bind (body y) (fun _ => k)) w.
Proof.
  simpl. unfold bind, ret.
  destruct (body x w) as [[[]|e] w1]; [|reflexivity].
  destruct (body y w1) as [[[]|e] w2]; reflexivity.
Qed.

Lemma collect_logs_steps device w :
  exists events, collect_logs env device w = (Returned tt, extend w events).
Proof.
  destruct (@for_each_steps _ (collect_log env device) (log_turn env device)
              (collect_log_steps env device) log_types w) as [turns [H _]].
  exists (concat turns). exact H.
Qed.

Lemma full_copy_steps simplified device w :
  exists events,
    (if negb simplified
     then for_each directories_to_pull
            (fun directory =>
               pull_directory env directory (report_dir env) device)
     else ret tt) w
    = (Returned tt, extend w events).
Proof.
  destruct simplified; simpl.
  - exists []. unfold ret. rewrite extend_nil. reflexivity.
  - destruct (@for_each_steps _
                (fun directory =>
                   pull_directory env directory (report_dir env) device)
                (fun _ _ => True)) with (xs := directories_to_pull) (w := w)
      as [turns [H _]].
    + intros x w0.
      destruct (pull_directory_steps env x (report_dir env) device w0)
        as [events H].
      exists events. split; [exact H | exact I].
    + exists (concat turns). exact H.
Qed.

Lemma create_zip_steps source_dir output_filename metadata w :
  write_file metadata_name metadata (disk env (trace w) source_dir) <> None ->
  create_zip env source_dir output_filename metadata w
  = (Returned tt,
     extend w [Wrote (os_path_join source_dir metadata_name) metadata;
               Archived output_filename
                        (walk (disk env (trace w) source_dir)
                         ++ [(metadata_name, metadata)]);
               Printed (lit "Incident report created: " ++ output_filename)]).
Proof.
  intros H. unfold create_zip.
  destruct (write_file metadata_name metadata (disk env (trace w) source_dir));
    [|contradiction].
  proc. rewrite <- !app_assoc. reflexivity.
Qed.

Lemma main_without_application_directories n s w device w1 w2 :
  bind (get_connected_devices env) (select_device env) w
  = (Returned device, w1) ->
  get_application_directories env device
    (extend w1 [Printed (lit "Selected device: " ++ device)])
  = (Returned [], w2) ->
  main env n s w = proceed_with_static_sources n s device w2.
Proof.
  intros Hsel Hprobe. unfold main. unfold bind in Hsel.
  unfold bind at 1.
  destruct (get_connected_devices env w) as [[devices|e] w0];
    [|discriminate].
  unfold bind at 1. rewrite Hsel.
  unfold bind at 1, print at 1, emit.
  fold (extend w1 [Printed (lit "Selected device: " ++ device)]).
  unfold bind at 1. rewrite Hprobe.
  unfold proceed_with_static_sources.
  apply bind_ext; intros _ w3.
  apply bind_ext; intros _ w4.
  apply bind_ext; intros user_summary w5.
  apply bind_ext; intros _ w6.
  apply (@for_each_two _ _
           (fun c => pull_recent_files env (fst c) (snd c) (report_dir env)
                                       n device)).
Qed.

End StaticSources.

Section ProbeClaims.
Variable env : Env.

Lemma input_line prompt w line rest :
  stdin w = line :: rest ->
  input prompt w
  = (Returned line, {| stdin := rest; trace := trace w ++ [Prompted prompt] |}).
Proof. intros H. unfold input. rewrite H. reflexivity. Qed.

(** The run with the configured sources only adds to the trace, and what
    it adds begins with the warning. *)
Lemma proceed_with_static_sources_warns n s device w :
  exists later,
    trace (snd (proceed_with_static_sources env n s device w))
    = trace w ++ Printed no_application_message :: later.
Proof.
  unfold proceed_with_static_sources.
  rewrite (@bind_returned _ _ _ _ w tt
             (extend w [Printed no_application_message]) eq_refl).
  set (w1 := extend w [Printed no_application_message]).
  rewrite (@bind_returned _ _ _ _ w1 tt
             (extend w1 [Printed (lit "Please provide a summary of the incident:")])
             eq_refl).
  set (w2 := extend w1 _).
  destruct (stdin w2) as [|user_summary rest] eqn:Hin.
  - unfold bind at 1, input. rewrite Hin. eexists.
    unfold w2, w1, extend. cbn [stdin trace snd].
    rewrite <- !app_assoc. reflexivity.
  - rewrite (@bind_returned _ _ _ _ w2 _ _ (input_line _ w2 Hin)).
    set (w3 := {| stdin := rest; trace := _ |}).
    destruct (full_copy_steps env s device w3) as [e4 H4].
    rewrite (@bind_returned _ _ _ _ _ _ _ H4).
    destruct (pull_recent_files_steps env (lit "/sdcard/Movies")
                (lit "ls -t /sdcard/Movies | grep " ++ [34%N]
                 ++ lit "^screen-" ++ [34%N])
                (report_dir env) n device (extend w3 e4)) as [e5 H5].
    rewrite (@bind_returned _ _ _ _ _ _ _ H5).
    destruct (pull_recent_files_steps env (lit "/sdcard/Documents/Navsuite")
                (lit "ls -t /sdcard/Documents/Navsuite")
                (report_dir env) n device (extend (extend w3 e4) e5))
      as [e6 H6].
    rewrite (@bind_returned _ _ _ _ _ _ _ H6).
    destruct (collect_logs_steps env device
                (extend (extend (extend w3 e4) e5) e6)) as [e7 H7].
    rewrite (@bind_returned _ _ _ _ _ _ _ H7).
    unfold create_zip.
    destruct (write_file metadata_name _ _); proc; eexists;
      unfold w3, w2, w1, extend; cbn [stdin trace];
      rewrite <- !app_assoc; reflexivity.
Qed.

(** C9.  [get_application_directories] tests the two candidate paths and
    no other, in order, and returns those whose test, as the device
    answered it, came back with return code 0 and the one word [exists].
    When it returns none, the list of recent-file sources is the two
    configured ones, the run is the one that logs the warning and goes on
    with those two sources only, and the warning is the next thing it
    adds to the trace. *)
Theorem no_application_directory_leaves_static_sources
  (w : World) (n : Z) (s : bool) (device : str) (w1 w2 : World) :
  bind (get_connected_devices env) (select_device env) w
  = (Returned device, w1) ->
  get_application_directories env device
    (extend w1 [Printed (lit "Selected device: " ++ device)])
  = (Returned [], w2) ->
  (forall w0 dev, exists found1 events1 found2 events2,
      get_application_directories env dev w0
      = (Returned (found1 ++ found2), extend w0 (events1 ++ events2))
      /\ probe_turn_at env dev w0
           (lit "/sdcard/Android/data/org.mavlink.qgroundcontrol/files/PDW_GCS")
           found1 events1
      /\ probe_turn_at env dev (extend w0 events1)
           (lit "/sdcard/Android/data/ai.pdw.gcs/files/PDW_GCS")
           found2 events2)
  /\ recent_file_commands [] = static_recent_file_commands
  /\ length (recent_file_commands []) = 2
  /\ main env n s w = proceed_with_static_sources env n s device w2
  /\ (exists later,
        trace (snd (main env n s w))
        = trace w2 ++ Printed no_application_message :: later).
Proof.
  intros Hsel Hprobe.
  pose proof (@main_without_application_directories env n s w device w1 w2
                Hsel Hprobe) as Hmain.
  split; [intros w0 dev; apply get_application_directories_run|].
  split; [reflexivity|]. split; [reflexivity|]. split; [exact Hmain|].
  rewrite Hmain. apply proceed_with_static_sources_warns.
Qed.

End ProbeClaims.

(** One device attached; every shell command comes back with no text, so
    neither application directory is found. *)
Definition bare_device : Env :=
  scripted (fun c => match c with
                     | Argv [_; _] =>
                         (0%Z, listing (lit "List of devices attached")
                                       [lit "emulator-5554" ++ TAB :: lit "device"]
                                       [LF; LF])
                     | _ => (0%Z, [])
                     end) [].

Lemma no_application_directory_leaves_static_sources_witness :
  main bare_device 5 true (start [lit "the map froze"])
  = proceed_with_static_sources bare_device 5 true a_device
      (snd (get_application_directories bare_device a_device
              (extend (snd (bind (get_connected_devices bare_device)
                                 (select_device bare_device)
                                 (start [lit "the map froze"])))
                      [Printed (lit "Selected device: " ++ a_device)]))).
Proof.
  destruct (@no_application_directory_leaves_static_sources bare_device
              (start [lit "the map froze"]) 5%Z true a_device
              (snd (bind (get_connected_devices bare_device)
                         (select_device bare_device)
                         (start [lit "the map froze"])))
              (snd (get_application_directories bare_device a_device
                      (extend (snd (bind (get_connected_devices bare_device)
                                         (select_device bare_device)
                                         (start [lit "the map froze"])))
                              [Printed (lit "Selected device: " ++ a_device)]))))
    as [_ [_ [_ [H1 _]]]].
  - vm_compute. reflexivity.
  - vm_compute. reflexivity.
  - exact H1.
Defined.

(* ===================================================================== *)
(** * Packaging *)
(* ===================================================================== *)

Section TreeFacts.

Definition named (p : str) (m : member) : bool := str_eqb (fst m) p.

Definition subwalks (d : dir) : archive :=
  flat_map (fun e => walk_node (os_path_join [] (fst e)) (snd e)) d.

Lemma str_eqb_eq a b : str_eqb a b = true <-> a = b.
Proof.
  unfold str_eqb. destruct (list_eq_dec N.eq_dec a b); split; intros H;
    congruence.
Qed.

Lemma str_eqb_neq a b : a <> b -> str_eqb a b = false.
Proof.
  intros H. destruct (str_eqb a b) eqn:E; [|reflexivity].
  apply str_eqb_eq in E. contradiction.
Qed.

Lemma os_path_join_nil name : os_path_join [] name = name.
Proof. unfold os_path_join. destruct (startswith [SLASH] name); reflexivity. Qed.

Lemma walk_split d : walk d = files_of [] d ++ subwalks d.
Proof. reflexivity. Qed.

(** Writing a file in the directory changes its walk in one place: the
    member of that name gets the new content, or is added after the other
    files of the directory. *)
Lemma write_file_walk name content : forall d d',
  write_file name content d = Some d' ->
  subwalks d' = subwalks d
  /\ exists f1 f2 old,
      files_of [] d' = f1 ++ (name, content) :: f2
      /\ files_of [] d = f1 ++ old ++ f2
      /\ (old = [] \/ exists c0, old = [(name, c0)]).
Proof.
  induction d as [|[n x] d IH]; intros d' H; simpl in H.
  - inversion H; subst. split; [reflexivity|].
    exists [], [], []. simpl. rewrite os_path_join_nil.
    repeat split. left. reflexivity.
  - destruct (str_eqb n name) eqn:E.
    + apply str_eqb_eq in E. subst n. destruct x as [c0|sub]; [|discriminate].
      inversion H; subst. split; [reflexivity|].
      exists [], (files_of [] d), [(name, c0)]. simpl.
      rewrite os_path_join_nil. repeat split. right. exists c0. reflexivity.
    + destruct (write_file name content d) as [d0|] eqn:Hw; [|discriminate].
      inversion H; subst. destruct (IH d0 eq_refl) as [Hs [f1 [f2 [old [H1 [H2 Ho]]]]]].
      split.
      * unfold subwalks in *. simpl. rewrite Hs. reflexivity.
      * destruct x as [cx|sub]; simpl.
        -- exists ((os_path_join [] n, cx) :: f1), f2, old.
           rewrite H1, H2. repeat split. exact Ho.
        -- exists f1, f2, old. repeat split; assumption.
Qed.

Lemma write_file_again name c c' : forall d d',
  write_file name c d = Some d' -> write_file name c' d' <> None.
Proof.
  induction d as [|[n x] d IH]; intros d' H; simpl in H.
  - inversion H; subst. simpl. rewrite (proj2 (str_eqb_eq name name) eq_refl).
    discriminate.
  - destruct (str_eqb n name) eqn:E.
    + destruct x; [|discriminate]. inversion H; subst. simpl. rewrite E.
      discriminate.
    + destruct (write_file name c d) as [d0|] eqn:Hw; [|discriminate].
      inversion H; subst. simpl. rewrite E.
      specialize (IH d0 eq_refl).
      destruct (write_file name c' d0); [discriminate | contradiction].
Qed.

Lemma write_file_any_content name c c' : forall d,
  write_file name c d <> None -> write_file name c' d <> None.
Proof.
  induction d as [|[n x] d IH]; simpl; [discriminate|].
  destruct (str_eqb n name).
  - destruct x; [discriminate | auto].
  - destruct (write_file name c d); [|contradiction].
    intros _. destruct (write_file name c' d); [discriminate|].
    exfalso. apply IH; [discriminate | reflexivity].
Qed.

Lemma read_last a name content : read (a ++ [(name, content)]) name = Some content.
Proof.
  induction a as [|[n c] a IH]; simpl.
  - rewrite (proj2 (str_eqb_eq name name) eq_refl). reflexivity.
  - rewrite IH. reflexivity.
Qed.

Lemma named_other p name (content : str) :
  p <> name -> named p (name, content) = false.
Proof. intros H. unfold named. simpl. apply str_eqb_neq. congruence. Qed.

Lemma filter_named_other p name content a :
  p <> name ->
  filter (named p) (a ++ [(name, content)]) = filter (named p) a.
Proof.
  intros H. rewrite filter_app. simpl. rewrite (named_other content H).
  apply app_nil_r.
Qed.

End TreeFacts.

Section Packaging.
Variable env : Env.

(** What [create_zip] adds to the trace when it succeeds. *)
Definition packaged (source_dir output_filename metadata : str) (a : archive)
  : list Event :=
  [Wrote (os_path_join source_dir metadata_name) metadata;
   Archived output_filename a;
   Printed (lit "Incident report created: " ++ output_filename)].

Lemma names_app (a b : archive) : names (a ++ b) = names a ++ names b.
Proof. apply map_app. Qed.

(** C1.  Two runs of [create_zip] over a report directory that nothing
    else touches, with metadata that differ in the timestamp only: the
    second run finds the directory as the first one found it, or as the
    first one left it (with the metadata file of the first run in it).
    The report directory holds no directory named [metadata.txt], so the
    first run succeeds.  Then both runs succeed; the two archives hold the
    same set of relative paths; under every path but [metadata.txt] they
    hold the same contents; and [metadata.txt] reads as the metadata of
    the run, which differ in the timestamp.  When the second run finds
    the directory as the first one found it, the two archives are the same
    members in the same order up to the last, [metadata.txt]. *)
Theorem create_zip_twice_same_paths_and_contents
  (w1 w2 : World) (source_dir out1 out2 : str)
  (user_summary device t1 t2 : str) (d d2 : dir) :
  let m1 := metadata_text user_summary t1 device in
  let m2 := metadata_text user_summary t2 device in
  disk env (trace w1) source_dir = d ->
  write_file metadata_name m1 d <> None ->
  disk env (trace w2) source_dir = d2 ->
  d2 = d \/ write_file metadata_name m1 d = Some d2 ->
  exists a1 a2,
    create_zip env source_dir out1 m1 w1
    = (Returned tt, extend w1 (packaged source_dir out1 m1 a1))
    /\ create_zip env source_dir out2 m2 w2
       = (Returned tt, extend w2 (packaged source_dir out2 m2 a2))
    /\ (forall p, In p (names a1) <-> In p (names a2))
    /\ (forall p, p <> metadata_name ->
                  filter (named p) a1 = filter (named p) a2)
    /\ read a1 metadata_name = Some m1
    /\ read a2 metadata_name = Some m2
    /\ (d2 = d ->
        exists common,
          a1 = common ++ [(metadata_name, m1)]
          /\ a2 = common ++ [(metadata_name, m2)]).
Proof.
  intros m1 m2 Hd Hw1 Hd2 Hsame.
  assert (Hw2 : write_file metadata_name m2 d2 <> None).
  { destruct Hsame as [-> | Hs].
    - eapply write_file_any_content, Hw1.
    - eapply write_file_again, Hs. }
  exists (walk d ++ [(metadata_name, m1)]), (walk d2 ++ [(metadata_name, m2)]).
  split; [rewrite create_zip_steps by (rewrite Hd; exact Hw1);
          rewrite Hd; reflexivity|].
  split; [rewrite create_zip_steps by (rewrite Hd2; exact Hw2);
          rewrite Hd2; reflexivity|].
  split; [|split; [|split; [apply read_last | split; [apply read_last|]]]].
  - intros p. destruct Hsame as [-> | Hs];
      [rewrite !names_app; reflexivity|].
    destruct (write_file_walk _ _ _ Hs) as [Hsub [f1 [f2 [old [H1 [H2 Ho]]]]]].
    rewrite !walk_split, Hsub, H1, H2. unfold names.
    destruct Ho as [-> | [c0 ->]];
      repeat (rewrite ?map_app, ?in_app_iff; simpl); tauto.
  - intros p Hp. rewrite !filter_named_other by exact Hp.
    destruct Hsame as [-> | Hs]; [reflexivity|].
    destruct (write_file_walk _ _ _ Hs) as [Hsub [f1 [f2 [old [H1 [H2 Ho]]]]]].
    rewrite !walk_split, Hsub, H1, H2, !filter_app. simpl.
    rewrite (named_other m1 Hp).
    destruct Ho as [-> | [c0 ->]]; simpl; [reflexivity|].
    rewrite (named_other c0 Hp). reflexivity.
  - intros ->. exists (walk d). split; reflexivity.
Qed.

End Packaging.

(** A report directory, and a disk that keeps what [create_zip] writes to
    it: every metadata file written so far is in the directory. *)
Definition a_report : dir :=
  [ (lit "Device Info", Dir [(lit "logcat_01-02-2024_03:04:05.txt",
                              File (lit "boot completed"))]);
    (lit "notes.txt", File (lit "seen twice")) ].

Definition keeping_disk : Env :=
  {| respond := fun _ _ => (0%Z, []);
     disk := fun tr _ =>
               fold_left (fun d pc =>
                            match write_file metadata_name (snd pc) d with
                            | Some d' => d'
                            | None => d
                            end)
                         (wrote tr) a_report;
     int_of_str := decimal;
     error_text := fun _ _ => [];
     timestamp := lit "01-02-2024_03:04:05" |}.

Lemma create_zip_twice_same_paths_and_contents_witness :
  let m1 := metadata_text (lit "froze") (lit "01-02-2024_03:04:05") a_device in
  let m2 := metadata_text (lit "froze") (lit "01-02-2024_03:09:41") a_device in
  let first := create_zip keeping_disk (lit "report") (lit "one.zip") m1
                          (start []) in
  exists a1 a2,
    first = (Returned tt,
             extend (start []) (packaged (lit "report") (lit "one.zip") m1 a1))
    /\ create_zip keeping_disk (lit "report") (lit "two.zip") m2 (snd first)
       = (Returned tt,
          extend (snd first) (packaged (lit "report") (lit "two.zip") m2 a2))
    /\ (forall p, In p (names a1) <-> In p (names a2))
    /\ (forall p, p <> metadata_name ->
                  filter (named p) a1 = filter (named p) a2)
    /\ read a1 metadata_name = Some m1
    /\ read a2 metadata_name = Some m2.
Proof.
  intros m1 m2 first.
  destruct (@create_zip_twice_same_paths_and_contents keeping_disk
              (start []) (snd first) (lit "report") (lit "one.zip")
              (lit "two.zip") (lit "froze") a_device
              (lit "01-02-2024_03:04:05") (lit "01-02-2024_03:09:41")
              a_report
              (a_report ++ [(metadata_name, File m1)]))
    as [a1 [a2 [H1 [H2 [H3 [H4 [H5 [H6 _]]]]]]]].
  - reflexivity.
  - vm_compute. discriminate.
  - vm_compute. reflexivity.
  - right. vm_compute. reflexivity.
  - exists a1, a2. repeat split; try assumption; apply H3.
Defined.

(* ===================================================================== *)
(** * More about discovery *)
(* ===================================================================== *)

Section DiscoveryMore.
Variable env : Env.

(** An identifier: at least one character, none of them whitespace. *)
Definition identifier (d : str) : Prop :=
  d <> [] /\ forallb (fun c => negb (isspace c)) d = true.

Lemma split_from_tokens : forall s cur,
  forallb (fun c => negb (isspace c)) cur = true ->
  Forall identifier (split_from cur s).
Proof.
  assert (Hrev : forall cur x,
             forallb (fun c => negb (isspace c)) (x :: cur) = true ->
             identifier (rev (x :: cur))).
  { intros cur x H. split.
    - simpl. destruct (rev cur); discriminate.
    - rewrite forallb_forall in *. intros c Hc. apply H, in_rev, Hc. }
  induction s as [|c s IH]; intros cur Hcur; simpl.
  - destruct cur as [|x cur]; constructor; [apply Hrev, Hcur | constructor].
  - destruct (isspace c) eqn:Hc.
    + destruct cur as [|x cur]; [apply IH; reflexivity|].
      constructor; [apply Hrev, Hcur | apply IH; reflexivity].
    + apply IH. simpl. rewrite Hc, Hcur. reflexivity.
Qed.

Lemma device_ids_identifiers : forall lines ds,
  device_ids lines = Some ds -> Forall identifier ds.
Proof.
  induction lines as [|l lines IH]; simpl; intros ds H.
  - inversion H. constructor.
  - destruct (py_in (lit "device") l); [|apply IH, H].
    pose proof (@split_from_tokens l [] eq_refl) as Ht. fold (split l) in Ht.
    destruct (split l) as [|token rest]; [discriminate|].
    destruct (device_ids lines) as [ds'|]; [|discriminate].
    inversion H; subst. inversion Ht; subst.
    constructor; [assumption | apply IH; reflexivity].
Qed.

(** What discovery adds to the trace for a return code. *)
Definition discovery_events (rc : Z) : list Event :=
  Ran adb_devices rc
  :: if (rc =? 0)%Z then []
     else [Printed (lit "Error listing ADB devices: "
                    ++ error_text env adb_devices rc)].

Lemma get_connected_devices_run w :
  exists devices rc stdout,
    respond env (trace w) adb_devices = (rc, stdout)
    /\ get_connected_devices env w
       = (Returned devices, extend w (discovery_events rc))
    /\ (rc <> 0%Z -> devices = [])
    /\ (rc = 0%Z -> parse_devices stdout = Some devices).
Proof.
  destruct (respond env (trace w) adb_devices) as [rc stdout] eqn:E.
  unfold discovery_events. destruct (rc =? 0)%Z eqn:Hrc.
  - apply Z.eqb_eq in Hrc. subst rc.
    destruct (get_connected_devices_succeeds env w E) as [ds [Hp Hg]].
    exists ds, 0%Z, stdout.
    split; [reflexivity|]. split; [exact Hg|].
    split; [intros H; contradiction | intros _; exact Hp].
  - apply Z.eqb_neq in Hrc. exists [], rc, stdout.
    rewrite (get_connected_devices_fails env w E Hrc).
    rewrite (proj2 (Z.eqb_neq _ _) Hrc).
    split; [reflexivity|]. split; [reflexivity|].
    split; [reflexivity | intros H; contradiction].
Qed.

(** X1.  The comprehension of [get_connected_devices] cannot raise
    [IndexError]: a line that contains the marker has a token, so every
    text [adb devices] may print parses to a list.  When the command comes
    back with return code 0 and a text, discovery returns the list parsed
    from that text, having run that one command. *)
Theorem get_connected_devices_never_raises_index_error
  (w : World) (stdout : str) :
  respond env (trace w) adb_devices = (0%Z, stdout) ->
  exists devices,
    parse_devices stdout = Some devices
    /\ get_connected_devices env w
       = (Returned devices, extend w [Ran adb_devices 0]).
Proof. apply get_connected_devices_succeeds. Qed.

Lemma get_connected_devices_identifiers w w' devices :
  get_connected_devices env w = (Returned devices, w') ->
  Forall identifier devices.
Proof.
  intros H.
  destruct (get_connected_devices_run w)
    as [ds [rc [stdout [_ [Hg [Hfail Hok]]]]]].
  rewrite Hg in H. inversion H; subst.
  destruct (Z.eq_dec rc 0) as [Hz | Hnz].
  - eapply device_ids_identifiers. apply Hok, Hz.
  - rewrite (Hfail Hnz). constructor.
Qed.

(** X2.  Whatever [adb devices] prints, every identifier that
    [get_connected_devices] returns is a non-empty string without
    whitespace. *)
Theorem get_connected_devices_returns_identifiers
  (w w' : World) (devices : list str) :
  get_connected_devices env w = (Returned devices, w') ->
  Forall identifier devices.
Proof. apply get_connected_devices_identifiers. Qed.

End DiscoveryMore.

(** A listing without a header, whose second line is the bare marker
    between blanks. *)
Definition bare_marker : str := lit "device" ++ LF :: lit "   device   ".

Lemma get_connected_devices_never_raises_index_error_witness :
  exists devices,
    parse_devices bare_marker = Some devices
    /\ get_connected_devices (scripted (fun _ => (0%Z, bare_marker)) [])
                             (start [])
       = (Returned devices, extend (start []) [Ran adb_devices 0]).
Proof.
  apply (@get_connected_devices_never_raises_index_error
           (scripted (fun _ => (0%Z, bare_marker)) []) (start []) bare_marker).
  reflexivity.
Defined.

Lemma get_connected_devices_returns_identifiers_witness :
  Forall identifier [lit "emulator-5554"; lit "R58M123ABC"].
Proof.
  apply (@get_connected_devices_returns_identifiers
           (scripted (fun _ => (0%Z, two_devices)) []) (start [])
           (extend (start []) [Ran adb_devices 0])).
  vm_compute. reflexivity.
Defined.

Section MixedListing.
Variable env : Env.

Definition marked (l : str) : bool := py_in (lit "device") l.

Lemma device_ids_filter ls :
  device_ids ls = Some (map first_token (filter marked ls)).
Proof.
  unfold marked. induction ls as [|l ls IH]; simpl; [reflexivity|].
  destruct (py_in (lit "device") l) eqn:Hl; [|exact IH].
  destruct (split_first_token (marker_visible _ Hl)) as [r ->].
  rewrite IH. reflexivity.
Qed.

Lemma blank_not_visible s : blank s -> visible s -> False.
Proof.
  unfold blank, visible. rewrite forallb_forall, existsb_exists.
  intros Hb [c [Hc Hv]]. rewrite (Hb c Hc) in Hv. discriminate.
Qed.

Lemma blank_app a b : blank a -> blank b -> blank (a ++ b).
Proof. unfold blank. rewrite forallb_app. intros -> ->. reflexivity. Qed.

Lemma marked_rstrip l : marked (rstrip l) = marked l.
Proof.
  unfold marked. destruct (py_in (lit "device") l) eqn:Hl.
  - apply marker_rstrip, Hl.
  - destruct (py_in (lit "device") (rstrip l)) eqn:Hr; [|reflexivity].
    apply py_in_iff in Hr as [a [b Hab]].
    destruct (rstrip_split l) as [t [_ E]].
    assert (H : py_in (lit "device") l = true).
    { apply py_in_iff. exists a, (b ++ t). rewrite E, Hab.
      rewrite <- !app_assoc. reflexivity. }
    congruence.
Qed.

Lemma first_token_rstrip l : visible l -> first_token (rstrip l) = first_token l.
Proof.
  intros Hv.
  destruct (split_first_token Hv) as [r1 H1].
  destruct (split_first_token (rstrip_visible Hv)) as [r2 H2].
  rewrite split_rstrip, H1 in H2. congruence.
Qed.

Lemma listing_blank_last header ls last trailer :
  listing header (ls ++ [last]) trailer
  = listing header ls (LF :: last ++ trailer).
Proof.
  unfold listing. rewrite map_app, concat_app. simpl.
  rewrite app_nil_r, <- !app_assoc. reflexivity.
Qed.

(** What [parse_devices] makes of a listing in which only some lines hold
    the marker. *)
Lemma parse_devices_mixed header : forall lines trailer,
  one_line header -> visible header ->
  Forall one_line lines ->
  blank trailer ->
  parse_devices (listing header lines trailer)
  = Some (map first_token (filter marked lines)).
Proof.
  induction lines as [|last ls IH] using rev_ind; intros trailer H1 Hv Hls Ht.
  - apply (@parse_devices_listing header [] trailer); auto.
  - apply Forall_app in Hls as [Hls Hlast].
    inversion Hlast as [|? ? Hl1 _]; subst.
    destruct (blank_or_visible last) as [Hb | Hvl].
    + rewrite listing_blank_last, IH; try assumption.
      * rewrite filter_app. simpl.
        destruct (marked last) eqn:Hm; [|rewrite app_nil_r; reflexivity].
        exfalso. apply (blank_not_visible Hb). apply marker_visible, Hm.
      * apply (@blank_app [LF]); [reflexivity | apply blank_app; assumption].
    + unfold parse_devices, listing, strip.
      rewrite lstrip_visible_app by exact Hv.
      rewrite map_app, concat_app. simpl. rewrite app_nil_r.
      rewrite rstrip_middle by assumption. unfold splitlines.
      rewrite splitlines_from_lines.
      * simpl. rewrite device_ids_filter, !filter_app. simpl.
        rewrite marked_rstrip. destruct (marked last); [|reflexivity].
        rewrite !map_app. simpl. rewrite first_token_rstrip by exact Hvl.
        reflexivity.
      * apply one_line_lstrip, H1.
      * exact Hls.
      * apply one_line_rstrip, Hl1.
      * intros E. apply rstrip_visible in Hvl. rewrite E in Hvl. discriminate.
Qed.

(** X3.  In a listing of a header line and any lines, [get_connected_devices]
    returns the first token of each line that contains [device] and of no
    other: a line without the marker (a device that is offline or
    unauthorized, a blank line) is skipped, and a line with the marker
    anywhere in it counts, whatever its first token is.  The order of the
    lines is kept. *)
Theorem get_connected_devices_keeps_marked_lines
  (w : World) (header : str) (lines : list str) (trailer : str) :
  one_line header -> visible header ->
  Forall one_line lines ->
  blank trailer ->
  respond env (trace w) adb_devices = (0%Z, listing header lines trailer) ->
  fst (get_connected_devices env w)
  = Returned (map first_token (filter marked lines)).
Proof.
  intros H1 Hv Hls Ht Hrun.
  destruct (get_connected_devices_succeeds env w Hrun) as [ds [Hp ->]].
  rewrite parse_devices_mixed in Hp by assumption.
  inversion Hp. reflexivity.
Qed.

End MixedListing.

(** One device ready, one offline, one unauthorized, and one that [adb]
    has no permission for: the message about it holds the marker. *)
Definition mixed_devices : list str :=
  [ lit "emulator-5554" ++ TAB :: lit "device";
    lit "R58M123ABC" ++ TAB :: lit "offline";
    lit "0A1B2C3D" ++ TAB :: lit "unauthorized";
    lit "????????????" ++ TAB
    :: lit "no permissions; see [http://developer.android.com/tools/device.html]" ].

Lemma get_connected_devices_keeps_marked_lines_witness :
  fst (get_connected_devices
         (scripted (fun _ => (0%Z, listing (lit "List of devices attached")
                                           mixed_devices [LF; LF])) [])
         (start []))
  = Returned [lit "emulator-5554"; lit "????????????"].
Proof.
  apply (@get_connected_devices_keeps_marked_lines
           (scripted (fun _ => (0%Z, listing (lit "List of devices attached")
                                             mixed_devices [LF; LF])) [])
           (start []) (lit "List of devices attached") mixed_devices [LF; LF]).
  - reflexivity.
  - reflexivity.
  - repeat constructor.
  - reflexivity.
  - reflexivity.
Defined.

(* ===================================================================== *)
(** * More about selection *)
(* ===================================================================== *)

Section SelectionMore.
Variable env : Env.

Lemma ask_member devices w d w' :
  ask env devices w = (Returned (Some d), w') -> In d devices.
Proof.
  unfold ask. proc. destruct (stdin w) as [|line rest]; [discriminate|].
  destruct (int_of_str env line) as [c|]; proc; [|discriminate].
  destruct ((1 <=? c) && (c <=? Z.of_nat (length devices)))%Z eqn:E; proc;
    [|discriminate].
  intros H. inversion H; subst. apply in_range_test in E.
  unfold in_range in E. apply nth_In. lia.
Qed.

Lemma ask_until_member devices : forall n w d w',
  ask_until env devices n w = (Returned d, w') -> In d devices.
Proof.
  induction n as [|n IH]; intros w d w'; simpl; unfold bind;
    destruct (ask env devices w) as [[[x|]|e] w1] eqn:E; try discriminate.
  - intros H. inversion H; subst. eapply ask_member, E.
  - intros H. inversion H; subst. eapply ask_member, E.
  - apply IH.
Qed.

Lemma select_device_member devices w d w' :
  select_device env devices w = (Returned d, w') -> In d devices.
Proof.
  destruct devices as [|d1 [|d2 ds]]; unfold select_device.
  - proc. discriminate.
  - proc. intros H. inversion H. left. reflexivity.
  - unfold bind at 1, print, emit. unfold bind at 1.
    rewrite (print_numbered_trace (d1 :: d2 :: ds) 1).
    apply ask_until_member.
Qed.

(** X4.  Whatever is typed and however [int] reads it, a device that
    [select_device] returns is one of the devices it was given. *)
Theorem select_device_returns_a_listed_device
  (devices : list str) (w w' : World) (d : str) :
  select_device env devices w = (Returned d, w') -> In d devices.
Proof. apply select_device_member. Qed.

Lemma ask_at_end devices w :
  stdin w = [] ->
  ask env devices w
  = (Raised EOFError,
     {| stdin := []; trace := trace w ++ [Prompted select_prompt] |}).
Proof. intros H. unfold ask. proc. rewrite H. reflexivity. Qed.

Lemma ask_until_end devices : forall lines n w,
  stdin w = lines ->
  Forall (rejected env devices) lines ->
  length lines <= n ->
  ask_until env devices n w
  = (Raised EOFError,
     {| stdin := [];
        trace := trace w
                 ++ flat_map (fun line => [Prompted select_prompt;
                                           Printed (rejection env line)]) lines
                 ++ [Prompted select_prompt] |}).
Proof.
  induction lines as [|b lines IH]; intros n w Hin Hbad Hn.
  - destruct n; simpl; unfold bind; rewrite (ask_at_end devices w Hin);
      reflexivity.
  - inversion Hbad as [|? ? Hb Hbad']; subst.
    destruct n as [|n]; [simpl in Hn; lia|].
    simpl. unfold bind. rewrite (@ask_rejected env devices w b lines Hin Hb).
    rewrite (IH n); try assumption.
    + simpl. rewrite <- app_assoc. reflexivity.
    + reflexivity.
    + simpl in Hn. lia.
Qed.

(** X5.  With two devices or more, when standard input ends before a line
    is accepted, [select_device] has answered each line with its message
    and asked once more, and the [EOFError] of [input] leaves it: nothing
    in the script catches it, and the process ends with status 1. *)
Theorem select_device_raises_at_end_of_input
  (devices : list str) (w : World) :
  2 <= length devices ->
  Forall (rejected env devices) (stdin w) ->
  select_device env devices w
  = (Raised EOFError,
     {| stdin := [];
        trace := trace w
                 ++ Printed (lit "Multiple devices detected:")
                    :: numbered_from 1 devices
                 ++ flat_map (fun line => [Prompted select_prompt;
                                           Printed (rejection env line)])
                             (stdin w)
                 ++ [Prompted select_prompt] |})
  /\ exit_status (fst (select_device env devices w)) = 1%Z.
Proof.
  intros Hlen Hbad.
  assert (H : select_device env devices w
              = (Raised EOFError,
                 {| stdin := [];
                    trace := trace w
                             ++ Printed (lit "Multiple devices detected:")
                                :: numbered_from 1 devices
                             ++ flat_map (fun line =>
                                            [Prompted select_prompt;
                                             Printed (rejection env line)])
                                         (stdin w)
                             ++ [Prompted select_prompt] |})).
  { destruct devices as [|d1 [|d2 ds]]; [simpl in Hlen; lia.. |].
    unfold select_device. unfold bind at 1, print, emit.
    unfold bind at 1. rewrite (print_numbered_trace (d1 :: d2 :: ds) 1).
    rewrite (@ask_until_end (d1 :: d2 :: ds) (stdin w)); try assumption.
    - unfold extend. cbn [stdin trace]. rewrite <- !app_assoc. reflexivity.
    - reflexivity.
    - cbn [stdin extend]. lia. }
  rewrite H. split; reflexivity.
Qed.

End SelectionMore.

Lemma select_device_returns_a_listed_device_witness :
  In (lit "R58M123ABC") [lit "emulator-5554"; lit "R58M123ABC"].
Proof.
  apply (@select_device_returns_a_listed_device
           (scripted (fun _ => (0%Z, [])) [])
           [lit "emulator-5554"; lit "R58M123ABC"]
           (start [lit "2"])
           {| stdin := [];
              trace := [Printed (lit "Multiple devices detected:");
                        Printed (lit "1: emulator-5554");
                        Printed (lit "2: R58M123ABC");
                        Prompted (lit "Select a device by number: ")] |}).
  vm_compute. reflexivity.
Defined.

Lemma select_device_raises_at_end_of_input_witness :
  exit_status
    (fst (select_device (scripted (fun _ => (0%Z, [])) [])
                        [lit "emulator-5554"; lit "R58M123ABC"]
                        (start [lit "three"; lit "3"])))
  = 1%Z.
Proof.
  apply (@select_device_raises_at_end_of_input
           (scripted (fun _ => (0%Z, [])) [])
           [lit "emulator-5554"; lit "R58M123ABC"]
           (start [lit "three"; lit "3"])).
  - simpl. lia.
  - constructor; [exact I|]. constructor; [|constructor].
    change (~ in_range [lit "emulator-5554"; lit "R58M123ABC"] 3).
    unfold in_range. simpl. lia.
Defined.

(* ===================================================================== *)
(** * More about the bridge-command primitive *)
(* ===================================================================== *)

Section BridgeCommandMore.
Variable env : Env.

(** [a] is [b] with some characters left out. *)
Inductive subseq : str -> str -> Prop :=
| subseq_nil : subseq [] []
| subseq_keep c a b : subseq a b -> subseq (c :: a) (c :: b)
| subseq_drop c a b : subseq a b -> subseq a (c :: b).

Lemma subseq_refl a : subseq a a.
Proof. induction a; constructor; assumption. Qed.

Lemma subseq_suffix a b : subseq b (a ++ b).
Proof. induction a; simpl; [apply subseq_refl | constructor; assumption]. Qed.

Lemma subseq_prefix a b : subseq a (a ++ b).
Proof.
  induction a as [|c a IH]; simpl.
  - induction b; constructor; assumption.
  - constructor. exact IH.
Qed.

Lemma subseq_trans a b c : subseq a b -> subseq b c -> subseq a c.
Proof.
  intros Hab Hbc. revert a Hab.
  induction Hbc as [|x b c Hbc IH|x b c Hbc IH]; intros a Hab.
  - exact Hab.
  - inversion Hab; subst.
    + constructor. apply IH. assumption.
    + apply subseq_drop. apply IH. assumption.
  - apply subseq_drop. apply IH. exact Hab.
Qed.

Lemma subseq_length a b : subseq a b -> length a <= length b.
Proof. induction 1; simpl; lia. Qed.

Lemma re_sub_ansi_subseq n : forall s,
  length s <= n -> subseq (re_sub_ansi s) s.
Proof.
  induction n as [|n IH]; intros s Hn.
  - destruct s; [|simpl in Hn; lia].
    rewrite re_sub_ansi_equation_1. constructor.
  - destruct s as [|c s]; [rewrite re_sub_ansi_equation_1; constructor|].
    rewrite re_sub_ansi_cons.
    destruct (match_ansi (c :: s)) as [rest|] eqn:E.
    + destruct (match_ansi_sound _ E) as [e [[params [_ ->]] Hs]].
      rewrite Hs. eapply subseq_trans; [|apply subseq_suffix].
      apply IH.
      assert (L : length (c :: s)
                  = length ((ESC :: 91%N :: params ++ [109%N]) ++ rest))
        by (rewrite Hs; reflexivity).
      rewrite length_app in L. simpl in L, Hn. lia.
    + constructor. apply IH. simpl in Hn. lia.
Qed.

Lemma strip_subseq s : subseq (strip s) s.
Proof.
  unfold strip. destruct (lstrip_split s) as [t1 [_ E1]].
  destruct (rstrip_split (lstrip s)) as [t2 [_ E2]].
  apply (@subseq_trans _ (lstrip s)).
  - rewrite E2 at 2. apply subseq_prefix.
  - rewrite E1 at 2. apply subseq_suffix.
Qed.

Lemma clean_output_subseq s : subseq (clean_output s) s.
Proof.
  unfold clean_output.
  eapply subseq_trans; [|apply strip_subseq].
  apply (@re_sub_ansi_subseq (length (strip s))). apply le_n.
Qed.

Lemma subseq_in c a b : subseq a b -> In c a -> In c b.
Proof.
  induction 1 as [|x a b H IH|x a b H IH]; simpl; intros Hin.
  - exact Hin.
  - destruct Hin as [-> | Hin]; [left; reflexivity | right; apply IH, Hin].
  - right. apply IH, Hin.
Qed.

(** X7.  When the captured output holds no ESC character,
    [run_adb_command] returns exactly the output stripped of the
    whitespace at its two ends. *)
Theorem run_adb_command_plain_output
  (w : World) (command device stdout : str) :
  respond env (at_shell w command device)
          (Shell (adb_command_line command device)) = (0%Z, stdout) ->
  no_esc stdout ->
  fst (run_adb_command env command device w) = Returned (Some (strip stdout)).
Proof.
  intros Hrun Hplain. rewrite (run_adb_command_succeeds _ _ _ _ Hrun).
  unfold clean_output. simpl. rewrite re_sub_ansi_plain; [reflexivity|].
  intros Hin. apply Hplain. eapply subseq_in; [apply strip_subseq | exact Hin].
Qed.

(** X8.  The text [run_adb_command] returns is the captured output with
    some characters left out: cleaning never adds a character, never
    changes one and never changes the order. *)
Theorem run_adb_command_only_deletes
  (w : World) (command device stdout : str) :
  respond env (at_shell w command device)
          (Shell (adb_command_line command device)) = (0%Z, stdout) ->
  exists text,
    fst (run_adb_command env command device w) = Returned (Some text)
    /\ subseq text stdout
    /\ length text <= length stdout.
Proof.
  intros Hrun. exists (clean_output stdout).
  rewrite (run_adb_command_succeeds _ _ _ _ Hrun).
  split; [reflexivity|]. split; [apply clean_output_subseq|].
  apply subseq_length, clean_output_subseq.
Qed.

End BridgeCommandMore.

Definition plain_output : str :=
  lit "  [ro.product.model]: [Pixel 7]" ++ [LF].

Lemma run_adb_command_plain_output_witness :
  fst (run_adb_command (scripted (fun _ => (0%Z, plain_output)) [])
                       (lit "shell getprop") a_device (start []))
  = Returned (Some (lit "[ro.product.model]: [Pixel 7]")).
Proof.
  apply (@run_adb_command_plain_output
           (scripted (fun _ => (0%Z, plain_output)) []) (start [])
           (lit "shell getprop") a_device plain_output).
  - reflexivity.
  - intros H. vm_compute in H. intuition discriminate.
Defined.

Lemma run_adb_command_only_deletes_witness :
  exists text,
    fst (run_adb_command (scripted (fun _ => (0%Z, bold_output)) [])
                         (lit "shell getprop") a_device (start []))
    = Returned (Some text)
    /\ subseq text bold_output
    /\ length text <= length bold_output.
Proof.
  apply (@run_adb_command_only_deletes
           (scripted (fun _ => (0%Z, bold_output)) []) (start [])
           (lit "shell getprop") a_device bold_output).
  reflexivity.
Defined.

(* ===================================================================== *)
(** * More about the two copies *)
(* ===================================================================== *)

Section CopyMore.
Variable env : Env.


(** X10.  When the listing of recent files fails or gives no text,
    [pull_recent_files] pulls nothing: it prints that no files were found
    and returns. *)
Theorem pull_recent_files_without_listing
  (w : World) (directory ls_command dest_dir : str) (num_files : Z)
  (device : str) (result : option str) (w1 : World) :
  run_adb_command env (recent_listing ls_command num_files) device
                  (announced w directory num_files device)
  = (Returned result, w1) ->
  nonempty result = false ->
  pull_recent_files env directory ls_command dest_dir num_files device w
  = (Returned tt,
     extend w1 [Printed (lit "No files found in " ++ directory)]).
Proof.
  intros Hls Hempty. unfold pull_recent_files.
  unfold bind at 1, print, emit.
  fold (extend w [Printed (lit "Getting " ++ str_of_int num_files
                           ++ lit " most recent file(s) from " ++ directory
                           ++ lit " on device " ++ device)]).
  fold (announced w directory num_files device).
  fold (recent_listing ls_command num_files).
  unfold bind at 1. rewrite Hls.
  destruct result as [[|c items]|]; try reflexivity. discriminate.
Qed.

Lemma rstrip_char_kept x s :
  startswith [x] (rev s) = false -> rstrip_char x s = s.
Proof.
  unfold rstrip_char. intros H. destruct (rev s) as [|c r] eqn:E.
  - simpl. rewrite <- (rev_involutive s), E. reflexivity.
  - simpl in *. rewrite andb_true_r in H. rewrite N.eqb_sym in H.
    rewrite H. rewrite <- E. apply rev_involutive.
Qed.

Lemma rstrip_char_snoc x s : rstrip_char x (s ++ [x]) = rstrip_char x s.
Proof.
  unfold rstrip_char. rewrite rev_app_distr. simpl.
  rewrite N.eqb_refl. reflexivity.
Qed.

(** X11.  An entry that [ls -p] marks as a directory, [name/], is pulled
    from the same device path as an entry [name]: the slash is taken off
    and the name is joined to the directory. *)
Theorem pull_item_drops_the_directory_mark
  (w : World) (directory local_dir device name : str) :
  directory <> [] ->
  endswith [SLASH] directory = false ->
  startswith [SLASH] name = false ->
  endswith [SLASH] name = false ->
  py_in thumbnails (name ++ [SLASH]) = false ->
  ran (trace (snd (pull_item env directory local_dir device
                             (name ++ [SLASH]) w)))
  = ran (trace w) ++ [adb_pull device (directory ++ SLASH :: name) local_dir]
  /\ ran (trace (snd (pull_item env directory local_dir device
                                (name ++ [SLASH]) w)))
     = ran (trace (snd (pull_item env directory local_dir device name w))).
Proof.
  intros Hd Hde Hns Hne Hth.
  assert (Hjoin : os_path_join directory name = directory ++ SLASH :: name).
  { unfold os_path_join. rewrite Hns.
    destruct directory; [contradiction|]. simpl truthy.
    simpl negb. rewrite orb_false_l, Hde. reflexivity. }
  assert (Hmarked : item_path directory (name ++ [SLASH])
                    = directory ++ SLASH :: name).
  { unfold item_path. rewrite rstrip_char_snoc.
    rewrite rstrip_char_kept by exact Hne. exact Hjoin. }
  assert (Hplain : item_path directory name = directory ++ SLASH :: name).
  { unfold item_path. rewrite rstrip_char_kept by exact Hne. exact Hjoin. }
  assert (Hth' : py_in thumbnails name = false).
  { destruct (py_in thumbnails name) eqn:E; [|reflexivity].
    apply py_in_iff in E as [a [b ->]].
    assert (py_in thumbnails ((a ++ thumbnails ++ b) ++ [SLASH]) = true)
      by (apply py_in_iff; exists a, (b ++ [SLASH]);
          rewrite <- !app_assoc; reflexivity).
    congruence. }
  destruct (pull_item_steps env directory local_dir device (name ++ [SLASH]) w)
    as [e1 [Hrun1 Hturn1]].
  destruct (pull_item_steps env directory local_dir device name w)
    as [e2 [Hrun2 Hturn2]].
  unfold pull_turn in Hturn1, Hturn2. rewrite Hth in Hturn1.
  rewrite Hth' in Hturn2. rewrite Hmarked in Hturn1. rewrite Hplain in Hturn2.
  destruct Hturn1 as [rc1 ->]. destruct Hturn2 as [rc2 ->].
  rewrite Hrun1, Hrun2. unfold extend. cbn [snd trace]. rewrite !ran_app.
  split; reflexivity.
Qed.

End CopyMore.


Lemma pull_recent_files_without_listing_witness :
  let env := scripted (fun _ => (0%Z, [LF])) [] in
  pull_recent_files env (lit "/sdcard/Documents/Navsuite")
                    (lit "ls -t /sdcard/Documents/Navsuite")
                    (report_dir env) 5 a_device (start [])
  = (Returned tt,
     extend (snd (run_adb_command env
                    (recent_listing (lit "ls -t /sdcard/Documents/Navsuite") 5)
                    a_device
                    (announced (start []) (lit "/sdcard/Documents/Navsuite")
                               5 a_device)))
            [Printed (lit "No files found in /sdcard/Documents/Navsuite")]).
Proof.
  intros env.
  apply (@pull_recent_files_without_listing env (start [])
           (lit "/sdcard/Documents/Navsuite")
           (lit "ls -t /sdcard/Documents/Navsuite")
           (report_dir env) 5%Z a_device (Some [])).
  - vm_compute. reflexivity.
  - reflexivity.
Defined.

Lemma pull_item_drops_the_directory_mark_witness :
  let env := scripted (fun _ => (0%Z, [])) [] in
  ran (trace (snd (pull_item env (lit "/sdcard/Pictures") (lit "local")
                             a_device (lit "Screenshots/") (start []))))
  = ran (trace (start []))
    ++ [adb_pull a_device (lit "/sdcard/Pictures/Screenshots") (lit "local")].
Proof.
  intros env.
  apply (@pull_item_drops_the_directory_mark env (start [])
           (lit "/sdcard/Pictures") (lit "local") a_device
           (lit "Screenshots")).
  - discriminate.
  - reflexivity.
  - reflexivity.
  - reflexivity.
  - reflexivity.
Defined.

(* ===================================================================== *)
(** * What a run adds to the trace *)
(* ===================================================================== *)

Section Adds.

(** [m], run from [w], only adds events, and every event it adds is one
    that [P] allows; this also when [m] raises. *)
Definition adds (A : Type) (P : Event -> Prop) (m : M A) (w : World) : Prop :=
  exists events, trace (snd (m w)) = trace w ++ events /\ Forall P events.

Variable P : Event -> Prop.

Lemma adds_of_steps (A : Type) (m : M A) w o events :
  m w = (o, extend w events) -> Forall P events -> adds P m w.
Proof. intros H HP. exists events. rewrite H. split; [reflexivity | exact HP]. Qed.

Lemma adds_ret (A : Type) (a : A) w : adds P (ret a) w.
Proof. exists []. simpl. rewrite app_nil_r. split; constructor. Qed.

Lemma adds_raise (A : Type) e w : adds P (@raise A e) w.
Proof. exists []. simpl. rewrite app_nil_r. split; constructor. Qed.

Lemma adds_emit e w : P e -> adds P (emit e) w.
Proof. intros H. exists [e]. split; [reflexivity | constructor; auto]. Qed.

Lemma adds_input prompt w : P (Prompted prompt) -> adds P (input prompt) w.
Proof.
  intros H. exists [Prompted prompt]. unfold input.
  destruct (stdin w); (split; [reflexivity | constructor; auto]).
Qed.

Lemma adds_bind (A B : Type) (m : M A) (k : A -> M B) w :
  adds P m w ->
  (forall a w', m w = (Returned a, w') -> adds P (k a) w') ->
  adds P (bind m k) w.
Proof.
  intros [e1 [H1 P1]] Hk. unfold adds, bind in *.
  destruct (m w) as [[a|e] w'] eqn:E; simpl in H1.
  - destruct (Hk a w' eq_refl) as [e2 [H2 P2]].
    exists (e1 ++ e2). rewrite H2, H1, app_assoc. split; [reflexivity|].
    apply Forall_app. split; assumption.
  - exists e1. split; assumption.
Qed.

Lemma adds_try_except (A : Type) (body : M A) handler w :
  adds P body w ->
  (forall e w' h,
      body w = (Raised e, w') -> handler e = Some h -> adds P h w') ->
  adds P (try_except body handler) w.
Proof.
  intros [e1 [H1 P1]] Hh. unfold adds, try_except in *.
  destruct (body w) as [[a|e] w'] eqn:E; simpl in H1.
  - exists e1. split; assumption.
  - destruct (handler e) as [h|] eqn:Eh.
    + destruct (Hh e w' h eq_refl Eh) as [e2 [H2 P2]].
      exists (e1 ++ e2). rewrite H2, H1, app_assoc. split; [reflexivity|].
      apply Forall_app. split; assumption.
    + exists e1. split; assumption.
Qed.

Lemma adds_for_each (X : Type) (body : X -> M unit) : forall xs w,
  (forall x w', In x xs -> adds P (body x) w') ->
  adds P (for_each xs body) w.
Proof.
  induction xs as [|x xs IH]; intros w H; simpl.
  - apply adds_ret.
  - apply adds_bind.
    + apply H. left. reflexivity.
    + intros _ w' _. apply IH. intros y w'' Hy. apply H. right. exact Hy.
Qed.

Lemma adds_subprocess_run env c w :
  (forall rc, P (Ran c rc)) -> adds P (subprocess_run env c) w.
Proof.
  intros H. unfold adds, subprocess_run.
  destruct (respond env (trace w) c) as [rc out].
  exists [Ran c rc].
  destruct (rc =? 0)%Z; (split; [reflexivity | constructor; auto]).
Qed.

Lemma adds_int env s w : adds P (int env s) w.
Proof.
  unfold int. destruct (int_of_str env s); [apply adds_ret | apply adds_raise].
Qed.

End Adds.

Lemma adds_weaken (A : Type) (P Q : Event -> Prop) (m : M A) w :
  (forall e, P e -> Q e) -> adds P m w -> adds Q m w.
Proof.
  intros H [events [E HP]]. exists events. split; [exact E|].
  eapply Forall_impl; [exact H | exact HP].
Qed.

Section AddsOfTheScript.
Variable env : Env.
Variable P : Event -> Prop.
Hypothesis P_printed : forall t, P (Printed t).

Lemma adds_print t w : adds P (print t) w.
Proof. apply adds_emit, P_printed. Qed.

Lemma adds_get_connected_devices w :
  (forall rc, P (Ran adb_devices rc)) ->
  adds P (get_connected_devices env) w.
Proof.
  intros H. destruct (get_connected_devices_run env w)
    as [ds [rc [out [_ [Hg _]]]]].
  eapply adds_of_steps; [exact Hg|]. unfold discovery_events.
  constructor; [apply H|]. destruct (rc =? 0)%Z; repeat constructor.
  apply P_printed.
Qed.

Lemma adds_ask_until devices : forall n w,
  (forall t, P (Prompted t)) -> adds P (ask_until env devices n) w.
Proof.
  intros n w Hp. revert w. induction n as [|n IH]; intros w; simpl.
  - apply adds_bind.
    + unfold ask. apply adds_try_except.
      * apply adds_bind; [apply adds_input, Hp|]. intros line w1 _.
        apply adds_bind; [apply adds_int|]. intros c w2 _.
        destruct ((1 <=? c) && _)%Z; [apply adds_ret|].
        apply adds_bind; [apply adds_print|]. intros. apply adds_ret.
      * intros e w' h _. destruct e; try discriminate.
        intros H. inversion H; subst.
        apply adds_bind; [apply adds_print|]. intros. apply adds_ret.
    + intros [d|] w' _; [apply adds_ret | apply adds_raise].
  - apply adds_bind.
    + unfold ask. apply adds_try_except.
      * apply adds_bind; [apply adds_input, Hp|]. intros line w1 _.
        apply adds_bind; [apply adds_int|]. intros c w2 _.
        destruct ((1 <=? c) && _)%Z; [apply adds_ret|].
        apply adds_bind; [apply adds_print|]. intros. apply adds_ret.
      * intros e w' h _. destruct e; try discriminate.
        intros H. inversion H; subst.
        apply adds_bind; [apply adds_print|]. intros. apply adds_ret.
    + intros [d|] w' _; [apply adds_ret | apply IH].
Qed.

Lemma adds_select_device devices w :
  (forall t, P (Prompted t)) -> adds P (select_device env devices) w.
Proof.
  intros Hp. destruct devices as [|d1 [|d2 ds]]; unfold select_device.
  - apply adds_bind; [apply adds_print | intros; apply adds_raise].
  - apply adds_bind; [apply adds_print | intros; apply adds_ret].
  - apply adds_bind; [apply adds_print|]. intros _ w1 _.
    apply adds_bind.
    + eapply adds_of_steps; [apply (print_numbered_trace (d1 :: d2 :: ds) 1)|].
      unfold numbered_from. apply Forall_map, Forall_forall.
      intros x _. apply P_printed.
    + intros _ w2 _. apply adds_ask_until, Hp.
Qed.

Lemma adds_run_adb_command command device w :
  (forall rc, P (Ran (Shell (adb_command_line command device)) rc)) ->
  adds P (run_adb_command env command device) w.
Proof.
  intros H. destruct (run_adb_command_run env w command device)
    as [rc [out [_ Hrun]]].
  eapply adds_of_steps; [exact Hrun|]. unfold command_outcome.
  destruct (rc =? 0)%Z; simpl; repeat constructor; auto.
Qed.

Lemma adds_pull_directory directory dest_dir device w :
  P (MadeDirs (os_path_join dest_dir (os_path_basename directory))) ->
  (forall rc,
      P (Ran (Shell (adb_command_line (listing_command directory) device)) rc)) ->
  (forall item rc,
      py_in thumbnails item = false ->
      P (Ran (adb_pull device (item_path directory item)
                       (os_path_join dest_dir (os_path_basename directory)))
             rc)) ->
  adds P (pull_directory env directory dest_dir device) w.
Proof.
  intros Hm Hl Hp. unfold pull_directory.
  apply adds_bind; [apply adds_emit, Hm|]. intros _ w1 _.
  apply adds_bind; [apply adds_run_adb_command, Hl|]. intros items w2 _.
  destruct items as [[|c items]|]; try apply adds_print.
  apply adds_for_each. intros item w3 _.
  destruct (pull_item_steps env directory
              (os_path_join dest_dir (os_path_basename directory))
              device item w3) as [events [Hrun Hturn]].
  eapply adds_of_steps; [exact Hrun|]. unfold pull_turn in Hturn.
  destruct (py_in thumbnails item) eqn:E.
  - subst. constructor.
  - destruct Hturn as [rc ->]. repeat constructor; auto.
Qed.

Lemma adds_pull_recent_files directory ls_command dest_dir n device w :
  (forall rc,
      P (Ran (Shell (adb_command_line (recent_listing ls_command n) device))
             rc)) ->
  (forall file rc,
      P (Ran (adb_pull device (directory ++ lit "/" ++ file)
                       (destination env directory dest_dir file)) rc)) ->
  adds P (pull_recent_files env directory ls_command dest_dir n device) w.
Proof.
  intros Hl Hp. unfold pull_recent_files.
  apply adds_bind; [apply adds_print|]. intros _ w1 _.
  apply adds_bind; [apply adds_run_adb_command, Hl|]. intros files w2 _.
  destruct files as [[|c files]|]; try apply adds_print.
  apply adds_for_each. intros file w3 _.
  unfold pull_recent_file. rewrite local_path_destination.
  apply adds_try_except.
  - apply adds_bind; [apply adds_subprocess_run; intros rc; apply Hp|].
    intros. apply adds_print.
  - intros e w' h _. destruct e; try discriminate.
    intros H. inversion H; subst. apply adds_print.
Qed.

Lemma adds_collect_logs device w :
  (forall entry rc,
      In entry log_types ->
      P (Ran (Shell (adb_command_line (snd entry) device)) rc)) ->
  (forall entry content,
      In entry log_types -> content <> [] ->
      P (Wrote (log_path env (fst entry)) content)) ->
  adds P (collect_logs env device) w.
Proof.
  intros Hc Hw. unfold collect_logs. apply adds_for_each.
  intros entry w1 Hin.
  destruct (collect_log_steps env device entry w1) as [events [Hrun Hturn]].
  eapply adds_of_steps; [exact Hrun|].
  destruct Hturn as [rc [out ->]]. apply Forall_app. split.
  - repeat constructor; auto.
  - destruct (rc =? 0)%Z; [|repeat constructor; auto].
    destruct (clean_output out) eqn:E; repeat constructor; auto.
    apply Hw; [exact Hin | discriminate].
Qed.

Lemma adds_get_application_directories device w :
  (forall p rc,
      In p dirs_to_check ->
      P (Ran (Shell (adb_command_line (exists_command p) device)) rc)) ->
  adds P (get_application_directories env device) w.
Proof.
  intros H.
  destruct (get_application_directories_steps env device w)
    as [f1 [e1 [f2 [e2 [Hrun [[rc1 [o1 [-> _]]] [rc2 [o2 [-> _]]]]]]]]].
  eapply adds_of_steps; [exact Hrun|]. apply Forall_app. split.
  - unfold command_outcome. destruct (rc1 =? 0)%Z; simpl;
      repeat constructor; auto; apply H; simpl; auto.
  - unfold command_outcome. destruct (rc2 =? 0)%Z; simpl;
      repeat constructor; auto; apply H; simpl; auto.
Qed.

Lemma adds_create_zip source_dir output_filename metadata w :
  P (Wrote (os_path_join source_dir metadata_name) metadata) ->
  (forall a, P (Archived output_filename a)) ->
  adds P (create_zip env source_dir output_filename metadata) w.
Proof.
  intros Hw Ha. unfold adds, create_zip.
  destruct (write_file metadata_name metadata (disk env (trace w) source_dir)).
  - eexists. proc. rewrite <- !app_assoc. split; [reflexivity|].
    repeat constructor; auto.
  - eexists. proc. split; [reflexivity|]. repeat constructor; auto.
Qed.

End AddsOfTheScript.

(* ===================================================================== *)
(** * The whole run *)
(* ===================================================================== *)

Section BugReport.
Variable env : Env.
Local Open Scope proc_scope.

Definition adb_bugreport (device bugreport_zip : str) : Cmd :=
  Argv [lit "adb"; lit "-s"; device; lit "bugreport"; bugreport_zip].

(** [collect_bugreport]: defined in the script, and called nowhere (the
    two lines of the main block that call it are comments). *)
Definition collect_bugreport (dest_dir device : str) : M unit :=
  print (lit "Generating bug report...") ;;
  let bugreport_zip :=
    os_path_join dest_dir (lit "bugreport_" ++ timestamp env ++ lit ".zip") in
  try_except
    (subprocess_run env (adb_bugreport device bugreport_zip) ;;
     print (lit "Bug report saved to " ++ bugreport_zip))
    (fun e =>
       match e with
       | CalledProcessError _ _ =>
           Some (print (lit "Failed to generate bug report"))
       | _ => None
       end).

End BugReport.

Section MainGrammar.
Variable env : Env.
Variable n : Z.
Variable s : bool.

(** What the run does before a device is selected. *)
Inductive early_event : Event -> Prop :=
| early_printed t : early_event (Printed t)
| early_prompted t : early_event (Prompted t)
| early_devices rc : early_event (Ran adb_devices rc).

(** Everything a run of [main] can do, for the device it selects. *)
Inductive main_event (device : str) : Event -> Prop :=
| ev_printed t : main_event device (Printed t)
| ev_prompted t : main_event device (Prompted t)
| ev_devices rc : main_event device (Ran adb_devices rc)
| ev_probe p rc :
    In p dirs_to_check ->
    main_event device
      (Ran (Shell (adb_command_line (exists_command p) device)) rc)
| ev_mkdir directory :
    s = false -> In directory directories_to_pull ->
    main_event device
      (MadeDirs (os_path_join (report_dir env) (os_path_basename directory)))
| ev_listing directory rc :
    s = false -> In directory directories_to_pull ->
    main_event device
      (Ran (Shell (adb_command_line (listing_command directory) device)) rc)
| ev_pull_item directory item rc :
    s = false -> In directory directories_to_pull ->
    py_in thumbnails item = false ->
    main_event device
      (Ran (adb_pull device (item_path directory item)
                     (os_path_join (report_dir env)
                                   (os_path_basename directory))) rc)
| ev_recent_listing src rc :
    In src (recent_file_commands dirs_to_check) ->
    main_event device
      (Ran (Shell (adb_command_line (recent_listing (snd src) n) device)) rc)
| ev_pull_recent src file rc :
    In src (recent_file_commands dirs_to_check) ->
    main_event device
      (Ran (adb_pull device (fst src ++ lit "/" ++ file)
                     (destination env (fst src) (report_dir env) file)) rc)
| ev_log_command entry rc :
    In entry log_types ->
    main_event device
      (Ran (Shell (adb_command_line (snd entry) device)) rc)
| ev_log_file entry content :
    In entry log_types -> content <> [] ->
    main_event device (Wrote (log_path env (fst entry)) content)
| ev_metadata user_summary :
    main_event device
      (Wrote (os_path_join (report_dir env) metadata_name)
             (metadata_text user_summary (timestamp env) device))
| ev_archive a : main_event device (Archived (zip_file_name env) a).

Lemma early_is_main device e : early_event e -> main_event device e.
Proof. intros []; constructor. Qed.

(** The directories the probe returns are among the two candidates. *)
Lemma get_application_directories_incl device w dirs w' :
  get_application_directories env device w = (Returned dirs, w') ->
  incl dirs dirs_to_check.
Proof.
  intros H.
  destruct (get_application_directories_steps env device w)
    as [f1 [e1 [f2 [e2 [Hrun [[rc1 [o1 [_ Hf1]]] [rc2 [o2 [_ Hf2]]]]]]]]].
  rewrite Hrun in H. inversion H as [[Hd Hw]]. intros p Hp.
  apply in_app_or in Hp as [Hp | Hp].
  - rewrite Hf1 in Hp. destruct (_ && _)%bool in Hp; [|contradiction].
    destruct Hp as [<- | []]. left. reflexivity.
  - rewrite Hf2 in Hp. destruct (_ && _)%bool in Hp; [|contradiction].
    destruct Hp as [<- | []]. right. left. reflexivity.
Qed.

Lemma recent_file_commands_incl dirs :
  incl dirs dirs_to_check ->
  incl (recent_file_commands dirs) (recent_file_commands dirs_to_check).
Proof.
  intros H src Hsrc. unfold recent_file_commands in *.
  apply in_app_or in Hsrc as [Hsrc | Hsrc]; apply in_or_app.
  - left. exact Hsrc.
  - right. apply in_map_iff in Hsrc as [p [<- Hp]].
    apply in_map, H, Hp.
Qed.

(** The run from the moment a device is selected. *)
Lemma adds_after_selection device w :
  adds (main_event device)
       (bind (print (lit "Selected device: " ++ device))
             (fun _ =>
                bind (get_application_directories env device)
                     (fun app_directories =>
                        bind (match app_directories with
                              | [] => print (lit "No valid application directories found.")
                              | _ :: _ => ret tt
                              end)
                             (fun _ =>
                                bind (print (lit "Please provide a summary of the incident:"))
                                     (fun _ =>
                                        bind (input (lit "Incident Summary: "))
                                             (fun user_summary =>
                                                bind (if negb s
                                                      then for_each directories_to_pull
                                                             (fun directory =>
                                                                pull_directory env directory (report_dir env) device)
                                                      else ret tt)
                                                     (fun _ =>
                                                        bind (for_each (recent_file_commands app_directories)
                                                                (fun c => pull_recent_files env (fst c) (snd c) (report_dir env) n device))
                                                             (fun _ =>
                                                                bind (collect_logs env device)
                                                                     (fun _ =>
                                                                        create_zip env (report_dir env)
                                                                          (os_path_join incident_dir (lit "QA_bug_report_" ++ timestamp env ++ lit ".zip"))
                                                                          (metadata_text user_summary (timestamp env) device))))))))))
       w.
Proof.
  assert (Hp : forall t, main_event device (Printed t)) by (intros; constructor).
  apply adds_bind; [apply adds_print, Hp|]. intros _ w1 _.
  apply adds_bind.
  { apply adds_get_application_directories; [exact Hp|].
    intros p rc Hin. constructor. exact Hin. }
  intros app w2 Happ. apply get_application_directories_incl in Happ.
  apply adds_bind.
  { destruct app; [apply adds_print, Hp | apply adds_ret]. }
  intros _ w3 _.
  apply adds_bind; [apply adds_print, Hp|]. intros _ w4 _.
  apply adds_bind; [apply adds_input; constructor|]. intros summary w5 _.
  apply adds_bind.
  { destruct s eqn:Hs; simpl negb; cbv iota; [apply adds_ret|].
    apply adds_for_each. intros directory w6 Hin.
    apply adds_pull_directory; [exact Hp | | |].
    - apply ev_mkdir; [exact Hs | exact Hin].
    - intros rc. apply ev_listing; [exact Hs | exact Hin].
    - intros item rc Hitem. apply ev_pull_item; auto. }
  intros _ w6 _.
  apply adds_bind.
  { apply adds_for_each. intros src w7 Hin.
    apply recent_file_commands_incl in Hin; [|exact Happ].
    apply adds_pull_recent_files; [exact Hp | |].
    - intros rc. apply ev_recent_listing. exact Hin.
    - intros file rc. apply ev_pull_recent. exact Hin. }
  intros _ w7 _.
  apply adds_bind.
  { apply adds_collect_logs; [exact Hp | |].
    - intros entry rc Hin. apply ev_log_command. exact Hin.
    - intros entry content Hin Hne. apply ev_log_file; assumption. }
  intros _ w8 _.
  apply adds_create_zip; [exact Hp | apply ev_metadata | apply ev_archive].
Qed.

(** The trace of a run of [main]: before a device is selected only the
    early events; from then on the events of the grammar, for that
    device, which is an identifier. *)
Lemma main_trace n_w :
  exists events,
    trace (snd (main env n s n_w)) = trace n_w ++ events
    /\ ((Forall early_event events
         /\ forall d w1,
             bind (get_connected_devices env) (select_device env) n_w
             <> (Returned d, w1))
        \/ exists d w1,
            bind (get_connected_devices env) (select_device env) n_w
            = (Returned d, w1)
            /\ identifier d
            /\ Forall (main_event d) events).
Proof.
  assert (He : forall t, early_event (Printed t)) by (intros; constructor).
  destruct (@adds_get_connected_devices env early_event He n_w
              (fun rc => early_devices rc)) as [e1 [H1 P1]].
  unfold main. unfold bind at 1. unfold bind at 1.
  destruct (get_connected_devices env n_w) as [[devices|x] w1] eqn:Eg;
    simpl in H1.
  - destruct (@adds_select_device env early_event He devices w1
                (fun t => early_prompted t)) as [e2 [H2 P2]].
    unfold bind at 1.
    destruct (select_device env devices w1) as [[d|x] w2] eqn:Es;
      simpl in H2.
    + destruct (adds_after_selection d w2) as [e3 [H3 P3]].
      exists (e1 ++ e2 ++ e3). split.
      * etransitivity; [exact H3|].
        rewrite H2, H1, <- !app_assoc. reflexivity.
      * right. exists d, w2.
        split; [unfold bind; rewrite Eg, Es; reflexivity|]. split.
        -- apply select_device_member in Es.
           apply get_connected_devices_identifiers in Eg.
           rewrite Forall_forall in Eg. apply Eg, Es.
        -- apply Forall_app. split; [|apply Forall_app; split].
           ++ eapply Forall_impl; [apply early_is_main | exact P1].
           ++ eapply Forall_impl; [apply early_is_main | exact P2].
           ++ exact P3.
    + exists (e1 ++ e2). split.
      * simpl. rewrite H2, H1, <- app_assoc. reflexivity.
      * left. split; [apply Forall_app; split; assumption|].
        intros d w3. unfold bind. rewrite Eg, Es. discriminate.
  - exists e1. split; [exact H1|]. left. split; [exact P1|].
    intros d w3. unfold bind. rewrite Eg. discriminate.
Qed.

End MainGrammar.

Section MainClaims.
Variable env : Env.

Lemma main_events n s w events :
  trace (snd (main env n s w)) = trace w ++ events ->
  (Forall early_event events
   /\ forall d w1,
       bind (get_connected_devices env) (select_device env) w
       <> (Returned d, w1))
  \/ exists d w1,
      bind (get_connected_devices env) (select_device env) w
      = (Returned d, w1)
      /\ identifier d
      /\ Forall (main_event env n s d) events.
Proof.
  intros H. destruct (main_trace env n s w) as [events' [H' Hcases]].
  rewrite H in H'. apply app_inv_head in H'. subst events'. exact Hcases.
Qed.

Lemma main_events_any n s w events :
  trace (snd (main env n s w)) = trace w ++ events ->
  exists d, Forall (main_event env n s d) events.
Proof.
  intros H. destruct (@main_events n s w events H) as [[He _] | [d [_ [_ [_ Hm]]]]].
  - exists []. eapply Forall_impl; [apply early_is_main | exact He].
  - exists d. exact Hm.
Qed.

(** X12.  [collect_bugreport] runs one command, [adb -s <device>
    bugreport <dest_dir>/bugreport_<timestamp>.zip], and returns whether
    it succeeds or not; and no run of [main], simplified or not, runs a
    bugreport command for any device and any file. *)
Theorem main_never_collects_a_bugreport
  (n : Z) (s : bool) (w : World) (events : list Event) :
  trace (snd (main env n s w)) = trace w ++ events ->
  (forall device bugreport_zip rc,
      ~ In (Ran (adb_bugreport device bugreport_zip) rc) events)
  /\ (forall dest_dir device w0,
         fst (collect_bugreport env dest_dir device w0) = Returned tt
         /\ ran (trace (snd (collect_bugreport env dest_dir device w0)))
            = ran (trace w0)
              ++ [adb_bugreport device
                    (os_path_join dest_dir
                       (lit "bugreport_" ++ timestamp env ++ lit ".zip"))]).
Proof.
  intros H. split.
  - intros device zip rc Hin.
    destruct (@main_events_any n s w events H) as [d Hm].
    rewrite Forall_forall in Hm. apply Hm in Hin.
    unfold adb_bugreport in Hin.
    inversion Hin; unfold adb_devices, adb_pull in *; discriminate.
  - intros dest_dir device w0. unfold collect_bugreport, subprocess_run.
    proc. destruct (respond env _ _) as [rc out].
    destruct (rc =? 0)%Z; proc; rewrite <- !app_assoc, !ran_app;
      split; reflexivity.
Qed.

(** The commands of a simplified run. *)
Definition simplified_command (c : Cmd) : Prop :=
  c = adb_devices
  \/ (exists line, c = Shell line)
  \/ exists device src file,
      In src (recent_file_commands dirs_to_check)
      /\ c = adb_pull device (fst src ++ lit "/" ++ file)
                      (destination env (fst src) (report_dir env) file).

(** X13.  A simplified run creates no local directory, and every file it
    pulls is a recent file of one of the configured sources, pulled to the
    place the routing gives it: nothing comes from a full-directory
    listing. *)
Theorem simplified_main_skips_the_full_copy
  (n : Z) (w : World) (events : list Event) :
  trace (snd (main env n true w)) = trace w ++ events ->
  (forall path, ~ In (MadeDirs path) events)
  /\ (forall c rc, In (Ran c rc) events -> simplified_command c).
Proof.
  intros H. destruct (@main_events_any n true w events H) as [d Hm].
  rewrite Forall_forall in Hm. split.
  - intros path Hin. apply Hm in Hin. inversion Hin. discriminate.
  - intros c rc Hin. apply Hm in Hin. unfold simplified_command.
    inversion Hin; subst; try discriminate.
    + left. reflexivity.
    + right. left. eexists. reflexivity.
    + right. left. eexists. reflexivity.
    + right. right. exists d, src, file. split; [assumption | reflexivity].
    + right. left. eexists. reflexivity.
Qed.

Lemma os_path_join_extends a b :
  startswith [SLASH] b = false -> exists tail, os_path_join a b = a ++ tail.
Proof.
  intros H. unfold os_path_join. rewrite H.
  destruct (negb (truthy a) || endswith [SLASH] a); eexists; reflexivity.
Qed.

Lemma log_path_in_report_dir entry :
  In entry log_types ->
  exists tail, log_path env (fst entry) = report_dir env ++ tail.
Proof.
  intros Hin. unfold log_path, device_info_dir.
  destruct (@os_path_join_extends (report_dir env) (lit "Device Info") eq_refl)
    as [t1 ->].
  assert (Hs : startswith [SLASH]
                 (fst entry ++ lit "_" ++ timestamp env ++ lit ".txt") = false).
  { unfold log_types in Hin. simpl in Hin.
    repeat (destruct Hin as [<- | Hin]; [reflexivity|]). contradiction. }
  destruct (os_path_join_extends (report_dir env ++ t1) _ Hs) as [t2 ->].
  exists (t1 ++ t2). rewrite app_assoc. reflexivity.
Qed.

(** X14.  Every file a run of [main] writes is inside the report
    directory: each path begins with the path of the report directory.
    The one archive it may close is at [incident_dir/QA_bug_report_
    <timestamp>.zip], which is not inside the report directory, so the
    archive is never among the files it packs. *)
Theorem main_writes_inside_the_report_directory
  (n : Z) (s : bool) (w : World) (events : list Event) :
  trace (snd (main env n s w)) = trace w ++ events ->
  (forall path content,
      In (Wrote path content) events ->
      exists tail, path = report_dir env ++ tail)
  /\ (forall path a,
         In (Archived path a) events ->
         path = zip_file_name env
         /\ startswith (report_dir env) path = false).
Proof.
  intros H. destruct (@main_events_any n s w events H) as [d Hm].
  rewrite Forall_forall in Hm. split.
  - intros path content Hin. apply Hm in Hin. inversion Hin; subst.
    + apply log_path_in_report_dir. assumption.
    + apply os_path_join_extends. reflexivity.
  - intros path a Hin. apply Hm in Hin. inversion Hin; subst.
    split; [reflexivity|]. vm_compute. reflexivity.
Qed.

(** X15.  Once a device is selected, it is an identifier (not empty, no
    whitespace), and every command [main] runs after [adb devices] is
    addressed to it: a shell line that begins with [adb -s <device>] or a
    pull with [-s <device>]. *)
Theorem main_addresses_the_selected_device
  (n : Z) (s : bool) (w w1 : World) (device : str) (events : list Event) :
  bind (get_connected_devices env) (select_device env) w
  = (Returned device, w1) ->
  trace (snd (main env n s w)) = trace w ++ events ->
  identifier device
  /\ forall c rc,
      In (Ran c rc) events ->
      c = adb_devices
      \/ (exists command,
             c = Shell (lit "adb -s " ++ device ++ lit " " ++ command))
      \/ exists src dst, c = adb_pull device src dst.
Proof.
  intros Hsel H.
  destruct (@main_events n s w events H) as [[_ Hno] | [d [w2 [Hd [Hid Hm]]]]].
  - exfalso. exact (Hno device w1 Hsel).
  - rewrite Hsel in Hd. inversion Hd; subst d w2. split; [exact Hid|].
    assert (Hline : forall command,
               adb_command_line command device
               = lit "adb -s " ++ device ++ lit " " ++ command).
    { intros command. unfold adb_command_line. destruct Hid as [Hne _].
      destruct device; [contradiction | reflexivity]. }
    intros c rc Hin. rewrite Forall_forall in Hm. apply Hm in Hin.
    inversion Hin; subst; try (left; reflexivity);
      try (right; left; eexists; apply f_equal, Hline);
      right; right; eexists; eexists; reflexivity.
Qed.

End MainClaims.

(** A full run on the bare device, from an empty trace. *)
Definition bare_run (s : bool) : list Event :=
  trace (snd (main bare_device 5 s (start [lit "the map froze"]))).

Lemma main_never_collects_a_bugreport_witness :
  ~ In (Ran (adb_bugreport a_device (lit "incident_reports/bugreport.zip")) 0)
       (bare_run false).
Proof.
  apply (@main_never_collects_a_bugreport bare_device 5%Z false
           (start [lit "the map froze"]) (bare_run false)).
  reflexivity.
Defined.

Lemma simplified_main_skips_the_full_copy_witness :
  ~ In (MadeDirs (os_path_join (report_dir bare_device) (lit "Pictures")))
       (bare_run true).
Proof.
  apply (@simplified_main_skips_the_full_copy bare_device 5%Z
           (start [lit "the map froze"]) (bare_run true)).
  reflexivity.
Defined.

Lemma main_writes_inside_the_report_directory_witness :
  (forall path content,
      In (Wrote path content) (bare_run false) ->
      exists tail, path = report_dir bare_device ++ tail)
  /\ (forall path a,
         In (Archived path a) (bare_run false) ->
         path = zip_file_name bare_device
         /\ startswith (report_dir bare_device) path = false).
Proof.
  apply (@main_writes_inside_the_report_directory bare_device 5%Z false
           (start [lit "the map froze"]) (bare_run false)).
  reflexivity.
Defined.

Lemma main_addresses_the_selected_device_witness :
  identifier a_device.
Proof.
  apply (@main_addresses_the_selected_device bare_device 5%Z false
           (start [lit "the map froze"])
           (snd (bind (get_connected_devices bare_device)
                      (select_device bare_device)
                      (start [lit "the map froze"])))
           a_device (bare_run false)).
  - vm_compute. reflexivity.
  - reflexivity.
Defined.

(* ===================================================================== *)
(** * How a run ends *)
(* ===================================================================== *)

Section Ends.


Variable Q : Exn -> Prop.



End Ends.

Section EndsOfMain.
Variable env : Env.








End EndsOfMain.

(* ===================================================================== *)
(** * The configured sources *)
(* ===================================================================== *)

Section Sources.
Variable env : Env.

(** Evaluate the tests on the literal paths of the script. *)
Ltac eval_tests :=
  repeat match goal with
         | |- context [py_in (lit ?a) (lit ?b)] =>
             let v := eval vm_compute in (py_in (lit a) (lit b)) in
             change (py_in (lit a) (lit b)) with v
         | |- context [py_in (lit ?a) (lit ?b ++ lit ?c)] =>
             let v := eval vm_compute in (py_in (lit a) (lit b ++ lit c)) in
             change (py_in (lit a) (lit b ++ lit c)) with v
         end.

(** X17.  The probe returns a sub-list of its two candidates, in their
    order: nothing, the first, the second, or both. *)
Theorem get_application_directories_returns_candidates
  (device : str) (w w' : World) (dirs : list str) :
  get_application_directories env device w = (Returned dirs, w') ->
  dirs = []
  \/ dirs = [lit "/sdcard/Android/data/org.mavlink.qgroundcontrol/files/PDW_GCS"]
  \/ dirs = [lit "/sdcard/Android/data/ai.pdw.gcs/files/PDW_GCS"]
  \/ dirs = dirs_to_check.
Proof.
  intros H.
  destruct (get_application_directories_steps env device w)
    as [f1 [e1 [f2 [e2 [Hrun [[rc1 [o1 [_ Hf1]]] [rc2 [o2 [_ Hf2]]]]]]]]].
  rewrite Hrun in H. inversion H as [[Hd Hw]]. rewrite Hf1, Hf2.
  destruct (_ && _)%bool; destruct (_ && _)%bool; simpl; auto.
Qed.

(** X18.  Where the sources that [main] configures send their files.  For
    every list of application directories the probe can return and every
    file name: a file of the Movies source goes to the recordings folder
    when its name starts with [screen-] and to the destination handed in
    otherwise; a file of the Navsuite source goes to the navigation-log
    folder; a file of a console-log source goes to the console-log
    folder. *)
Theorem configured_sources_route
  (app_directories : list str) (src : str * str) (file dest_dir : str) :
  incl app_directories dirs_to_check ->
  In src (recent_file_commands app_directories) ->
  (fst src = lit "/sdcard/Movies"
   /\ local_path env (fst src) file dest_dir
      = os_path_join (if startswith (lit "screen-") file
                      then screen_recordings_dir env else dest_dir) file)
  \/ (fst src = lit "/sdcard/Documents/Navsuite"
      /\ local_path env (fst src) file dest_dir
         = os_path_join (navsuite_log_dir env) file)
  \/ (exists app_dir,
         In app_dir app_directories
         /\ fst src = app_dir ++ lit "/Logs/ConsoleLogs"
         /\ local_path env (fst src) file dest_dir
            = os_path_join (qgc_logs_dir env) file).
Proof.
  intros Hincl Hin. unfold recent_file_commands in Hin.
  apply in_app_or in Hin as [Hin | Hin].
  - destruct Hin as [<- | [<- | []]]; simpl fst; unfold local_path.
    + left. split; [reflexivity|]. eval_tests.
      destruct (startswith (lit "screen-") file); reflexivity.
    + right. left. split; [reflexivity|]. eval_tests. reflexivity.
  - right. right. apply in_map_iff in Hin as [app [<- Happ]].
    exists app. split; [exact Happ|]. split; [reflexivity|].
    apply Hincl in Happ. unfold console_logs_command. simpl fst.
    unfold local_path.
    destruct Happ as [<- | [<- | []]]; eval_tests; reflexivity.
Qed.

Lemma In_map_inj (X Y : Type) (f : X -> Y) (l : list X) :
  (forall x y, In x l -> In y l -> f x = f y -> x = y) ->
  NoDup l -> NoDup (map f l).
Proof.
  intros Hinj Hl. induction Hl as [|x l Hx Hl IH]; simpl; constructor.
  - intros Hin. apply in_map_iff in Hin as [y [Hy Hyl]].
    apply Hx. rewrite (Hinj x y); auto; [left; reflexivity | right; exact Hyl].
  - apply IH. intros a b Ha Hb. apply Hinj; right; assumption.
Qed.

Lemma os_path_join_inj a b1 b2 :
  startswith [SLASH] b1 = false -> startswith [SLASH] b2 = false ->
  os_path_join a b1 = os_path_join a b2 -> b1 = b2.
Proof.
  unfold os_path_join. intros -> ->.
  destruct (negb (truthy a) || endswith [SLASH] a); intros H.
  - apply app_inv_head in H. exact H.
  - apply app_inv_head in H. inversion H. reflexivity.
Qed.

Lemma log_paths_distinct : NoDup (map (fun e => log_path env (fst e)) log_types).
Proof.
  rewrite <- (map_map fst (fun name => log_path env name)).
  apply In_map_inj.
  - intros x y Hx Hy H. unfold log_path in H.
    apply os_path_join_inj in H.
    + rewrite (app_assoc x), (app_assoc y) in H.
      rewrite (app_assoc (x ++ _)), (app_assoc (y ++ _)) in H.
      apply app_inv_tail in H. apply app_inv_tail in H.
      apply app_inv_tail in H. exact H.
    + simpl in Hx. repeat (destruct Hx as [<- | Hx]; [reflexivity|]).
      contradiction.
    + simpl in Hy. repeat (destruct Hy as [<- | Hy]; [reflexivity|]).
      contradiction.
  - simpl. repeat (constructor;
                   [simpl; intros H; vm_compute in H; intuition discriminate|]).
    constructor.
Qed.

Lemma wrote_app a b : wrote (a ++ b) = wrote a ++ wrote b.
Proof. apply flat_map_app. Qed.

Lemma log_turn_wrote_paths device entry events :
  log_turn env device entry events ->
  map fst (wrote events) = []
  \/ map fst (wrote events) = [log_path env (fst entry)].
Proof.
  intros [rc [out ->]]. rewrite wrote_app. simpl.
  destruct (rc =? 0)%Z; [destruct (clean_output out)|]; simpl; auto.
Qed.

Lemma log_turns_wrote_paths device : forall entries turns,
  Forall2 (log_turn env device) entries turns ->
  NoDup (map (fun e => log_path env (fst e)) entries) ->
  NoDup (map fst (wrote (concat turns)))
  /\ incl (map fst (wrote (concat turns)))
          (map (fun e => log_path env (fst e)) entries).
Proof.
  induction 1 as [|entry ev entries turns Hturn _ IH]; simpl; intros Hnd.
  - split; [constructor | intros x []].
  - inversion Hnd as [|? ? Hnot Hrest]; subst.
    destruct (IH Hrest) as [Hnd' Hincl].
    rewrite wrote_app, map_app.
    destruct (log_turn_wrote_paths Hturn) as [-> | ->]; simpl.
    + split; [exact Hnd' | intros x Hx; right; apply Hincl, Hx].
    + split.
      * constructor; [|exact Hnd']. intros Hin. apply Hnot, Hincl, Hin.
      * intros x [<- | Hx]; [left; reflexivity | right; apply Hincl, Hx].
Qed.

(** X19.  The files [collect_logs] writes have distinct paths, each the
    path of an entry of the table, in the device-info folder: no log
    overwrites another, and at most nine files are written. *)
Theorem collect_logs_writes_distinct_files (device : str) (w : World) :
  exists events,
    collect_logs env device w = (Returned tt, extend w events)
    /\ NoDup (map fst (wrote events))
    /\ incl (map fst (wrote events))
            (map (fun e => log_path env (fst e)) log_types)
    /\ length (wrote events) <= 9.
Proof.
  destruct (@for_each_steps _ (collect_log env device) (log_turn env device)
              (collect_log_steps env device) log_types w)
    as [turns [Hloop Hturns]].
  destruct (log_turns_wrote_paths Hturns log_paths_distinct) as [Hnd Hincl].
  exists (concat turns). split; [exact Hloop|]. split; [exact Hnd|].
  split; [exact Hincl|].
  pose proof (NoDup_incl_length Hnd Hincl) as Hlen.
  rewrite !length_map in Hlen. exact Hlen.
Qed.

End Sources.

(** A device on which only the older package has its directory. *)
Definition older_package : Env :=
  scripted (fun c => match c with
                     | Shell line =>
                         if py_in (lit "org.mavlink.qgroundcontrol") line
                         then (0%Z, lit "exists" ++ [LF]) else (0%Z, [])
                     | Argv _ => (0%Z, [])
                     end) [].

Definition older_directory : str :=
  lit "/sdcard/Android/data/org.mavlink.qgroundcontrol/files/PDW_GCS".

Lemma get_application_directories_returns_candidates_witness :
  [older_directory] = []
  \/ [older_directory] = [older_directory]
  \/ [older_directory] = [lit "/sdcard/Android/data/ai.pdw.gcs/files/PDW_GCS"]
  \/ [older_directory] = dirs_to_check.
Proof.
  apply (@get_application_directories_returns_candidates older_package
           a_device (start [])
           (snd (get_application_directories older_package a_device
                                             (start [])))
           [older_directory]).
  vm_compute. reflexivity.
Defined.

Lemma configured_sources_route_witness :
  exists app_dir,
    In app_dir [lit "/sdcard/Android/data/ai.pdw.gcs/files/PDW_GCS"]
    /\ lit "/sdcard/Android/data/ai.pdw.gcs/files/PDW_GCS/Logs/ConsoleLogs"
       = app_dir ++ lit "/Logs/ConsoleLogs"
    /\ local_path bare_device
         (lit "/sdcard/Android/data/ai.pdw.gcs/files/PDW_GCS/Logs/ConsoleLogs")
         (lit "console.log") (report_dir bare_device)
       = os_path_join (qgc_logs_dir bare_device) (lit "console.log").
Proof.
  destruct (@configured_sources_route bare_device
              [lit "/sdcard/Android/data/ai.pdw.gcs/files/PDW_GCS"]
              (console_logs_command
                 (lit "/sdcard/Android/data/ai.pdw.gcs/files/PDW_GCS"))
              (lit "console.log") (report_dir bare_device))
    as [[H _] | [[H _] | H]].
  - intros p [<- | []]. right. left. reflexivity.
  - right. right. left. reflexivity.
  - vm_compute in H. discriminate.
  - vm_compute in H. discriminate.
  - exact H.
Defined.

(* ===================================================================== *)
(** * More about packaging *)
(* ===================================================================== *)

Section PackagingMore.
Variable env : Env.

(** A regular file of a directory tree: the names from the directory
    down to the file, and its content. *)
Inductive file_at : dir -> list str -> str -> Prop :=
| file_here d name content :
    In (name, File content) d -> file_at d [name] content
| file_below d name sub path content :
    In (name, Dir sub) d -> file_at sub path content ->
    file_at d (name :: path) content.

(** The path [os.path.relpath] gives for such a file, from [rel]. *)
Definition relative_from (rel : str) (path : list str) : str :=
  fold_left os_path_join path rel.

Fixpoint node_size (x : node) : nat :=
  match x with
  | File _ => 1
  | Dir d => S (list_sum (map (fun e => node_size (snd e)) d))
  end.

Lemma child_smaller name x d :
  In (name, x) d -> node_size x < node_size (Dir d).
Proof.
  simpl. induction d as [|[n y] d IH]; simpl; [contradiction|].
  intros [H | H].
  - inversion H; subst. lia.
  - apply IH in H. lia.
Qed.

Lemma files_of_in rel d name content :
  In (name, File content) d -> In (os_path_join rel name, content) (files_of rel d).
Proof.
  induction d as [|[n x] d IH]; simpl; [contradiction|].
  intros [H | H].
  - inversion H; subst. left. reflexivity.
  - destruct x; [right|]; apply IH, H.
Qed.

Lemma files_of_from rel d member :
  In member (files_of rel d) ->
  exists name, In (name, File (snd member)) d
               /\ fst member = os_path_join rel name.
Proof.
  induction d as [|[n x] d IH]; simpl; [contradiction|].
  destruct x as [c|sub]; simpl.
  - intros [<- | H].
    + exists n. split; [left; reflexivity | reflexivity].
    + destruct (IH H) as [name [Hin E]]. exists name. split; [right|]; assumption.
  - intros H. destruct (IH H) as [name [Hin E]].
    exists name. split; [right|]; assumption.
Qed.

Lemma walk_holds_file d path content :
  file_at d path content ->
  forall rel, In (relative_from rel path, content) (walk_node rel (Dir d)).
Proof.
  induction 1 as [d name content Hin | d name sub path content Hin _ IH];
    intros rel; simpl; apply in_or_app.
  - left. apply files_of_in, Hin.
  - right. apply in_flat_map. exists (name, Dir sub).
    split; [exact Hin|]. simpl fst. simpl snd. apply IH.
Qed.

Lemma walk_holds_files_only k : forall x rel member,
  node_size x <= k ->
  In member (walk_node rel x) ->
  exists d path,
    x = Dir d /\ file_at d path (snd member)
    /\ fst member = relative_from rel path.
Proof.
  induction k as [|k IH]; intros x rel member Hk Hin.
  - destruct x; simpl in Hk; lia.
  - destruct x as [c|d]; simpl in Hin; [contradiction|].
    exists d. apply in_app_or in Hin as [Hin | Hin].
    + destruct (files_of_from _ _ _ Hin) as [name [Hf E]].
      exists [name]. split; [reflexivity|].
      split; [apply file_here, Hf | exact E].
    + apply in_flat_map in Hin as [[name y] [Hy Hin]]. simpl in Hin.
      destruct (IH y (os_path_join rel name) member) as [sub [path [-> [Hf E]]]].
      * apply child_smaller in Hy. lia.
      * exact Hin.
      * exists (name :: path). split; [reflexivity|].
        split; [eapply file_below; eassumption | exact E].
Qed.

(** X20.  What [create_zip] packs.  When it succeeds, the archive holds
    every regular file of the report directory, at any depth, under its
    path relative to the directory and with its content; and it holds
    nothing else but the metadata, which is its last member. *)
Theorem create_zip_packs_the_regular_files
  (w : World) (source_dir output_filename metadata : str) (d : dir) :
  disk env (trace w) source_dir = d ->
  write_file metadata_name metadata d <> None ->
  exists a,
    create_zip env source_dir output_filename metadata w
    = (Returned tt, extend w (packaged source_dir output_filename metadata a))
    /\ (forall path content,
           file_at d path content ->
           In (relative_from [] path, content) a)
    /\ (forall member,
           In member a ->
           member = (metadata_name, metadata)
           \/ exists path,
               file_at d path (snd member)
               /\ fst member = relative_from [] path)
    /\ exists walked, a = walked ++ [(metadata_name, metadata)].
Proof.
  intros Hd Hw. exists (walk d ++ [(metadata_name, metadata)]).
  split; [rewrite create_zip_steps by (rewrite Hd; exact Hw);
          rewrite Hd; reflexivity|].
  split; [|split].
  - intros path content Hf. apply in_or_app. left.
    apply (walk_holds_file Hf).
  - intros member Hin. apply in_app_or in Hin as [Hin | [<- | []]].
    + right.
      destruct (@walk_holds_files_only (node_size (Dir d)) (Dir d) [] member
                  (le_n _) Hin) as [d' [path [E [Hf Hp]]]].
      inversion E; subst d'. exists path. split; assumption.
    + left. reflexivity.
  - exists (walk d). reflexivity.
Qed.

Lemma write_file_on_directory name content sub : forall before after,
  Forall (fun e => fst e <> name) before ->
  write_file name content (before ++ (name, Dir sub) :: after) = None.
Proof.
  induction before as [|[n x] before IH]; intros after Hb; simpl.
  - rewrite (proj2 (str_eqb_eq name name) eq_refl). reflexivity.
  - inversion Hb as [|? ? Hn Hrest]; subst. simpl in Hn.
    rewrite (str_eqb_neq Hn), IH by exact Hrest. reflexivity.
Qed.

(** X21.  When [metadata.txt] in the report directory is a directory,
    [create_zip] raises [IsADirectoryError]: the archive is closed with
    the files of the walk and without metadata, no metadata file is
    written and no success is reported. *)
Theorem create_zip_fails_on_a_metadata_directory
  (w : World) (source_dir output_filename metadata : str)
  (before after sub : dir) :
  disk env (trace w) source_dir
  = before ++ (metadata_name, Dir sub) :: after ->
  Forall (fun e => fst e <> metadata_name) before ->
  create_zip env source_dir output_filename metadata w
  = (Raised IsADirectoryError,
     extend w [Archived output_filename
                        (walk (before ++ (metadata_name, Dir sub) :: after))])
  /\ exit_status
       (fst (create_zip env source_dir output_filename metadata w)) = 1%Z.
Proof.
  intros Hd Hb.
  assert (H : create_zip env source_dir output_filename metadata w
              = (Raised IsADirectoryError,
                 extend w [Archived output_filename
                             (walk (before ++ (metadata_name, Dir sub)
                                    :: after))])).
  { unfold create_zip. rewrite Hd, write_file_on_directory by exact Hb.
    reflexivity. }
  rewrite H. split; reflexivity.
Qed.

(** X22.  When the report directory already holds a file [metadata.txt]
    (as after an earlier [create_zip]), the walk packs it like any
    other file and the new metadata is added after it: the archive has two
    members of that name, the old content first, and reads as the new. *)
Theorem create_zip_packs_an_old_metadata_file_too
  (w : World) (source_dir output_filename metadata old : str) (d : dir) :
  disk env (trace w) source_dir = d ->
  In (metadata_name, File old) d ->
  write_file metadata_name metadata d <> None ->
  exists a,
    create_zip env source_dir output_filename metadata w
    = (Returned tt, extend w (packaged source_dir output_filename metadata a))
    /\ (exists a1 a2,
           a = a1 ++ (metadata_name, old) :: a2 ++ [(metadata_name, metadata)])
    /\ 2 <= length (filter (named metadata_name) a)
    /\ read a metadata_name = Some metadata.
Proof.
  intros Hd Hin Hw. exists (walk d ++ [(metadata_name, metadata)]).
  split; [rewrite create_zip_steps by (rewrite Hd; exact Hw);
          rewrite Hd; reflexivity|].
  assert (Hold : In (metadata_name, old) (walk d)).
  { rewrite walk_split. apply in_or_app. left.
    rewrite <- (os_path_join_nil metadata_name) at 1.
    apply files_of_in, Hin. }
  apply in_split in Hold as [a1 [a2 E]].
  split; [|split; [|apply read_last]].
  - exists a1, a2. rewrite E, <- app_assoc. reflexivity.
  - assert (Hself : forall c, named metadata_name (metadata_name, c) = true)
      by (intros c; unfold named; simpl; apply str_eqb_eq; reflexivity).
    rewrite E, !filter_app. cbn [filter]. rewrite !Hself.
    rewrite !length_app. cbn [length]. lia.
Qed.

End PackagingMore.

Lemma create_zip_packs_the_regular_files_witness :
  exists a,
    create_zip (scripted (fun _ => (0%Z, [])) a_report) (lit "report")
               (lit "out.zip") (lit "summary") (start [])
    = (Returned tt,
       extend (start [])
              (packaged (lit "report") (lit "out.zip") (lit "summary") a))
    /\ In (lit "Device Info/logcat_01-02-2024_03:04:05.txt",
           lit "boot completed") a.
Proof.
  destruct (@create_zip_packs_the_regular_files
              (scripted (fun _ => (0%Z, [])) a_report) (start [])
              (lit "report") (lit "out.zip") (lit "summary") a_report)
    as [a [H1 [H2 _]]].
  - reflexivity.
  - vm_compute. discriminate.
  - exists a. split; [exact H1|].
    apply (H2 [lit "Device Info"; lit "logcat_01-02-2024_03:04:05.txt"]).
    eapply file_below; [left; reflexivity|].
    apply file_here. left. reflexivity.
Defined.

Lemma create_zip_fails_on_a_metadata_directory_witness :
  exit_status
    (fst (create_zip (scripted (fun _ => (0%Z, []))
                               (a_report ++ [(metadata_name, Dir [])]))
                     (lit "report") (lit "out.zip") (lit "summary")
                     (start [])))
  = 1%Z.
Proof.
  apply (@create_zip_fails_on_a_metadata_directory
           (scripted (fun _ => (0%Z, []))
                     (a_report ++ [(metadata_name, Dir [])]))
           (start []) (lit "report") (lit "out.zip") (lit "summary")
           a_report [] []).
  - reflexivity.
  - repeat constructor; simpl; intros H; vm_compute in H; discriminate.
Defined.

Lemma create_zip_packs_an_old_metadata_file_too_witness :
  exists a,
    create_zip (scripted (fun _ => (0%Z, []))
                         (a_report ++ [(metadata_name, File (lit "old"))]))
               (lit "report") (lit "out.zip") (lit "new") (start [])
    = (Returned tt,
       extend (start [])
              (packaged (lit "report") (lit "out.zip") (lit "new") a))
    /\ 2 <= length (filter (named metadata_name) a)
    /\ read a metadata_name = Some (lit "new").
Proof.
  destruct (@create_zip_packs_an_old_metadata_file_too
              (scripted (fun _ => (0%Z, []))
                        (a_report ++ [(metadata_name, File (lit "old"))]))
              (start []) (lit "report") (lit "out.zip") (lit "new") (lit "old")
              (a_report ++ [(metadata_name, File (lit "old"))]))
    as [a [H1 [_ [H2 H3]]]].
  - reflexivity.
  - right. right. left. reflexivity.
  - vm_compute. discriminate.
  - exists a. split; [exact H1 | split; [exact H2 | exact H3]].
Defined.

(* ===================================================================== *)
(** * The run from the start *)
(* ===================================================================== *)

Section WholeRun.
Variable env : Env.

(** The directories made when the module is loaded. *)
Definition made_at_load : list Event :=
  [MadeDirs incident_dir; MadeDirs (report_dir env);
   MadeDirs (screen_recordings_dir env); MadeDirs (qgc_logs_dir env);
   MadeDirs (device_info_dir env); MadeDirs (navsuite_log_dir env)].

Lemma module_level_steps w :
  module_level env w = (Returned tt, extend w made_at_load).
Proof.
  unfold module_level, made_at_load. proc. rewrite <- !app_assoc. reflexivity.
Qed.

(** X23.  The report directory and its four folders are made when the
    module is loaded, before discovery: a run that finds no device exits
    with status 1 and leaves them behind. *)
Theorem script_without_devices_leaves_the_directories
  (n : Z) (s : bool) (w w1 : World) :
  get_connected_devices env (extend w made_at_load) = (Returned [], w1) ->
  script env n s w
  = (Raised (SystemExit 1), extend w1 [Printed no_devices_message])
  /\ exit_status (fst (script env n s w)) = 1%Z
  /\ exists later, trace w1 = trace w ++ made_at_load ++ later.
Proof.
  intros Hd.
  assert (H : script env n s w
              = (Raised (SystemExit 1),
                 extend w1 [Printed no_devices_message])).
  { unfold script. unfold bind. rewrite module_level_steps.
    apply main_without_devices, Hd. }
  rewrite H. split; [reflexivity|]. split; [reflexivity|].
  destruct (get_connected_devices_run env (extend w made_at_load))
    as [ds [rc [out [_ [Hg _]]]]].
  rewrite Hg in Hd. inversion Hd; subst.
  exists (discovery_events env rc). unfold extend. cbn [trace].
  rewrite app_assoc. reflexivity.
Qed.

End WholeRun.

Lemma script_without_devices_leaves_the_directories_witness :
  let env := scripted (fun _ => (1%Z, [])) [] in
  exit_status (fst (script env 5 false (start []))) = 1%Z.
Proof.
  intros env.
  apply (@script_without_devices_leaves_the_directories env 5%Z false
           (start [])
           (snd (get_connected_devices env
                   (extend (start []) (made_at_load env))))).
  vm_compute. reflexivity.
Defined.
